(** * The retrying HTTP client of the ElevenLabs MCP server

    A shallow embedding of [src/api/client.ts] (class [ElevenLabsClient],
    [getClient], [resetClient]) together with the part of
    [src/config/constants.ts] it reads, and the properties of the retry loop,
    of the header construction and of the module-level singleton.

    Conventions of the embedding.
    - A JavaScript [number] that comes from configuration is an integer or
      [NaN] (that is what [parseInt] returns); fractional and infinite values
      are outside the model, and integer arithmetic is exact (no rounding of
      doubles).
    - A JavaScript object used as a string-keyed dictionary
      ([Record<string, string>], [process.env]) is a [gmap string string];
      keys are compared exactly, as property names are.
    - Effects are threaded through a [World]: the log of [fetch] calls, the
      log of the delays handed to [sleep], and the lines written with
      [console.error]. The remote side is a function from the index of a
      [fetch] call to what that call yields.
    - [sleep] records the delay it is handed; what the timer makes of it is
      the platform's business.
    - [JSON.parse], [JSON.stringify] and the UTF-8 decoder are platform
      functions: they are parameters of the development.

    The development goes on to the tools that use the client: the tag
    validation and the formatting of the dialogue tool (in
    [src/tools/sound-effects.ts], from line 126), the filters of
    [src/tools/voices.ts], and the tools that save audio ([generateMusic]
    and [streamMusic], in [src/tools/tts.ts] from line 224, and
    [generateDialogue]). For these,
    - a text is a JavaScript string whose code units are all below 256
      (the Latin-1 range), one character of a Rocq [string] for each code
      unit; on such texts [toLowerCase], [trim] and the other string
      methods are modelled exactly, and texts with other characters are
      outside the model;
    - a number in a request body is an integer, like every number of the
      model: durations are whole seconds, and the tools whose bodies need
      fractions (the voice settings of the speech tools, the prompt influence
      of the sound effects) are not embedded;
    - the file system and the clock are part of the platform: [path.join],
      [path.dirname] and the faults of the file system are parameters, and
      the time a tool reads is an argument. *)

From Stdlib Require Import ZArith Lia List Ascii String.
From stdpp Require Import base strings gmap list pretty.

Local Open Scope string_scope.
Local Open Scope Z_scope.

(** ** JavaScript values *)

(** The numbers held in the client configuration. *)
Inductive number : Type :=
| NaN
| Num (z : Z).

Definition num_le (a b : number) : bool :=
  match a, b with
  | Num x, Num y => x <=? y
  | _, _ => false
  end.

Definition num_lt (a b : number) : bool :=
  match a, b with
  | Num x, Num y => x <? y
  | _, _ => false
  end.

Definition num_add (a b : number) : number :=
  match a, b with
  | Num x, Num y => Num (x + y)
  | _, _ => NaN
  end.

Definition num_mul (a b : number) : number :=
  match a, b with
  | Num x, Num y => Num (x * y)
  | _, _ => NaN
  end.

(** [Math.pow(2, attempt)] for an integer [attempt >= 0]. *)
Definition Math_pow2 (attempt : Z) : number := Num (2 ^ attempt).

(** [`${n}`] for a number. *)
Definition number_to_string (n : number) : string :=
  match n with
  | NaN => "NaN"
  | Num z => pretty z
  end.

#[local] Set Warnings "-register-all".

(** Structured data: what [JSON.parse] returns and what a request body is.
    Numbers are kept as integers. An object is the list of its properties. *)
Inductive JSON : Type :=
| JNull
| JBool (b : bool)
| JNumber (n : Z)
| JString (s : string)
| JArray (items : list JSON)
| JObject (fields : list (string * JSON)).

(** Truthiness of a string: only the empty string is falsy. *)
Definition truthy_string (s : string) : bool :=
  match s with
  | EmptyString => false
  | String _ _ => true
  end.

(** Truthiness of a value. *)
Definition truthy (j : JSON) : bool :=
  match j with
  | JNull => false
  | JBool b => b
  | JNumber n => negb (n =? 0)
  | JString s => truthy_string s
  | JArray _ => true
  | JObject _ => true
  end.

(** Truthiness of a possibly [undefined] value. *)
Definition truthy_opt (o : option JSON) : bool :=
  match o with
  | None => false
  | Some j => truthy j
  end.

(** Property lookup in an object literal. *)
Fixpoint get_field (key : string) (fields : list (string * JSON)) : option JSON :=
  match fields with
  | [] => None
  | (k, v) :: rest => if String.eqb k key then Some v else get_field key rest
  end.

Definition join_comma (parts : list string) : string :=
  match parts with
  | [] => ""
  | p :: ps => fold_left (fun acc q => acc +:+ "," +:+ q) ps p
  end.

(** [`${v}`] for a value. *)
Fixpoint ToString (j : JSON) : string :=
  match j with
  | JNull => "null"
  | JBool true => "true"
  | JBool false => "false"
  | JNumber n => pretty n
  | JString s => s
  | JArray items =>
      join_comma
        (List.map (fun x => match x with JNull => "" | _ => ToString x end) items)
  | JObject _ => "[object Object]"
  end.

(** A thrown [Error]: its message and the [status] property that [request]
    attaches to the errors it formats ([None] when the property is absent). *)
Record JsError : Type := mkError {
  message : string;
  err_status : option Z;
}.

Definition new_Error (msg : string) : JsError := mkError msg None.

(** Truthiness of [(error as any).status]. *)
Definition truthy_status (e : JsError) : bool :=
  match err_status e with
  | None => false
  | Some s => negb (s =? 0)
  end.

(** ** [src/config/constants.ts] *)

Definition ELEVENLABS_API_BASE : string := "https://api.elevenlabs.io/v1".

Definition ERROR_MESSAGES (status : Z) : option string :=
  if status =? 400 then Some "Bad Request - Invalid parameters provided"
  else if status =? 401 then Some "Unauthorized - Invalid or missing API key"
  else if status =? 403 then Some "Forbidden - Insufficient permissions for this operation"
  else if status =? 429 then Some "Rate Limited - Too many requests, please try again later"
  else if status =? 500 then Some "Server Error - ElevenLabs service temporarily unavailable"
  else if status =? 502 then Some "Bad Gateway - ElevenLabs service temporarily unavailable"
  else if status =? 503 then Some "Service Unavailable - ElevenLabs service temporarily unavailable"
  else None.

(** ** The platform: [fetch], timers and the console *)

Inductive Method : Type := GET | POST | PUT | DELETE.

Inductive ResponseType : Type := json | arraybuffer.

(** The second argument of [fetch]. *)
Record FetchInit : Type := mkInit {
  init_method : Method;
  init_headers : gmap string string;
  init_body : option string;
}.

(** One network call: the arguments [fetch] was given. *)
Record FetchCall : Type := mkCall {
  call_url : string;
  call_init : FetchInit;
}.

(** The body stream of a response: either all of its bytes arrive, or reading
    it fails (the connection is lost after the status line). *)
Inductive Body : Type :=
| Complete (bytes : list Byte.byte)
| Aborted (reason : string).

Record Response : Type := mkResponse {
  status : Z;
  body : Body;
}.

(** [response.ok] *)
Definition ok (r : Response) : bool := (200 <=? status r) && (status r <=? 299).

(** What one [fetch] call yields: the promise rejects (no response was
    received) or resolves with a response. *)
Inductive FetchResult : Type :=
| Rejects (reason : string)
| Resolves (r : Response).

(** The value a successful [request] returns. *)
Inductive Payload : Type :=
| PJson (j : JSON)
| PArrayBuffer (bytes : list Byte.byte).

(** What [JSON.parse] does with a text. *)
Inductive ParseResult : Type :=
| Parsed (j : JSON)
| SyntaxError (msg : string).

(** The observable effects of the client. *)
Record World : Type := mkWorld {
  calls : list FetchCall;
  slept : list number;
  console : list string;
}.

Definition empty_world : World := mkWorld [] [] [].

(** ** Computations that have effects and may throw *)

Inductive Outcome (A : Type) : Type :=
| Value (a : A)
| Throw (e : JsError).

Arguments Value {A} a.
Arguments Throw {A} e.

Definition M (A : Type) : Type := World -> Outcome A * World.

#[global] Instance M_ret : MRet M := fun A a w => (Value a, w).

#[global] Instance M_bind : MBind M := fun A B f m w =>
  match m w with
  | (Value a, w') => f a w'
  | (Throw e, w') => (Throw e, w')
  end.

Definition throw {A : Type} (e : JsError) : M A := fun w => (Throw e, w).

(** [try { m } catch (error) { handler error }] *)
Definition try_catch {A : Type} (m : M A) (handler : JsError -> M A) : M A :=
  fun w =>
    match m w with
    | (Value a, w') => (Value a, w')
    | (Throw e, w') => handler e w'
    end.

(** [await this.sleep(ms)] *)
Definition sleep (ms : number) : M unit :=
  fun w => (Value tt, mkWorld (calls w) (slept w ++ [ms]) (console w)).

(** [console.error(line)] *)
Definition console_error (line : string) : M unit :=
  fun w => (Value tt, mkWorld (calls w) (slept w) (console w ++ [line])).


(** ** [class ElevenLabsClient] *)

Record ClientConfig : Type := mkConfig {
  cfg_apiKey : string;
  cfg_maxRetries : option number;
  cfg_retryDelayMs : option number;
}.

Record ElevenLabsClient : Type := mkClient {
  apiKey : string;
  maxRetries : number;
  retryDelayMs : number;
}.

(** [constructor(config)]; [??] replaces only an absent field. *)
Definition constructor (config : ClientConfig) : ElevenLabsClient :=
  {| apiKey := cfg_apiKey config;
     maxRetries := default (Num 3) (cfg_maxRetries config);
     retryDelayMs := default (Num 1000) (cfg_retryDelayMs config) |}.

Record RequestOptions : Type := mkOptions {
  opt_method : option Method;
  opt_body : option JSON;
  opt_headers : option (gmap string string);
  opt_responseType : option ResponseType;
}.

(** [options = {}] *)
Definition no_options : RequestOptions := mkOptions None None None None.

(** [getErrorMessage(status, detail)] *)
Definition getErrorMessage (status : Z) (detail : option JSON) : string :=
  let baseMessage := default ("HTTP Error " +:+ pretty status) (ERROR_MESSAGES status) in
  match detail with
  | Some d => if truthy d then baseMessage +:+ ": " +:+ ToString d else baseMessage
  | None => baseMessage
  end.

(** Truthiness of [requestHeaders['Content-Type']]. *)
Definition truthy_header (v : option string) : bool :=
  match v with
  | None => false
  | Some s => truthy_string s
  end.

(** The header object of [request] (lines 50 to 57): the spread puts the
    caller's entries over the default; the content type is added afterwards
    under its guard. *)
Definition requestHeaders (this : ElevenLabsClient) (options : RequestOptions)
  : gmap string string :=
  let headers := default ∅ (opt_headers options) in
  let spread := headers ∪ {[ "xi-api-key" := apiKey this ]} in
  if truthy_opt (opt_body options) && negb (truthy_header (spread !! "Content-Type"))
  then <[ "Content-Type" := "application/json" ]> spread
  else spread.

(** The outcome of one pass through the loop body that does not leave the
    function by a throw: [return v], or [continue] with the error stored in
    [lastError]. *)
Inductive Step : Type :=
| SReturn (v : Payload)
| SContinue (lastError : JsError).

(** How [request] ends, and at which statement when it throws. *)
Inductive Exit : Type :=
| Returned (v : Payload)
| ThrownInLoop (e : JsError)
| ThrownAfterLoop (e : JsError).

Section Request.

(** The platform functions and the remote side. *)
Variable utf8_decode : list Byte.byte -> string.
Variable JSON_parse : string -> ParseResult.
Variable JSON_stringify : JSON -> string.
Variable remote : nat -> FetchResult.

(** [await fetch(url, init)]: the call is recorded; its result is the one
    the remote side has for the call of that index. *)
Definition fetch (url : string) (init : FetchInit) : M Response :=
  fun w =>
    let w' := mkWorld (calls w ++ [mkCall url init]) (slept w) (console w) in
    match remote (length (calls w)) with
    | Rejects reason => (Throw (new_Error reason), w')
    | Resolves r => (Value r, w')
    end.

(** [await response.arrayBuffer()] *)
Definition arrayBuffer (r : Response) : M (list Byte.byte) :=
  match body r with
  | Complete bytes => mret bytes
  | Aborted reason => throw (new_Error reason)
  end.

(** [await response.text()] *)
Definition text (r : Response) : M string :=
  match body r with
  | Complete bytes => mret (utf8_decode bytes)
  | Aborted reason => throw (new_Error reason)
  end.

(** [await response.json()] *)
Definition response_json (r : Response) : M JSON :=
  match body r with
  | Complete bytes =>
      match JSON_parse (utf8_decode bytes) with
      | Parsed j => mret j
      | SyntaxError msg => throw (new_Error msg)
      end
  | Aborted reason => throw (new_Error reason)
  end.

(** Lines 71 to 78: [errorJson.detail?.message], or the raw text when
    [JSON.parse] throws or the parsed value is [null] (reading a property
    of [null] throws inside the same [try]). [None] is [undefined]. *)
Definition errorDetail_of (errorBody : string) : option JSON :=
  match JSON_parse errorBody with
  | Parsed JNull => Some (JString errorBody)
  | Parsed (JObject fields) =>
      match get_field "detail" fields with
      | Some (JObject detail) => get_field "message" detail
      | _ => None
      end
  | Parsed _ => None
  | SyntaxError _ => Some (JString errorBody)
  end.

Section Attempts.

Variable this : ElevenLabsClient.
Variable endpoint : string.
Variable options : RequestOptions.

Definition request_method : Method := default GET (opt_method options).
Definition request_responseType : ResponseType :=
  default json (opt_responseType options).
Definition request_url : string := ELEVENLABS_API_BASE +:+ endpoint.

(** The second argument of the [fetch] call on line 63. *)
Definition request_init : FetchInit :=
  {| init_method := request_method;
     init_headers := requestHeaders this options;
     init_body :=
       match opt_body options with
       | Some b => if truthy b then Some (JSON_stringify b) else None
       | None => None
       end |}.

(** [Math.pow(2, attempt) * this.retryDelayMs] *)
Definition backoff (attempt : Z) : number :=
  num_mul (Math_pow2 attempt) (retryDelayMs this).

(** The [try] block, lines 62 to 99. *)
Definition try_block (attempt : Z) : M Step :=
  response ← fetch request_url request_init;
  if negb (ok response) then
    errorBody ← text response;
    let errorDetail := errorDetail_of errorBody in
    let error :=
      mkError (getErrorMessage (status response) errorDetail)
              (Some (status response)) in
    if ((status response =? 429) || (status response >=? 500))
       && num_lt (Num attempt) (maxRetries this)
    then
      let delay := backoff attempt in
      console_error ("Request failed with " +:+ pretty (status response)
                     +:+ ", retrying in " +:+ number_to_string delay
                     +:+ "ms...") ;;
      sleep delay ;;
      mret (SContinue error)
    else throw error
  else
    match request_responseType with
    | arraybuffer =>
        bytes ← arrayBuffer response; mret (SReturn (PArrayBuffer bytes))
    | json =>
        j ← response_json response; mret (SReturn (PJson j))
    end.

(** The [catch] block, lines 100 to 116. *)
Definition catch_block (attempt : Z) (error : JsError) : M Step :=
  if truthy_status error then throw error
  else if num_lt (Num attempt) (maxRetries this) then
    let delay := backoff attempt in
    console_error ("Network error, retrying in " +:+ number_to_string delay
                   +:+ "ms... " +:+ message error) ;;
    sleep delay ;;
    mret (SContinue error)
  else
    throw (new_Error ("Network error after "
                      +:+ number_to_string (num_add (maxRetries this) (Num 1))
                      +:+ " attempts: " +:+ message error)).

(** One pass through the body of the [for] loop. *)
Definition iteration (attempt : Z) : M Step :=
  try_catch (try_block attempt) (catch_block attempt).

(** The [for] loop of lines 61 to 117 followed by the [throw] of line 119.
    [fuel] bounds the number of times the loop condition is evaluated. *)
Fixpoint attempt_loop (fuel : nat) (attempt : Z) (lastError : option JsError)
         (w : World) : option (Exit * World) :=
  match fuel with
  | O => None
  | S fuel' =>
      if num_le (Num attempt) (maxRetries this) then
        match iteration attempt w with
        | (Value (SReturn v), w') => Some (Returned v, w')
        | (Value (SContinue e), w') =>
            attempt_loop fuel' (attempt + 1) (Some e) w'
        | (Throw e, w') => Some (ThrownInLoop e, w')
        end
      else
        Some (ThrownAfterLoop
                (default (new_Error "Request failed after all retries") lastError),
              w)
  end.

(** The loop condition is evaluated once per pass and once more to leave
    the loop. *)
Definition loop_fuel : nat :=
  match maxRetries this with
  | NaN => 1%nat
  | Num m => S (Z.to_nat (m + 1))
  end.

(** [request(endpoint, options)] *)
Definition request (w : World) : option (Exit * World) :=
  attempt_loop loop_fuel 0 None w.

End Attempts.

(** [get(endpoint, responseType)] *)
Definition get (this : ElevenLabsClient) (endpoint : string)
           (responseType : option ResponseType) : World -> option (Exit * World) :=
  request this endpoint (mkOptions (Some GET) None None responseType).

(** [post(endpoint, body, responseType)] *)
Definition post (this : ElevenLabsClient) (endpoint : string) (body : option JSON)
           (responseType : option ResponseType) : World -> option (Exit * World) :=
  request this endpoint (mkOptions (Some POST) body None responseType).

(** [generateAudio(endpoint, body)] *)
Definition generateAudio (this : ElevenLabsClient) (endpoint : string)
           (body : option JSON) : World -> option (Exit * World) :=
  request this endpoint (mkOptions (Some POST) body None (Some arraybuffer)).

End Request.

(** ** The module-level singleton *)

(** [parseInt(s, 10)]: leading white space is skipped, then an optional sign,
    then the longest prefix of decimal digits; no digit gives [NaN].

    The white space of JavaScript among the characters of the model: TAB,
    LF, VT, FF, CR, the space and the no-break space U+00A0. *)
Definition is_whitespace (c : ascii) : bool :=
  let n := Z.of_nat (nat_of_ascii c) in
  (n =? 32) || ((9 <=? n) && (n <=? 13)) || (n =? 160).

Fixpoint trim_start (s : string) : string :=
  match s with
  | String c rest => if is_whitespace c then trim_start rest else s
  | EmptyString => s
  end.

Definition digit_value (c : ascii) : option Z :=
  let n := Z.of_nat (nat_of_ascii c) in
  if (48 <=? n) && (n <=? 57) then Some (n - 48) else None.

Fixpoint parse_digits (s : string) (acc : option Z) : option Z :=
  match s with
  | String c rest =>
      match digit_value c with
      | Some d => parse_digits rest (Some (10 * default 0 acc + d))
      | None => acc
      end
  | EmptyString => acc
  end.

Definition parseInt (s : string) : number :=
  let trimmed := trim_start s in
  let '(negative, digits) :=
    match trimmed with
    | String "-" rest => (true, rest)
    | String "+" rest => (false, rest)
    | _ => (false, trimmed)
    end in
  match parse_digits digits None with
  | None => NaN
  | Some v => Num (if negative then - v else v)
  end.

(** [process.env.NAME || fallback] *)
Definition env_or (env : gmap string string) (name fallback : string) : string :=
  match env !! name with
  | Some s => if truthy_string s then s else fallback
  | None => fallback
  end.

(** A client object: the identity it got when it was constructed, and its
    (never assigned again) fields. *)
Record Instance : Type := mkInstance {
  ref : nat;
  obj : ElevenLabsClient;
}.

(** The state of the module [client.ts]: the variable [clientInstance], and
    the number of client objects constructed so far, from which [new] draws
    the identity of the next one. *)
Record ModuleState : Type := mkModule {
  allocated : nat;
  clientInstance : option Instance;
}.

Definition initial_module : ModuleState := mkModule 0 None.

(** The error of line 153. *)
Definition ConfigurationError : JsError :=
  new_Error "ELEVENLABS_API_KEY environment variable is required".

(** [getClient()] run with [process.env = env]. *)
Definition getClient (env : gmap string string) (st : ModuleState)
  : Outcome Instance * ModuleState :=
  match clientInstance st with
  | Some instance => (Value instance, st)
  | None =>
      match env !! "ELEVENLABS_API_KEY" with
      | Some key =>
          if truthy_string key then
            let instance :=
              mkInstance (allocated st)
                (constructor
                   {| cfg_apiKey := key;
                      cfg_maxRetries := Some (parseInt (env_or env "MAX_RETRIES" "3"));
                      cfg_retryDelayMs :=
                        Some (parseInt (env_or env "RETRY_DELAY_MS" "1000")) |}) in
            (Value instance, mkModule (S (allocated st)) (Some instance))
          else (Throw ConfigurationError, st)
      | None => (Throw ConfigurationError, st)
      end
  end.

(** [resetClient()] *)
Definition resetClient (st : ModuleState) : ModuleState :=
  mkModule (allocated st) None.

(** What the caller of [request] observes. *)
Definition observe (e : Exit) : Outcome Payload :=
  match e with
  | Returned v => Value v
  | ThrownInLoop err => Throw err
  | ThrownAfterLoop err => Throw err
  end.

Section Tools.

Variable utf8_decode : list Byte.byte -> string.
Variable JSON_parse : string -> ParseResult.
Variable JSON_stringify : JSON -> string.
Variable remote : nat -> FetchResult.

(** [API_ENDPOINTS.VOICE(voiceId)] *)
Definition API_ENDPOINTS_VOICE (voiceId : string) : string := "/voices/" +:+ voiceId.

(** [getVoice(input)] of [src/tools/voices.ts]: the way every tool reaches
    the client, [getClient()] first and a request on its result next. *)
Definition getVoice (env : gmap string string) (voice_id : string)
           (st : ModuleState) (w : World)
  : option (Outcome Payload * ModuleState * World) :=
  match getClient env st with
  | (Value client, st') =>
      match get utf8_decode JSON_parse JSON_stringify remote (obj client)
                (API_ENDPOINTS_VOICE voice_id) None w with
      | Some (e, w') => Some (observe e, st', w')
      | None => None
      end
  | (Throw e, st') => Some (Throw e, st', w)
  end.

End Tools.

(** ** Notions used to state the properties *)

Section Notions.

Variable utf8_decode : list Byte.byte -> string.
Variable JSON_parse : string -> ParseResult.

(** The payload a response decodes to under a declared response type, when
    its body arrives in full and (for [json]) parses. *)
Definition decoded_payload (responseType : ResponseType) (r : Response)
  : option Payload :=
  match body r with
  | Complete bytes =>
      match responseType with
      | arraybuffer => Some (PArrayBuffer bytes)
      | json =>
          match JSON_parse (utf8_decode bytes) with
          | Parsed j => Some (PJson j)
          | SyntaxError _ => None
          end
      end
  | Aborted _ => None
  end.

(** The remote side answers with a status for which the loop may try
    again: 429, or 500 and above. *)
Definition responds_retryable (fr : FetchResult) : Prop :=
  exists r, fr = Resolves r /\ (status r = 429 \/ 500 <= status r).

(** The remote side answers with status [s], and the answer arrives in
    full. *)
Definition responds_with (s : Z) (fr : FetchResult) : Prop :=
  exists bytes, fr = Resolves (mkResponse s (Complete bytes)).

(** Whether pass number [attempt] of the loop ends in [continue], given the
    result of its [fetch] call. *)
Definition retried (this : ElevenLabsClient) (responseType : ResponseType)
           (attempt : Z) (fr : FetchResult) : bool :=
  num_lt (Num attempt) (maxRetries this) &&
  match fr with
  | Rejects _ => true
  | Resolves r =>
      match body r with
      | Aborted _ => true
      | Complete bytes =>
          if ok r then
            match responseType with
            | arraybuffer => false
            | json =>
                match JSON_parse (utf8_decode bytes) with
                | Parsed _ => false
                | SyntaxError _ => true
                end
            end
          else (status r =? 429) || (status r >=? 500) || (status r =? 0)
      end
  end.

(** The error that [request] formats for a response outside the success
    range whose body is [bytes]. *)
Definition formatted_error (s : Z) (bytes : list Byte.byte) : JsError :=
  mkError (getErrorMessage s (errorDetail_of JSON_parse (utf8_decode bytes)))
          (Some s).

End Notions.

(** The sum of the first [k] backoff delays, [2^0 * d + ... + 2^(k-1) * d]. *)
Fixpoint sum_backoff (k : nat) (d : Z) : Z :=
  match k with
  | O => 0
  | S k' => sum_backoff k' d + 2 ^ Z.of_nat k' * d
  end.

(** The delays of the first [k] retries of a client, in order. *)
Definition backoff_delays (this : ElevenLabsClient) (k : nat) : list number :=
  List.map (fun i => backoff this (Z.of_nat i)) (seq 0 k).

(** ** A sample platform, for the examples *)

Definition sample_utf8_decode (bytes : list Byte.byte) : string :=
  string_of_list_byte bytes.

Definition dq : string := String "034"%char EmptyString.

(** The text [{"voices":[]}]. *)
Definition voices_text : string := "{" +:+ dq +:+ "voices" +:+ dq +:+ ":[]}".

(** The text [{"detail":{"status":"quota_exceeded","message":"Quota exceeded"}}]. *)
Definition quota_text : string :=
  "{" +:+ dq +:+ "detail" +:+ dq +:+ ":{" +:+ dq +:+ "status" +:+ dq +:+ ":"
  +:+ dq +:+ "quota_exceeded" +:+ dq +:+ "," +:+ dq +:+ "message" +:+ dq +:+ ":"
  +:+ dq +:+ "Quota exceeded" +:+ dq +:+ "}}".

(** A fragment of [JSON.parse]: it agrees with it on the texts the examples
    use, and rejects every other text. *)
Definition sample_JSON_parse (text : string) : ParseResult :=
  if String.eqb text "{}" then Parsed (JObject [])
  else if String.eqb text "[]" then Parsed (JArray [])
  else if String.eqb text "null" then Parsed JNull
  else if String.eqb text voices_text then Parsed (JObject [("voices", JArray [])])
  else if String.eqb text quota_text then
    Parsed (JObject [("detail", JObject [("status", JString "quota_exceeded");
                                         ("message", JString "Quota exceeded")])])
  else SyntaxError "Unexpected token in JSON".

(** [JSON.stringify] on values whose strings need no escape. *)
Fixpoint sample_JSON_stringify (j : JSON) : string :=
  match j with
  | JNull => "null"
  | JBool true => "true"
  | JBool false => "false"
  | JNumber n => pretty n
  | JString s => dq +:+ s +:+ dq
  | JArray items => "[" +:+ join_comma (List.map sample_JSON_stringify items) +:+ "]"
  | JObject fields =>
      "{" +:+ join_comma
                (List.map (fun kv => dq +:+ fst kv +:+ dq +:+ ":"
                                     +:+ sample_JSON_stringify (snd kv)) fields)
      +:+ "}"
  end.

(** A text decoder and a parser that are of no use: whatever is computed
    with them does not depend on the real ones. *)
Definition blind_utf8_decode (bytes : list Byte.byte) : string := "".

Definition blind_JSON_parse (text : string) : ParseResult :=
  SyntaxError "not consulted".

(** A remote side that plays a script and then repeats one result. *)
Definition scripted (script : list FetchResult) (rest : FetchResult)
  : nat -> FetchResult :=
  fun i => nth i script rest.

Definition bytes_of (s : string) : list Byte.byte := list_byte_of_string s.

Definition respond (s : Z) (text : string) : FetchResult :=
  Resolves (mkResponse s (Complete (bytes_of text))).

(** A client as [getClient] builds it when only the credential is set. *)
Definition sample_client : ElevenLabsClient :=
  constructor (mkConfig "sk_config" None None).

Definition sample_request (remote : nat -> FetchResult) :=
  request sample_utf8_decode sample_JSON_parse sample_JSON_stringify remote.

(** Several accesses to the singleton, one after the other, each with the
    environment of its moment. [getClient] has no [await]: an access runs to
    its end before the next one starts, so accesses made concurrently by
    several tool calls are accesses made in some order. *)
Fixpoint getClient_each (envs : list (gmap string string)) (st : ModuleState)
  : list (Outcome Instance) * ModuleState :=
  match envs with
  | [] => ([], st)
  | env :: rest =>
      let '(o, st1) := getClient env st in
      let '(os, st2) := getClient_each rest st1 in
      (o :: os, st2)
  end.

(** The client that [getClient] constructs from an environment whose
    credential is [key]. *)
Definition client_of_env (env : gmap string string) (key : string) : ElevenLabsClient :=
  mkClient key (parseInt (env_or env "MAX_RETRIES" "3"))
           (parseInt (env_or env "RETRY_DELAY_MS" "1000")).

(** The sentence "the authentication header sent is always the credential of
    the configuration, whatever header map the caller supplies". *)
Definition auth_header_always_from_config : Prop :=
  forall utf8_decode JSON_parse JSON_stringify remote this endpoint options x w',
    request utf8_decode JSON_parse JSON_stringify remote this endpoint options
            empty_world = Some (x, w') ->
    Forall (fun c => init_headers (call_init c) !! "xi-api-key" = Some (apiKey this))
           (calls w').

(** The sentence "a Content-Type supplied by the caller is never replaced by
    the automatic default". *)
Definition caller_content_type_never_replaced : Prop :=
  forall utf8_decode JSON_parse JSON_stringify remote this endpoint options
         headers v x w',
    opt_headers options = Some headers ->
    headers !! "Content-Type" = Some v ->
    request utf8_decode JSON_parse JSON_stringify remote this endpoint options
            empty_world = Some (x, w') ->
    Forall (fun c => init_headers (call_init c) !! "Content-Type" = Some v)
           (calls w').

(** The sentence "a decode failure is never retried": once a call has been
    answered by a response of the success range whose body does not parse,
    [request] makes no further call and does not sleep. *)
Definition decode_failure_never_retried : Prop :=
  forall utf8_decode JSON_parse JSON_stringify remote this endpoint options
         resp bytes msg x w',
    request_responseType options = json ->
    remote 0%nat = Resolves resp ->
    ok resp = true ->
    body resp = Complete bytes ->
    JSON_parse (utf8_decode bytes) = SyntaxError msg ->
    request utf8_decode JSON_parse JSON_stringify remote this endpoint options
            empty_world = Some (x, w') ->
    length (calls w') = 1%nat /\ slept w' = [].

(** ** Sample inputs *)

Definition env_default : gmap string string :=
  {[ "ELEVENLABS_API_KEY" := "sk_config" ]}.

Definition env_tuned : gmap string string :=
  {[ "ELEVENLABS_API_KEY" := "sk_other"; "MAX_RETRIES" := "5";
     "RETRY_DELAY_MS" := "250" ]}.

Definition env_empty_key : gmap string string :=
  {[ "ELEVENLABS_API_KEY" := "" ]}.

Definition env_bad_retries : gmap string string :=
  {[ "ELEVENLABS_API_KEY" := "sk_config"; "MAX_RETRIES" := "none" ]}.

Definition speech_body : JSON := JObject [("text", JString "hi")].

Definition speech_options : RequestOptions :=
  mkOptions (Some POST) (Some speech_body) None (Some arraybuffer).

(** 429 to the first call, then 200 with three bytes. *)
Definition remote_429_then_audio : nat -> FetchResult :=
  scripted [respond 429 quota_text] (respond 200 "ID3").

Definition remote_always_500 : nat -> FetchResult :=
  scripted [] (respond 500 "").

Definition remote_401 : nat -> FetchResult :=
  scripted [] (respond 401 quota_text).

(** 200 with a body that is not JSON, then 200 with [{}]. *)
Definition remote_html_then_json : nat -> FetchResult :=
  scripted [respond 200 "<html>"] (respond 200 "{}").

Definition remote_voices : nat -> FetchResult :=
  scripted [] (respond 200 voices_text).

Definition caller_key_options : RequestOptions :=
  mkOptions None None (Some {[ "xi-api-key" := "sk_caller" ]}) None.

Definition empty_content_type_options : RequestOptions :=
  mkOptions (Some POST) (Some speech_body) (Some {[ "Content-Type" := "" ]}) None.

Definition text_content_type_options : RequestOptions :=
  mkOptions (Some POST) (Some speech_body)
            (Some {[ "Content-Type" := "text/plain" ]}) None.

(** The call that the sample requests of the header examples make. *)
Definition sample_call (options : RequestOptions) : FetchCall :=
  mkCall (request_url "/voices")
         (request_init sample_JSON_stringify sample_client options).

(** ** Further notions about one attempt *)

Section AttemptNotions.

Variable utf8_decode : list Byte.byte -> string.
Variable JSON_parse : string -> ParseResult.

(** The message of the error that the [catch] block takes for a network
    error, for a given result of [fetch]: the rejection reason, the reason
    the body could not be read, the message of the [SyntaxError] of a body
    that does not parse, or the formatted message of a response whose status
    is 0. [None] when the pass returns or throws a formatted error. *)
Definition transient_message (responseType : ResponseType) (fr : FetchResult)
  : option string :=
  match fr with
  | Rejects reason => Some reason
  | Resolves r =>
      match body r with
      | Aborted reason => Some reason
      | Complete bytes =>
          if ok r then
            match responseType with
            | arraybuffer => None
            | json =>
                match JSON_parse (utf8_decode bytes) with
                | Parsed _ => None
                | SyntaxError msg => Some msg
                end
            end
          else if status r =? 0 then
            Some (getErrorMessage (status r)
                    (errorDetail_of JSON_parse (utf8_decode bytes)))
          else None
      end
  end.

End AttemptNotions.

(** The error of line 115. *)
Definition network_error (this : ElevenLabsClient) (msg : string) : JsError :=
  new_Error ("Network error after "
             +:+ number_to_string (num_add (maxRetries this) (Num 1))
             +:+ " attempts: " +:+ msg).

(** ** Histories of the module state *)

(** What the rest of the program can do to the module state. *)
Inductive ModuleOp : Type :=
| OpGetClient (env : gmap string string)
| OpResetClient.

Definition run_op (op : ModuleOp) (st : ModuleState) : ModuleState :=
  match op with
  | OpGetClient env => snd (getClient env st)
  | OpResetClient => resetClient st
  end.

(** The module state after a history of accesses and resets, oldest first. *)
Definition run_ops (ops : list ModuleOp) (st : ModuleState) : ModuleState :=
  fold_left (fun s op => run_op op s) ops st.

(** In every state the module can reach, the stored instance has a non-empty
    credential and an identity already drawn. *)
Definition module_invariant (st : ModuleState) : Prop :=
  forall instance,
    clientInstance st = Some instance ->
    truthy_string (apiKey (obj instance)) = true /\
    (ref instance < allocated st)%nat.

(** [ERROR_MESSAGES[status] || `HTTP Error ${status}`] *)
Definition base_message (status : Z) : string :=
  default ("HTTP Error " +:+ pretty status) (ERROR_MESSAGES status).

(** ** String methods

    A character of the model is a UTF-16 code unit below 256, so a text
    is a JavaScript string of the Latin-1 range; texts with other
    characters are outside the model. The methods below are the JavaScript
    ones on such texts. *)

(** The characters that [toLowerCase] changes: the letters A to Z and the
    capital letters of the Latin-1 supplement, U+00C0 to U+00DE without the
    multiplication sign U+00D7. Each is lowered by 32. *)
Definition is_upper (c : ascii) : bool :=
  let n := Z.of_nat (nat_of_ascii c) in
  ((65 <=? n) && (n <=? 90))
  || ((192 <=? n) && (n <=? 222) && negb (n =? 215)).

Definition lower_char (c : ascii) : ascii :=
  if is_upper c then ascii_of_nat (nat_of_ascii c + 32) else c.

(** [s.toLowerCase()] *)
Fixpoint toLowerCase (s : string) : string :=
  match s with
  | EmptyString => EmptyString
  | String c rest => String (lower_char c) (toLowerCase rest)
  end.

(** White space at the end of a text is dropped from the last character
    backwards. *)
Fixpoint trim_end (s : string) : string :=
  match s with
  | EmptyString => EmptyString
  | String c rest =>
      match trim_end rest with
      | EmptyString => if is_whitespace c then EmptyString else String c EmptyString
      | kept => String c kept
      end
  end.

(** [s.trim()] *)
Definition trim (s : string) : string := trim_end (trim_start s).

(** [s.split(',')] *)
Fixpoint split_comma (s : string) : list string :=
  match s with
  | EmptyString => [EmptyString]
  | String c rest =>
      if Ascii.eqb c ","%char then EmptyString :: split_comma rest
      else
        match split_comma rest with
        | part :: parts => String c part :: parts
        | [] => [String c EmptyString]
        end
  end.

(** [parts.join(sep)] *)
Fixpoint join (sep : string) (parts : list string) : string :=
  match parts with
  | [] => EmptyString
  | [p] => p
  | p :: rest => p +:+ sep +:+ join sep rest
  end.

(** [list.includes(x)] for a list of texts. *)
Definition array_includes (l : list string) (x : string) : bool :=
  existsb (String.eqb x) l.

(** [s.includes(sub)] *)
Fixpoint string_includes (s sub : string) : bool :=
  String.prefix sub s ||
  match s with
  | EmptyString => false
  | String _ rest => string_includes rest sub
  end.

(** Whether a character occurs in a text. *)
Fixpoint has_char (c : ascii) (s : string) : bool :=
  match s with
  | EmptyString => false
  | String d rest => Ascii.eqb d c || has_char c rest
  end.

(** A text that does not start with white space. *)
Definition starts_clean (s : string) : Prop :=
  match s with
  | EmptyString => True
  | String c _ => is_whitespace c = false
  end.

(** ** The dialogue tool ([src/tools/sound-effects.ts], from line 126):
    audio tags *)

Definition AUDIO_TAGS : list string :=
  [ "happy"; "sad"; "angry"; "fearful"; "disgusted"; "surprised";
    "neutral"; "calm"; "excited"; "confident"; "worried";
    "whispers"; "shouts"; "laughs"; "giggles"; "sighs";
    "cries"; "screams"; "yawns"; "sniffs";
    "softly"; "loudly"; "quickly"; "slowly";
    "warmly"; "coldly"; "sarcastically"; "sincerely";
    "breathing"; "pause"; "emphasis" ].

(** The successive matches of [/\[([^\]]+)\]/g] in a text, as [exec] finds
    them from left to right: the captured group of each. A match starts at
    an opening bracket and runs to the first closing bracket after it, and
    needs at least one character in between. [opened] is the text read since
    the opening bracket when the scan is inside a candidate match. An
    opening bracket directly followed by a closing one matches nothing, and
    neither does an opening bracket that no closing bracket follows; in both
    cases no later start position inside the text read so far can match
    either. *)
Fixpoint tag_matches (opened : option string) (text : string) : list string :=
  match text with
  | EmptyString => []
  | String c rest =>
      match opened with
      | None =>
          if Ascii.eqb c "["%char then tag_matches (Some EmptyString) rest
          else tag_matches None rest
      | Some content =>
          if Ascii.eqb c "]"%char then
            match content with
            | EmptyString => tag_matches None rest
            | _ => content :: tag_matches None rest
            end
          else tag_matches (Some (content +:+ String c EmptyString)) rest
      end
  end.

Record TagValidation : Type := mkValidation {
  valid : bool;
  warnings : list string;
  tags : list string;
}.

Definition unknown_tag_warning (tag : string) : string :=
  "Unknown audio tag: [" +:+ tag
  +:+ "]. It may still work but is not officially documented.".

(** The body of the [for] loop of lines 177 to 182, on the two arrays. *)
Definition check_tag (acc : list string * list string) (tag : string)
  : list string * list string :=
  let '(warnings, foundTags) := acc in
  ((if array_includes AUDIO_TAGS tag then warnings
    else warnings ++ [unknown_tag_warning tag])%list,
   (foundTags ++ [tag])%list).

(** The body of the [while] loop of lines 173 to 183, for one match. *)
Definition check_match (acc : list string * list string) (tagContent : string)
  : list string * list string :=
  fold_left check_tag
            (List.map (fun t => toLowerCase (trim t)) (split_comma tagContent))
            acc.

(** [validateAudioTags(text)] *)
Definition validateAudioTags (text : string) : TagValidation :=
  let '(warnings, foundTags) :=
    fold_left check_match (tag_matches None text) ([], []) in
  {| valid := true; warnings := warnings; tags := foundTags |}.

Record MeditationSection : Type := mkSection {
  emotion : option string;
  section_text : string;
}.

Definition newline : string := String "010"%char EmptyString.

(** [formatMeditationText(sections)] *)
Definition formatMeditationText (sections : list MeditationSection) : string :=
  join (newline +:+ newline)
       (List.map
          (fun section =>
             match emotion section with
             | Some e =>
                 if truthy_string e then "[" +:+ e +:+ "] " +:+ section_text section
                 else section_text section
             | None => section_text section
             end)
          sections).

(** The tags that one section announces: those of its emotion. *)
Definition section_tags (section : MeditationSection) : list string :=
  match emotion section with
  | Some e =>
      if truthy_string e
      then List.map (fun t => toLowerCase (trim t)) (split_comma e)
      else []
  | None => []
  end.

(** The tags written in one match: [tagContent.split(',')] with each part
    trimmed and put in lower case. *)
Definition tags_of_match (tagContent : string) : list string :=
  List.map (fun t => toLowerCase (trim t)) (split_comma tagContent).

(** Whether a tag is absent from [AUDIO_TAGS]. *)
Definition undocumented (tag : string) : bool :=
  negb (array_includes AUDIO_TAGS tag).

(** The text one section is formatted to. *)
Definition format_section (section : MeditationSection) : string :=
  match emotion section with
  | Some e =>
      if truthy_string e then "[" +:+ e +:+ "] " +:+ section_text section
      else section_text section
  | None => section_text section
  end.

(** The bracketed text one section is formatted with, if any. *)
Definition section_match (section : MeditationSection) : list string :=
  match emotion section with
  | Some e => if truthy_string e then [e] else []
  | None => []
  end.

(** [MEDITATION_EXAMPLE] *)
Definition MEDITATION_EXAMPLE : string :=
  join (newline +:+ newline)
    [ "[softly, warmly] Welcome to this moment of peace and relaxation.";
      "[whispers] Close your eyes and let go of all tension.";
      "[calmly] Take a deep breath in... [pause] ...and slowly release.";
      "[sighs] Feel the weight of your body sinking into comfort.";
      "[softly] You are safe here. You are at peace.";
      "[whispers] Let each breath carry you deeper into relaxation." ].

(** ** File names *)

Definition is_alnum (c : ascii) : bool :=
  let n := Z.of_nat (nat_of_ascii c) in
  ((48 <=? n) && (n <=? 57)) || ((65 <=? n) && (n <=? 90))
  || ((97 <=? n) && (n <=? 122)).

(** [s.replace(/.../g, by)] for a pattern that matches single characters:
    every character that is not kept becomes [by]. *)
Fixpoint replace_chars (keep : ascii -> bool) (by_char : ascii) (s : string) : string :=
  match s with
  | EmptyString => EmptyString
  | String c rest =>
      String (if keep c then c else by_char) (replace_chars keep by_char rest)
  end.

(** Whether every character of a text passes a test. *)
Fixpoint all_chars (test : ascii -> bool) (s : string) : bool :=
  match s with
  | EmptyString => true
  | String c rest => test c && all_chars test rest
  end.

(** Line 70 of [sound-effects.ts]:
    [input.text.substring(0, 30).replace(/[^a-zA-Z0-9]/g, '_').toLowerCase()] *)
Definition shortDesc (text : string) : string :=
  toLowerCase (replace_chars is_alnum "_"%char (substring 0 30 text)).

(** A lower-case letter, a digit or an underscore. *)
Definition is_name_char (c : ascii) : bool :=
  let n := Z.of_nat (nat_of_ascii c) in
  ((48 <=? n) && (n <=? 57)) || ((97 <=? n) && (n <=? 122)) || (n =? 95).

(** [iso.replace(/[:.]/g, '-').slice(0, 19)], the stamp every tool puts in its
    default file name; [iso] is what [new Date().toISOString()] gave. *)
Definition timestamp (iso : string) : string :=
  substring 0 19
    (replace_chars (fun c => negb (Ascii.eqb c ":"%char || Ascii.eqb c "."%char))
                   "-"%char iso).

Definition DEFAULT_OUTPUT_FORMAT : string := "mp3_44100_128".

(** [value || fallback] for an optional text. *)
Definition text_or (value : option string) (fallback : string) : string :=
  match value with
  | Some s => if truthy_string s then s else fallback
  | None => fallback
  end.

(** ** [src/tools/voices.ts]: filtering the list of voices *)

Record VoiceLabels : Type := mkLabels {
  accent : option string;
  description : option string;
  age : option string;
  gender : option string;
  use_case : option string;
  language : option string;
}.

(** A voice, with the fields the tools read. *)
Record Voice : Type := mkVoice {
  voice_id : string;
  name : string;
  category : string;
  labels : VoiceLabels;
  preview_url : string;
}.

Record ListVoicesInput : Type := mkListInput {
  in_language : option string;
  in_gender : option string;
  in_category : option string;
  in_use_case : option string;
}.

Record ListVoicesResult : Type := mkListResult {
  voices : list Voice;
  total : nat;
  filtered : nat;
}.

(** [label?.toLowerCase().includes(sub)], falsy when the label is absent. *)
Definition label_includes (label : option string) (sub : string) : bool :=
  match label with
  | Some s => string_includes (toLowerCase s) sub
  | None => false
  end.

(** One of the four [if (input.x) { voices = voices.filter(...) }]. *)
Definition filter_if (value : option string) (test : string -> Voice -> bool)
           (vs : list Voice) : list Voice :=
  match value with
  | Some x => if truthy_string x then List.filter (test x) vs else vs
  | None => vs
  end.

Definition language_test (x : string) (v : Voice) : bool :=
  label_includes (language (labels v)) (toLowerCase x)
  || label_includes (accent (labels v)) (toLowerCase x).

Definition gender_test (x : string) (v : Voice) : bool :=
  match gender (labels v) with
  | Some g => String.eqb (toLowerCase g) (toLowerCase x)
  | None => false
  end.

Definition category_test (x : string) (v : Voice) : bool :=
  String.eqb (category v) x.

Definition use_case_test (x : string) (v : Voice) : bool :=
  label_includes (use_case (labels v)) (toLowerCase x)
  || label_includes (description (labels v)) (toLowerCase x).

(** Lines 30 to 63 of [listVoices]: what it makes of the voices of the
    response. *)
Definition listVoices_result (input : ListVoicesInput) (response_voices : list Voice)
  : ListVoicesResult :=
  let vs := response_voices in
  let vs := filter_if (in_language input) language_test vs in
  let vs := filter_if (in_gender input) gender_test vs in
  let vs := filter_if (in_category input) category_test vs in
  let vs := filter_if (in_use_case input) use_case_test vs in
  {| voices := vs; total := length response_voices; filtered := length vs |}.

(** Whether a filter lets a voice through: always, when it is not set. *)
Definition passes (value : option string) (test : string -> Voice -> bool)
           (v : Voice) : bool :=
  match value with
  | Some x => if truthy_string x then test x v else true
  | None => true
  end.

(** Whether a voice passes every filter of an input. *)
Definition passes_all (input : ListVoicesInput) (v : Voice) : bool :=
  passes (in_language input) language_test v
  && passes (in_gender input) gender_test v
  && passes (in_category input) category_test v
  && passes (in_use_case input) use_case_test v.

(** ** The tools that save audio: [generateMusic], [streamMusic] and
    [generateDialogue]

    The file system is part of the platform. Every operation a tool asks of
    it is recorded, in order, whether the platform carries it out or fails
    it: what a failed operation leaves on the disk is the platform's
    business. *)

Inductive FsOp : Type :=
| Mkdir (dir : string)
| WriteFile (path : string) (data : list Byte.byte).

(** What a tool acts on: the network and the disk. *)
Record Machine : Type := mkMachine {
  network : World;
  disk : list FsOp;
}.

Record MusicPreset : Type := mkMusicPreset {
  preset_prompt : string;
  preset_instrumental : bool;
  preset_duration_seconds : Z;
}.

(** [MUSIC_PRESETS] *)
Definition MUSIC_PRESETS (name : string) : option MusicPreset :=
  if String.eqb name "meditation_ambient" then
    Some (mkMusicPreset
            "Peaceful ambient meditation music with soft synthesizer pads, gentle nature sounds, slow harmonic progression, 60 BPM, deeply calming atmosphere"
            true 300)
  else if String.eqb name "sleep_therapy" then
    Some (mkMusicPreset
            "Ultra-slow ambient sleep music, barely audible drones, delta wave inducing frequencies, ethereal textures, minimal movement, 40 BPM or slower"
            true 300)
  else if String.eqb name "yoga_flow" then
    Some (mkMusicPreset
            "Flowing yoga music with indian instruments, tanpura drone, soft tabla rhythms, meditative sitar melodies, 80 BPM, peaceful and centered"
            true 240)
  else if String.eqb name "nature_sounds" then
    Some (mkMusicPreset
            "Natural soundscape with forest ambience, gentle stream water, soft bird calls, wind through leaves, no musical instruments, organic and peaceful"
            true 300)
  else if String.eqb name "therapeutic_background" then
    Some (mkMusicPreset
            "Soft therapeutic background music, gentle piano with subtle strings, slow tempo 55 BPM, warm and supportive, emotionally safe atmosphere"
            true 180)
  else None.

Record MusicInput : Type := mkMusicInput {
  mi_prompt : string;
  mi_duration_seconds : option Z;
  mi_instrumental : option bool;
  mi_preset : option string;
  mi_composition_plan : option JSON;
  mi_output_format : option string;
  mi_output_path : option string;
}.

(** What the music tools return. A field is [None] when the value the code
    puts there is [undefined]. *)
Record MusicResult : Type := mkMusicResult {
  music_file_path : string;
  music_prompt : option string;
  music_duration_seconds : option Z;
  music_instrumental : option bool;
  music_format : string;
}.

Record DialogueInput : Type := mkDialogueInput {
  di_text : string;
  di_voice_ids : list string;
  di_model_id : option string;
  di_voice_settings : option JSON;
  di_output_format : option string;
  di_output_path : option string;
}.

Record DialogueResult : Type := mkDialogueResult {
  dialogue_file_path : string;
  dialogue_voice_ids : list string;
  dialogue_model_id : string;
  character_count : nat;
  audio_tags_found : list string;
  dialogue_warnings : list string;
  dialogue_format : string;
}.

Definition API_ENDPOINTS_MUSIC : string := "/music".
Definition API_ENDPOINTS_MUSIC_STREAM : string := "/music/stream".
Definition API_ENDPOINTS_DIALOGUE : string := "/text-to-dialogue".
Definition TTS_MODELS_ELEVEN_V3 : string := "eleven_v3".

(** The names every object literal inherits from [Object.prototype]. What
    they name is a function, or for [__proto__] the prototype itself: a
    truthy value with no property [prompt], [duration_seconds] or
    [instrumental]. *)
Definition Object_prototype_names : list string :=
  ["constructor"; "__defineGetter__"; "__defineSetter__"; "hasOwnProperty";
   "__lookupGetter__"; "__lookupSetter__"; "isPrototypeOf";
   "propertyIsEnumerable"; "toString"; "valueOf"; "__proto__";
   "toLocaleString"].

(** What [input.preset && MUSIC_PRESETS[input.preset]] finds. *)
Inductive PresetLookup : Type :=
| OwnPreset (preset : MusicPreset)
| Inherited
| NoPreset.

Definition music_preset_of (input : MusicInput) : PresetLookup :=
  match mi_preset input with
  | Some name =>
      if truthy_string name then
        match MUSIC_PRESETS name with
        | Some preset => OwnPreset preset
        | None =>
            if array_includes Object_prototype_names name then Inherited
            else NoPreset
        end
      else NoPreset
  | None => NoPreset
  end.

(** Lines 291 to 300 of [generateMusic] (and 374 to 383 of [streamMusic]):
    the prompt, the duration and the instrumental flag, read from what the
    preset name finds when that is truthy and from the input otherwise.
    [None] is [undefined]. *)
Definition music_settings (input : MusicInput)
  : option string * option Z * option bool :=
  match music_preset_of input with
  | OwnPreset preset =>
      (Some (preset_prompt preset), Some (preset_duration_seconds preset),
       Some (preset_instrumental preset))
  | Inherited => (None, None, None)
  | NoPreset =>
      (Some (mi_prompt input), Some (default 60 (mi_duration_seconds input)),
       Some (default true (mi_instrumental input)))
  end.

(** A property of an object that is sent as JSON: one whose value is
    [undefined] is left out of the text. *)
Definition property (key : string) (value : option JSON) : list (string * JSON) :=
  match value with
  | Some v => [(key, v)]
  | None => []
  end.

(** The request body both music tools start with: [instrumental] is a
    property of it only when it is true. *)
Definition music_body_fields (prompt : option string) (durationSeconds : option Z)
           (instrumental : option bool) : list (string * JSON) :=
  (property "prompt" (JString <$> prompt)
   ++ property "duration_seconds" (JNumber <$> durationSeconds)
   ++ (if default false instrumental then property "instrumental" (JBool <$> instrumental)
       else []))%list.

(** [if (input.composition_plan) requestBody.composition_plan = ...] *)
Definition plan_field (plan : option JSON) : list (string * JSON) :=
  match plan with
  | Some p => if truthy p then [("composition_plan", p)] else []
  | None => []
  end.

(** [outputFormat.startsWith('mp3') ? 'mp3' : 'audio'] *)
Definition audio_extension (outputFormat : string) : string :=
  if String.prefix "mp3" outputFormat then "mp3" else "audio".

(** [Buffer.from(audioBuffer)]. [generateAudio] returns array buffers only;
    the other case is not reached. *)
Definition Buffer_from (audioBuffer : Payload) : list Byte.byte :=
  match audioBuffer with
  | PArrayBuffer bytes => bytes
  | PJson _ => []
  end.

Section AudioTools.

Variable utf8_decode : list Byte.byte -> string.
Variable JSON_parse : string -> ParseResult.
Variable JSON_stringify : JSON -> string.
Variable remote : nat -> FetchResult.

(** [path.join] and [path.dirname] of the platform. *)
Variable path_join : string -> string -> string.
Variable path_dirname : string -> string.

(** The fault, if any, of the file-system operation that is asked after a
    given number of earlier ones. *)
Variable fs_fault : nat -> option JsError.

(** One operation on the file system. *)
Definition fs_do (op : FsOp) (mc : Machine) : Outcome unit * Machine :=
  let mc' := mkMachine (network mc) (disk mc ++ [op]) in
  match fs_fault (length (disk mc)) with
  | Some e => (Throw e, mc')
  | None => (Value tt, mc')
  end.

(** The output path of a tool: the one given, when it is not empty, and
    otherwise a file named after the tool and the time in [OUTPUT_DIR]
    (or the current directory). [now] is the ISO text of the clock. *)
Definition output_path_of (env : gmap string string) (now : string)
           (given : option string) (prefix extension : string) : string :=
  let generated :=
    path_join (env_or env "OUTPUT_DIR" ".")
              (prefix +:+ timestamp now +:+ "." +:+ extension) in
  match given with
  | Some p => if truthy_string p then p else generated
  | None => generated
  end.

(** The steps that every tool of these files makes around its request, in
    the order of the source: [getClient()], [client.generateAudio(endpoint,
    requestBody)], [fs.mkdir] of the directory of the output path,
    [fs.writeFile] of the audio, and the result. An error of any step ends
    the tool. *)
Definition audio_tool {R : Type} (env : gmap string string) (endpoint : string)
           (requestBody : JSON) (outputPath : string) (result : R)
           (st : ModuleState) (mc : Machine)
  : option (Outcome R * ModuleState * Machine) :=
  match getClient env st with
  | (Throw e, st') => Some (Throw e, st', mc)
  | (Value client, st') =>
      match generateAudio utf8_decode JSON_parse JSON_stringify remote
                          (obj client) endpoint (Some requestBody) (network mc) with
      | None => None
      | Some (x, net') =>
          let mc1 := mkMachine net' (disk mc) in
          match observe x with
          | Throw e => Some (Throw e, st', mc1)
          | Value audioBuffer =>
              match fs_do (Mkdir (path_dirname outputPath)) mc1 with
              | (Throw e, mc2) => Some (Throw e, st', mc2)
              | (Value _, mc2) =>
                  match fs_do (WriteFile outputPath (Buffer_from audioBuffer)) mc2 with
                  | (Throw e, mc3) => Some (Throw e, st', mc3)
                  | (Value _, mc3) => Some (Value result, st', mc3)
                  end
              end
          end
      end
  end.

(** [generateMusic(input)] *)
Definition generateMusic (env : gmap string string) (now : string)
           (input : MusicInput)
  : ModuleState -> Machine -> option (Outcome MusicResult * ModuleState * Machine) :=
  let '(prompt, durationSeconds, instrumental) := music_settings input in
  let requestBody :=
    JObject (music_body_fields prompt durationSeconds instrumental
             ++ plan_field (mi_composition_plan input)) in
  let outputFormat := text_or (mi_output_format input) DEFAULT_OUTPUT_FORMAT in
  let endpoint := API_ENDPOINTS_MUSIC +:+ "?output_format=" +:+ outputFormat in
  let outputPath :=
    output_path_of env now (mi_output_path input) "music_"
                   (audio_extension outputFormat) in
  audio_tool env endpoint requestBody outputPath
             (mkMusicResult outputPath prompt durationSeconds instrumental
                            outputFormat).

(** [streamMusic(input)] *)
Definition streamMusic (env : gmap string string) (now : string)
           (input : MusicInput)
  : ModuleState -> Machine -> option (Outcome MusicResult * ModuleState * Machine) :=
  let '(prompt, durationSeconds, instrumental) := music_settings input in
  let requestBody := JObject (music_body_fields prompt durationSeconds instrumental) in
  let outputFormat := text_or (mi_output_format input) DEFAULT_OUTPUT_FORMAT in
  let endpoint := API_ENDPOINTS_MUSIC_STREAM +:+ "?output_format=" +:+ outputFormat in
  let outputPath :=
    output_path_of env now (mi_output_path input) "music_stream_"
                   (audio_extension outputFormat) in
  audio_tool env endpoint requestBody outputPath
             (mkMusicResult outputPath prompt durationSeconds instrumental
                            outputFormat).

(** [generateDialogue(input)] *)
Definition generateDialogue (env : gmap string string) (now : string)
           (input : DialogueInput)
  : ModuleState -> Machine -> option (Outcome DialogueResult * ModuleState * Machine) :=
  let tagValidation := validateAudioTags (di_text input) in
  let model_id := text_or (di_model_id input) TTS_MODELS_ELEVEN_V3 in
  let requestBody :=
    JObject ([("text", JString (di_text input));
              ("voice_ids", JArray (List.map JString (di_voice_ids input)));
              ("model_id", JString model_id)]
             ++ match di_voice_settings input with
                | Some settings =>
                    if truthy settings then [("voice_settings", settings)] else []
                | None => []
                end) in
  let outputFormat := text_or (di_output_format input) DEFAULT_OUTPUT_FORMAT in
  let endpoint := API_ENDPOINTS_DIALOGUE +:+ "?output_format=" +:+ outputFormat in
  let outputPath :=
    output_path_of env now (di_output_path input) "dialogue_"
                   (audio_extension outputFormat) in
  audio_tool env endpoint requestBody outputPath
             (mkDialogueResult outputPath (di_voice_ids input) model_id
                               (String.length (di_text input))
                               (tags tagValidation) (warnings tagValidation)
                               outputFormat).

(** *** Notions used to state the properties of the tools *)

(** How a tool that reaches the client, posts to [endpoint] and saves to
    [path] has ended, when it started with the operations [d] asked of the
    file system and no network call made.

    - Without a client it has thrown the error of [getClient] and done
      nothing else.
    - With a client it has run one [generateAudio] on [endpoint], and the
      network calls are those of that run. When the run threw, the tool
      threw the same error and asked nothing of the file system.
    - When the run returned, the last network call was answered by a
      response of the success range whose body arrived in full. The tool
      then asked for the directory of [path] to be made; if that failed it
      threw the fault and asked nothing more. Otherwise it asked for the
      bytes of that body to be written to [path]; if that failed it threw
      the fault, and if not it returned a result whose [file_path] is
      [path]. *)
Definition tool_ends {R : Type} (file_path : R -> string)
           (env : gmap string string) (st : ModuleState) (d : list FsOp)
           (endpoint path : string)
           (o : Outcome R) (st' : ModuleState) (mc' : Machine) : Prop :=
  match getClient env st with
  | (Throw e, st1) =>
      o = Throw e /\ st' = st1 /\ mc' = mkMachine empty_world d
  | (Value client, st1) =>
      st' = st1 /\
      exists requestBody x,
        generateAudio utf8_decode JSON_parse JSON_stringify remote (obj client)
                      endpoint (Some requestBody) empty_world
        = Some (x, network mc') /\
        match x with
        | Returned _ =>
            exists r bytes,
              remote (length (calls (network mc')) - 1) = Resolves r /\
              ok r = true /\
              body r = Complete bytes /\
              match fs_fault (length d) with
              | Some e =>
                  o = Throw e /\
                  disk mc' = (d ++ [Mkdir (path_dirname path)])%list
              | None =>
                  disk mc' = (d ++ [Mkdir (path_dirname path);
                                    WriteFile path bytes])%list /\
                  match fs_fault (S (length d)) with
                  | Some e => o = Throw e
                  | None => exists result, o = Value result /\ file_path result = path
                  end
              end
        | ThrownInLoop e | ThrownAfterLoop e =>
            o = Throw e /\ disk mc' = d
        end
  end.

End AudioTools.

(** ** Reading off the result of a sample run *)

Definition sample_sections : list MeditationSection :=
  [ mkSection (Some "Softly, Warmly") "Welcome.";
    mkSection None "Rest now.";
    mkSection (Some "") "Let go.";
    mkSection (Some "whispers") "Close your eyes." ].

Definition exit_of (run : option (Exit * World)) : Exit :=
  match run with
  | Some (x, _) => x
  | None => ThrownAfterLoop (new_Error "")
  end.

Definition world_of (run : option (Exit * World)) : World :=
  match run with
  | Some (_, w) => w
  | None => empty_world
  end.

Definition tool_world_of {A : Type} (run : option (A * ModuleState * World)) : World :=
  match run with
  | Some (_, _, w) => w
  | None => empty_world
  end.

Definition remote_down : nat -> FetchResult :=
  scripted [] (Rejects "ECONNREFUSED").

Definition remote_reset_then_voices : nat -> FetchResult :=
  scripted [Rejects "ECONNRESET"; Rejects "ECONNRESET"] (respond 200 voices_text).

(** A client that never retries. *)
Definition single_attempt_client : ElevenLabsClient :=
  constructor (mkConfig "sk_config" (Some (Num 0)) None).

Definition sample_history : list ModuleOp :=
  [OpGetClient env_empty_key; OpGetClient env_default; OpResetClient;
   OpGetClient env_tuned].

Definition run_retry : option (Exit * World) :=
  sample_request remote_429_then_audio sample_client "/text-to-speech/v1"
                 speech_options empty_world.

Definition run_500 : option (Exit * World) :=
  sample_request remote_always_500 sample_client "/voices" no_options empty_world.

Definition run_401 : option (Exit * World) :=
  sample_request remote_401 sample_client "/voices" no_options empty_world.

Definition run_down : option (Exit * World) :=
  sample_request remote_down sample_client "/voices" no_options empty_world.

Definition run_single : option (Exit * World) :=
  sample_request remote_always_500 single_attempt_client "/voices" no_options
                 empty_world.

(** A file system for the examples: paths are joined with a slash (a file
    joined to the current directory is the file), the directory of a path
    is what comes before its last slash, and no operation fails. *)
Definition sample_path_join (dir file : string) : string :=
  if String.eqb dir "." then file else dir +:+ "/" +:+ file.

Fixpoint before_last_slash (p : string) : option string :=
  match p with
  | EmptyString => None
  | String c rest =>
      match before_last_slash rest with
      | Some d => Some (String c d)
      | None => if Ascii.eqb c "/"%char then Some EmptyString else None
      end
  end.

Definition sample_path_dirname (p : string) : string :=
  default "." (before_last_slash p).

Definition fs_sound : nat -> option JsError := fun _ => None.

(** A disk that is full when the file is written. *)
Definition fs_full : nat -> option JsError :=
  fun i => if Nat.eqb i 1 then Some (new_Error "ENOSPC: no space left on device")
           else None.

Definition tool_outcome_of {A : Type} (run : option (Outcome A * ModuleState * Machine))
  : Outcome A :=
  match run with
  | Some (o, _, _) => o
  | None => Throw (new_Error "")
  end.

Definition tool_state_of {A : Type} (run : option (Outcome A * ModuleState * Machine))
  : ModuleState :=
  match run with
  | Some (_, st, _) => st
  | None => initial_module
  end.

Definition tool_machine_of {A : Type} (run : option (Outcome A * ModuleState * Machine))
  : Machine :=
  match run with
  | Some (_, _, mc) => mc
  | None => mkMachine empty_world []
  end.

Definition sample_now : string := "2026-03-14T09:26:53.589Z".
Definition sample_later : string := "2026-03-14T09:26:53.932Z".

Definition sample_music_input : MusicInput :=
  mkMusicInput "Thrash metal with screamed vocals" (Some 30) (Some false)
               (Some "sleep_therapy") None None None.

Definition vocals_input : MusicInput :=
  mkMusicInput "A folk song with a solo voice" None (Some false) None None None
               (Some "out/song.mp3").

Definition inherited_input : MusicInput :=
  mkMusicInput "A folk song with a solo voice" (Some 30) None (Some "toString")
               None None None.

Definition rain_input : MusicInput :=
  mkMusicInput "Rain on a tin roof" None None None None (Some "mp3_22050_32") None.

Definition tool_result_of {A : Type} (fallback : A)
           (run : option (Outcome A * ModuleState * Machine)) : A :=
  match tool_outcome_of run with
  | Value result => result
  | Throw _ => fallback
  end.

Definition no_music : MusicResult := mkMusicResult "" None None None "".

Definition sample_generateMusic (remote : nat -> FetchResult)
           (fs_fault : nat -> option JsError) :=
  generateMusic sample_utf8_decode sample_JSON_parse sample_JSON_stringify remote
                sample_path_join sample_path_dirname fs_fault.

(** The error a sample run ended with. *)
Definition thrown_of (run : option (Exit * World)) : JsError :=
  match run with
  | Some (ThrownInLoop e, _) => e
  | Some (ThrownAfterLoop e, _) => e
  | _ => new_Error ""
  end.

(** A 404 whose body is the JSON text [null]. *)
Definition remote_404_null : nat -> FetchResult :=
  scripted [] (respond 404 "null").

Definition run_404_null : option (Exit * World) :=
  sample_request remote_404_null sample_client "/voices/none" no_options
                 empty_world.

(** ** Responses whose body does not arrive *)

(** The sentence "if the remote side answers every attempt with status 500,
    [request] makes [maxRetries + 1] calls and then fails with an error
    that carries the status 500". *)
Definition exhausted_500_carries_status : Prop :=
  forall utf8_decode JSON_parse JSON_stringify remote this endpoint options
         m x w',
    maxRetries this = Num m ->
    0 <= m ->
    (forall i, exists b, remote i = Resolves (mkResponse 500 b)) ->
    request utf8_decode JSON_parse JSON_stringify remote this endpoint options
            empty_world = Some (x, w') ->
    Z.of_nat (length (calls w')) = m + 1 /\
    exists e, observe x = Throw e /\ err_status e = Some 500.

(** The sentence "a response with status 400 or 401 to the first call makes
    [request] fail at once with an error that carries that status, after
    exactly one call and without a sleep, however many retries remain". *)
Definition client_error_fails_at_once : Prop :=
  forall utf8_decode JSON_parse JSON_stringify remote this endpoint options
         m s b x w',
    maxRetries this = Num m ->
    0 <= m ->
    s = 400 \/ s = 401 ->
    remote 0%nat = Resolves (mkResponse s b) ->
    request utf8_decode JSON_parse JSON_stringify remote this endpoint options
            empty_world = Some (x, w') ->
    length (calls w') = 1%nat /\ slept w' = [] /\
    exists e, observe x = Throw e /\ err_status e = Some s.

(** Every answer is a 500 whose body breaks off while it is read. *)
Definition remote_500_cut : nat -> FetchResult :=
  scripted [] (Resolves (mkResponse 500 (Aborted "terminated"))).

(** A 400 whose body breaks off while it is read, then 200 with [{}]. *)
Definition remote_400_cut_then_json : nat -> FetchResult :=
  scripted [Resolves (mkResponse 400 (Aborted "terminated"))] (respond 200 "{}").

Definition run_500_cut : option (Exit * World) :=
  sample_request remote_500_cut sample_client "/voices" no_options empty_world.

Definition run_400_cut : option (Exit * World) :=
  sample_request remote_400_cut_then_json sample_client "/voices" no_options
                 empty_world.

(** * Properties *)

Example parseInt_default : parseInt "3" = Num 3.
Proof. reflexivity. Qed.

Example parseInt_prefix : parseInt "  -12px" = Num (-12).
Proof. reflexivity. Qed.

Example parseInt_no_digit : parseInt "three" = NaN.
Proof. reflexivity. Qed.

#[local] Arguments num_lt : simpl never.
#[local] Arguments num_le : simpl never.
#[local] Arguments num_add : simpl never.
#[local] Arguments num_mul : simpl never.
#[local] Arguments ok : simpl never.
#[local] Arguments backoff : simpl never.
#[local] Arguments getErrorMessage : simpl never.
#[local] Arguments number_to_string : simpl never.
#[local] Arguments request_init : simpl never.
#[local] Arguments request_url : simpl never.

Ltac unfold_iteration :=
  unfold iteration, try_catch, try_block, catch_block, fetch, text, arrayBuffer,
    response_json, mbind, M_bind, mret, M_ret, throw, sleep, console_error,
    truthy_status, new_Error in *.

Section Properties.

Variable utf8_decode : list Byte.byte -> string.
Variable JSON_parse : string -> ParseResult.
Variable JSON_stringify : JSON -> string.
Variable remote : nat -> FetchResult.

Variable this : ElevenLabsClient.
Variable endpoint : string.
Variable options : RequestOptions.

Local Abbreviation the_iteration :=
  (iteration utf8_decode JSON_parse JSON_stringify remote this endpoint options).
Local Abbreviation the_loop :=
  (attempt_loop utf8_decode JSON_parse JSON_stringify remote this endpoint options).
Local Abbreviation the_request :=
  (request utf8_decode JSON_parse JSON_stringify remote this endpoint options).
Local Abbreviation the_call :=
  (mkCall (request_url endpoint) (request_init JSON_stringify this options)).
Local Abbreviation the_retried :=
  (retried utf8_decode JSON_parse this (request_responseType options)).

(** ** One pass through the loop body *)

(** Every pass makes exactly one network call, the same one each time. *)
Lemma iteration_calls attempt w :
  calls (snd (the_iteration attempt w)) = (calls w ++ [the_call])%list.
Proof.
  unfold_iteration.
  destruct (remote (length (calls w))) as [reason | r]; simpl.
  - destruct (num_lt (Num attempt) (maxRetries this)); reflexivity.
  - destruct (ok r); simpl.
    + destruct (request_responseType options), (body r); simpl;
        try destruct (JSON_parse (utf8_decode bytes)); simpl;
        try destruct (num_lt (Num attempt) (maxRetries this)); reflexivity.
    + destruct (body r); simpl.
      * destruct (((status r =? 429) || (status r >=? 500))
                  && num_lt (Num attempt) (maxRetries this)) eqn:E; simpl;
          [reflexivity |].
        destruct (status r =? 0); simpl; [| reflexivity].
        destruct (num_lt (Num attempt) (maxRetries this)); reflexivity.
      * destruct (num_lt (Num attempt) (maxRetries this)); reflexivity.
Qed.

(** Case analysis on everything a pass through the loop body looks at. *)
Ltac iteration_cases attempt w :=
  unfold_iteration; unfold retried, decoded_payload;
  destruct (remote (length (calls w))) as [reason | r]; simpl;
  [ destruct (num_lt (Num attempt) (maxRetries this)) eqn:Hlt; simpl
  | destruct (body r) as [bytes | reason]; simpl;
    destruct (ok r) eqn:Hok; simpl;
    destruct (num_lt (Num attempt) (maxRetries this)) eqn:Hlt; simpl;
    try (destruct (request_responseType options); simpl);
    try (destruct (JSON_parse (utf8_decode bytes)); simpl);
    try (destruct (status r =? 429) eqn:H429; simpl);
    try (destruct (status r >=? 500) eqn:H500; simpl);
    try (destruct (status r =? 0) eqn:H0; simpl);
    try rewrite Hlt; simpl ].

(** A pass ends in [continue] only while retries remain, and only after
    sleeping for the backoff delay of that attempt. *)
Lemma iteration_continue attempt w e w' :
  the_iteration attempt w = (Value (SContinue e), w') ->
  num_lt (Num attempt) (maxRetries this) = true /\
  slept w' = (slept w ++ [backoff this attempt])%list.
Proof.
  iteration_cases attempt w; intros H; inversion H; subst; simpl; auto.
Qed.

(** A pass that does not end in [continue] does not sleep. *)
Lemma iteration_leave attempt w o w' :
  the_iteration attempt w = (o, w') ->
  (forall e, o <> Value (SContinue e)) ->
  slept w' = slept w.
Proof.
  iteration_cases attempt w; intros H Hne; inversion H; subst; simpl; auto;
    exfalso; eapply Hne; reflexivity.
Qed.

(** [retried] says exactly when a pass ends in [continue]. *)
Lemma iteration_retried attempt w :
  the_retried attempt (remote (length (calls w))) = true ->
  exists e line,
    the_iteration attempt w =
      (Value (SContinue e),
       mkWorld (calls w ++ [the_call]) (slept w ++ [backoff this attempt])
               (console w ++ [line])).
Proof.
  iteration_cases attempt w; intros H; try discriminate H; eauto.
Qed.

Lemma iteration_not_retried attempt w :
  the_retried attempt (remote (length (calls w))) = false ->
  forall e, fst (the_iteration attempt w) <> Value (SContinue e).
Proof.
  iteration_cases attempt w; intros H e; try discriminate H; simpl; discriminate.
Qed.

Lemma iteration_success attempt w resp v :
  remote (length (calls w)) = Resolves resp ->
  ok resp = true ->
  decoded_payload utf8_decode JSON_parse (request_responseType options) resp = Some v ->
  the_iteration attempt w =
    (Value (SReturn v), mkWorld (calls w ++ [the_call]) (slept w) (console w)).
Proof.
  intros Hremote Hok Hv. unfold_iteration. rewrite Hremote. simpl.
  rewrite Hok. simpl. unfold decoded_payload in Hv.
  destruct (request_responseType options), (body resp) as [bytes | reason];
    simpl; try discriminate Hv.
  - destruct (JSON_parse (utf8_decode bytes)); inversion Hv; reflexivity.
  - inversion Hv; reflexivity.
Qed.

Lemma iteration_status_error attempt w s bytes :
  remote (length (calls w)) = Resolves (mkResponse s (Complete bytes)) ->
  ok (mkResponse s (Complete bytes)) = false ->
  s <> 0 ->
  ((s =? 429) || (s >=? 500)) && num_lt (Num attempt) (maxRetries this) = false ->
  the_iteration attempt w =
    (Throw (formatted_error utf8_decode JSON_parse s bytes),
     mkWorld (calls w ++ [the_call]) (slept w) (console w)).
Proof.
  intros Hremote Hok Hs Hretry.
  unfold_iteration. rewrite Hremote. simpl. rewrite Hok. simpl.
  rewrite Hretry. simpl.
  destruct (s =? 0) eqn:H0; [apply Z.eqb_eq in H0; contradiction |].
  reflexivity.
Qed.

(** ** The loop *)

Lemma num_lt_le a b : num_lt a b = true -> num_le a b = true.
Proof.
  unfold num_lt, num_le. destruct a, b; try discriminate.
  intros H. apply Z.ltb_lt in H. apply Z.leb_le. lia.
Qed.

Lemma world_eta w : mkWorld (calls w) (slept w) (console w) = w.
Proof. destruct w; reflexivity. Qed.

Lemma attempt_loop_S fuel attempt lastError w :
  the_loop (S fuel) attempt lastError w =
  if num_le (Num attempt) (maxRetries this) then
    match the_iteration attempt w with
    | (Value (SReturn v), w') => Some (Returned v, w')
    | (Value (SContinue e), w') => the_loop fuel (attempt + 1) (Some e) w'
    | (Throw e, w') => Some (ThrownInLoop e, w')
    end
  else
    Some (ThrownAfterLoop
            (default (new_Error "Request failed after all retries") lastError),
          w).
Proof. reflexivity. Qed.

(** A run of [k] passes that all end in [continue]: [k] calls are made, and
    the [k] backoff delays are slept, in order. *)
Lemma loop_retried_prefix k :
  forall fuel attempt lastError w,
    (forall i, (i < k)%nat ->
               the_retried (attempt + Z.of_nat i)
                           (remote (length (calls w) + i)) = true) ->
    exists lastError' lines,
      the_loop (k + fuel) attempt lastError w =
      the_loop fuel (attempt + Z.of_nat k) lastError'
        (mkWorld (calls w ++ repeat the_call k)
                 (slept w ++ List.map (fun i => backoff this (attempt + Z.of_nat i))
                                      (seq 0 k))
                 (console w ++ lines)).
Proof.
  induction k as [| k IH]; intros fuel attempt lastError w Hretried.
  - exists lastError, []. simpl. rewrite !app_nil_r, world_eta.
    replace (attempt + Z.of_nat 0) with attempt by lia. reflexivity.
  - pose proof (Hretried 0%nat ltac:(lia)) as H0.
    replace (attempt + Z.of_nat 0) with attempt in H0 by lia.
    rewrite Nat.add_0_r in H0.
    assert (Hguard : num_le (Num attempt) (maxRetries this) = true).
    { apply num_lt_le. unfold retried in H0.
      apply andb_prop in H0. apply H0. }
    destruct (iteration_retried attempt w H0) as (e & line & Hiter).
    set (w1 := mkWorld (calls w ++ [the_call]) (slept w ++ [backoff this attempt])
                       (console w ++ [line])) in *.
    destruct (IH fuel (attempt + 1) (Some e) w1) as (le' & lines & Hloop).
    { intros i Hi. subst w1. simpl. rewrite length_app. simpl.
      replace (attempt + 1 + Z.of_nat i) with (attempt + Z.of_nat (S i)) by lia.
      replace (length (calls w) + 1 + i)%nat with (length (calls w) + S i)%nat by lia.
      apply Hretried. lia. }
    exists le', (line :: lines).
    change (S k + fuel)%nat with (S (k + fuel)).
    rewrite attempt_loop_S, Hguard, Hiter, Hloop. subst w1. simpl.
    rewrite <- !app_assoc. simpl.
    rewrite <- seq_shift, List.map_map.
    replace (attempt + Z.of_nat 0) with attempt by lia.
    replace (attempt + Z.of_nat (S k)) with (attempt + 1 + Z.of_nat k) by lia.
    assert (Hmap :
      List.map (fun i => backoff this (attempt + 1 + Z.of_nat i)) (seq 0 k) =
      List.map (fun i => backoff this (attempt + Z.of_nat (S i))) (seq 0 k)).
    { apply List.map_ext. intros i. f_equal. lia. }
    rewrite Hmap. reflexivity.
Qed.

Local Abbreviation the_error := (formatted_error utf8_decode JSON_parse).

Lemma loop_fuel_split m (k : nat) :
  maxRetries this = Num m -> Z.of_nat k <= m ->
  exists f, loop_fuel this = (k + S (S f))%nat.
Proof.
  intros Hm Hk. unfold loop_fuel. rewrite Hm.
  exists (Z.to_nat (m + 1) - k - 1)%nat. lia.
Qed.

Lemma retryable_retried m (i : nat) fr :
  maxRetries this = Num m -> Z.of_nat i < m ->
  responds_retryable fr ->
  the_retried (Z.of_nat i) fr = true.
Proof.
  intros Hm Hi (r & -> & Hs). unfold retried, num_lt, ok. rewrite Hm.
  apply andb_true_intro. split; [apply Z.ltb_lt; lia |].
  destruct (body r) as [bytes | reason]; [| reflexivity].
  destruct Hs as [-> | Hs]; [reflexivity |].
  replace (status r <=? 299) with false by (symmetry; apply Z.leb_gt; lia).
  rewrite andb_false_r.
  replace (status r >=? 500) with true by (symmetry; apply Z.geb_le; lia).
  rewrite orb_true_r. reflexivity.
Qed.





(** The closed form of the total delay. *)
Lemma sum_backoff_closed k d : sum_backoff k d = (2 ^ Z.of_nat k - 1) * d.
Proof.
  induction k as [| k IH]; [reflexivity |].
  cbn [sum_backoff]. rewrite IH.
  replace (Z.of_nat (S k)) with (Z.of_nat k + 1) by lia.
  rewrite Z.pow_add_r by lia. lia.
Qed.


(** [request] after [k] passes that all end in [continue]. *)
Lemma request_after_prefix m (k : nat) :
  maxRetries this = Num m ->
  Z.of_nat k <= m ->
  (forall i, (i < k)%nat -> the_retried (Z.of_nat i) (remote i) = true) ->
  exists f lastError lines,
    the_request empty_world =
    the_loop (S (S f)) (Z.of_nat k) lastError
             (mkWorld (repeat the_call k) (backoff_delays this k) lines) /\
    num_le (Num (Z.of_nat k)) (maxRetries this) = true /\
    loop_fuel this = (k + S (S f))%nat.
Proof.
  intros Hm Hk Hprefix.
  destruct (loop_fuel_split m k Hm Hk) as [f Hfuel].
  destruct (loop_retried_prefix k (S (S f)) 0 None empty_world)
    as (le' & lines & Hloop).
  { intros i Hi. simpl. apply Hprefix, Hi. }
  exists f, le', lines. unfold request. rewrite Hfuel, Hloop.
  cbn [empty_world calls slept console]. rewrite !app_nil_l.
  split; [reflexivity | split; [| reflexivity]].
  rewrite Hm. unfold num_le. apply Z.leb_le. lia.
Qed.

Lemma responds_500_retried m (i : nat) fr :
  maxRetries this = Num m -> Z.of_nat i < m ->
  responds_with 500 fr ->
  the_retried (Z.of_nat i) fr = true.
Proof.
  intros Hm Hi [bytes ->]. apply (retryable_retried m); [assumption .. |].
  eexists. split; [reflexivity | right; simpl; lia].
Qed.

Lemma iteration_aborted_last attempt w r reason :
  remote (length (calls w)) = Resolves r ->
  body r = Aborted reason ->
  num_lt (Num attempt) (maxRetries this) = false ->
  the_iteration attempt w =
    (Throw (network_error this reason),
     mkWorld (calls w ++ [the_call]) (slept w) (console w)).
Proof.
  intros Hremote Hbody Hlt. unfold_iteration. rewrite Hremote. simpl.
  destruct (ok r); simpl.
  - destruct (request_responseType options); simpl; rewrite Hbody; simpl;
      rewrite Hlt; reflexivity.
  - rewrite Hbody. simpl. rewrite Hlt. reflexivity.
Qed.

(** C3. If the remote side answers every call with status 500, [request]
    makes exactly [maxRetries + 1] calls, sleeping for the backoff delay
    after each of the first [maxRetries], and then throws from inside the
    loop. Nothing is returned, and the last call in the log is the one of
    the last attempt. What is thrown depends on the body of the last
    answer. When it arrives in full, the error is the one formatted for
    that answer, and its [status] is 500. When it breaks off while it is
    read, the failure is taken for a network error: the error thrown is the
    one of line 115, which has no [status]. Either error is the terminal
    one: it leaves [request] instead of being kept in [lastError] for
    another pass. *)
Theorem request_exhausts_retries_on_500 m :
  maxRetries this = Num m ->
  0 <= m ->
  (forall i, (i <= Z.to_nat m)%nat ->
             exists b, remote i = Resolves (mkResponse 500 b)) ->
  exists b e w',
    remote (Z.to_nat m) = Resolves (mkResponse 500 b) /\
    request utf8_decode JSON_parse JSON_stringify remote this endpoint options
    empty_world = Some (ThrownInLoop e, w') /\
    calls w' = repeat the_call (S (Z.to_nat m)) /\
    Z.of_nat (length (calls w')) = m + 1 /\
    slept w' = backoff_delays this (Z.to_nat m) /\
    match b with
    | Complete bytes =>
        e = formatted_error utf8_decode JSON_parse 500 bytes /\
        err_status e = Some 500
    | Aborted reason =>
        e = network_error this reason /\ err_status e = None
    end.
Proof.
  intros Hm Hpos Hall.
  destruct (request_after_prefix m (Z.to_nat m) Hm ltac:(lia))
    as (f & le & lines & Hreq & Hguard & _).
  { intros i Hi. apply (retryable_retried m); [assumption | lia |].
    destruct (Hall i ltac:(lia)) as [b Hb].
    eexists. split; [exact Hb | right; simpl; lia]. }
  destruct (Hall (Z.to_nat m) ltac:(lia)) as [b Hlast].
  assert (Hlt : num_lt (Num (Z.of_nat (Z.to_nat m))) (maxRetries this) = false).
  { rewrite Hm. unfold num_lt. rewrite Z2Nat.id by lia. apply Z.ltb_irrefl. }
  assert (Hlen : Z.of_nat (length (repeat the_call (S (Z.to_nat m)))) = m + 1).
  { rewrite repeat_length. lia. }
  exists b. rewrite Hreq, attempt_loop_S, Hguard.
  destruct b as [bytes | reason].
  - erewrite iteration_status_error.
    + eexists. eexists. split; [exact Hlast |]. split; [reflexivity |].
      simpl. rewrite <- repeat_cons. repeat split. exact Hlen.
    + simpl. rewrite repeat_length. exact Hlast.
    + reflexivity.
    + lia.
    + rewrite Hlt. apply andb_false_r.
  - erewrite iteration_aborted_last.
    + eexists. eexists. split; [exact Hlast |]. split; [reflexivity |].
      simpl. rewrite <- repeat_cons. repeat split. exact Hlen.
    + simpl. rewrite repeat_length. exact Hlast.
    + reflexivity.
    + exact Hlt.
Qed.

Lemma request_fails_on_terminal_status m (k : nat) s bytes :
  maxRetries this = Num m ->
  Z.of_nat k <= m ->
  (forall i, (i < k)%nat -> the_retried (Z.of_nat i) (remote i) = true) ->
  remote k = Resolves (mkResponse s (Complete bytes)) ->
  ok (mkResponse s (Complete bytes)) = false ->
  s <> 0 -> s <> 429 -> s < 500 ->
  exists w',
    the_request empty_world = Some (ThrownInLoop (the_error s bytes), w') /\
    calls w' = repeat the_call (S k) /\
    slept w' = backoff_delays this k.
Proof.
  intros Hm Hk Hprefix Hremote Hok H0 H429 H500.
  destruct (request_after_prefix m k Hm Hk Hprefix)
    as (f & le & lines & Hreq & Hguard & _).
  rewrite Hreq, attempt_loop_S, Hguard.
  erewrite iteration_status_error; try eassumption.
  - eexists. split; [reflexivity |]. simpl.
    rewrite <- repeat_cons. split; reflexivity.
  - simpl. rewrite repeat_length. exact Hremote.
  - replace (s =? 429) with false by (symmetry; apply Z.eqb_neq; exact H429).
    replace (s >=? 500) with false
      by (symmetry; rewrite Z.geb_leb; apply Z.leb_gt; lia).
    reflexivity.
Qed.


(** C8. With the response type [arraybuffer], a response of the success
    range whose body is the byte sequence [bytes] makes [request] return
    exactly [bytes], at whatever attempt the response arrives. The result
    does not depend on the text decoder or on [JSON.parse], which are
    arbitrary here: neither is applied to the body. *)
Theorem request_arraybuffer_passthrough m (k : nat) resp bytes :
  opt_responseType options = Some arraybuffer ->
  maxRetries this = Num m ->
  Z.of_nat k <= m ->
  (forall i, (i < k)%nat -> the_retried (Z.of_nat i) (remote i) = true) ->
  remote k = Resolves resp ->
  ok resp = true ->
  body resp = Complete bytes ->
  exists w',
    request utf8_decode JSON_parse JSON_stringify remote this endpoint options
    empty_world = Some (Returned (PArrayBuffer bytes), w') /\
    calls w' = repeat the_call (S k) /\
    slept w' = backoff_delays this k.
Proof.
  intros Hrt Hm Hk Hprefix Hremote Hok Hbody.
  destruct (request_after_prefix m k Hm Hk Hprefix)
    as (f & le & lines & Hreq & Hguard & _).
  rewrite Hreq, attempt_loop_S, Hguard.
  erewrite iteration_success; try eassumption.
  - eexists. split; [reflexivity |]. simpl.
    rewrite <- repeat_cons. split; reflexivity.
  - simpl. rewrite repeat_length. exact Hremote.
  - unfold decoded_payload, request_responseType. rewrite Hrt, Hbody. reflexivity.
Qed.

(** ** Leaving the loop *)

(** While the attempt number is at most [maxRetries] and the loop condition
    can still be evaluated often enough, the loop ends by a [return] or a
    [throw] of its own body. *)
Lemma loop_stays_in_loop m :
  maxRetries this = Num m ->
  forall fuel attempt lastError w,
    attempt <= m ->
    (Z.to_nat (m - attempt) < fuel)%nat ->
    exists x w',
      the_loop fuel attempt lastError w = Some (x, w') /\
      forall e, x <> ThrownAfterLoop e.
Proof.
  intros Hm. induction fuel as [| fuel IH]; intros attempt lastError w Hle Hfuel;
    [lia |].
  rewrite attempt_loop_S.
  replace (num_le (Num attempt) (maxRetries this)) with true
    by (rewrite Hm; symmetry; apply Z.leb_le; exact Hle).
  destruct (the_iteration attempt w) as [o w1] eqn:Hiter.
  destruct o as [[v | e] | e].
  - exists (Returned v), w1. split; [reflexivity | discriminate].
  - apply iteration_continue in Hiter. destruct Hiter as [Hlt _].
    rewrite Hm in Hlt. apply Z.ltb_lt in Hlt.
    apply IH; lia.
  - exists (ThrownInLoop e), w1. split; [reflexivity | discriminate].
Qed.

Lemma loop_fuel_S : exists f, loop_fuel this = S f.
Proof. unfold loop_fuel. destruct (maxRetries this); eauto. Qed.

(** Without the precondition the loop body never runs: no call is made and
    the fallback error of line 119 is thrown. *)
Lemma request_fallback_without_attempts w :
  num_le (Num 0) (maxRetries this) = false ->
  the_request w =
    Some (ThrownAfterLoop (new_Error "Request failed after all retries"), w).
Proof.
  intros Hguard. unfold request. destruct loop_fuel_S as [f ->].
  rewrite attempt_loop_S, Hguard. reflexivity.
Qed.

(** [request] always ends, whatever the configuration. *)
Lemma request_total w : exists x w', the_request w = Some (x, w').
Proof.
  destruct (num_le (Num 0) (maxRetries this)) eqn:Hguard.
  - destruct (maxRetries this) as [| m] eqn:Hm; [discriminate |].
    apply Z.leb_le in Hguard.
    destruct (loop_stays_in_loop m Hm (S (Z.to_nat (m + 1))) 0 None w)
      as (x & w' & H & _); [lia | lia |].
    exists x, w'. unfold request, loop_fuel. rewrite Hm. exact H.
  - rewrite request_fallback_without_attempts by exact Hguard. eauto.
Qed.

(** C10. When [maxRetries] is at least 0, the pass for the attempt numbered
    [maxRetries] never ends in [continue], and every execution of
    [request] ends with a [return] or with a [throw] made inside the loop:
    the [throw] that follows the loop is not reached. *)
Theorem request_never_reaches_fallback m w :
  maxRetries this = Num m ->
  0 <= m ->
  (forall w0 e w1, iteration utf8_decode JSON_parse JSON_stringify remote this endpoint options
     m w0 <> (Value (SContinue e), w1)) /\
  exists x w',
    request utf8_decode JSON_parse JSON_stringify remote this endpoint options w = Some (x, w') /\
    forall e, x <> ThrownAfterLoop e.
Proof.
  intros Hm Hpos. split.
  - intros w0 e w1 Hiter. apply iteration_continue in Hiter.
    destruct Hiter as [Hlt _]. rewrite Hm in Hlt.
    apply Z.ltb_lt in Hlt. lia.
  - unfold request, loop_fuel. rewrite Hm.
    apply (loop_stays_in_loop m Hm); lia.
Qed.

(** ** The log of calls and of sleeps *)

Lemma iteration_slept attempt w :
  exists ss, slept (snd (the_iteration attempt w)) = (slept w ++ ss)%list.
Proof.
  destruct (the_iteration attempt w) as [o w1] eqn:Hiter. simpl.
  destruct o as [[v | e] | e].
  - exists []. rewrite app_nil_r. eapply iteration_leave; [exact Hiter | discriminate].
  - exists [backoff this attempt]. eapply iteration_continue, Hiter.
  - exists []. rewrite app_nil_r. eapply iteration_leave; [exact Hiter | discriminate].
Qed.

(** The loop only appends to the logs; every call it makes is the same
    call, and it makes at least one when its condition holds. *)
Lemma loop_extends fuel :
  forall attempt lastError w x w',
    the_loop fuel attempt lastError w = Some (x, w') ->
    exists n ss,
      calls w' = (calls w ++ repeat the_call n)%list /\
      slept w' = (slept w ++ ss)%list /\
      (num_le (Num attempt) (maxRetries this) = true -> (1 <= n)%nat).
Proof.
  induction fuel as [| fuel IH]; intros attempt lastError w x w' Hloop;
    [discriminate |].
  rewrite attempt_loop_S in Hloop.
  destruct (num_le (Num attempt) (maxRetries this)) eqn:Hguard.
  - pose proof (iteration_calls attempt w) as Hcalls.
    destruct (iteration_slept attempt w) as [ss1 Hslept].
    destruct (the_iteration attempt w) as [o w1]. simpl in Hcalls, Hslept.
    destruct o as [[v | e] | e].
    + inversion Hloop; subst. exists 1%nat, ss1. simpl. auto.
    + apply IH in Hloop. destruct Hloop as (n & ss & Hc & Hs & _).
      exists (S n), (ss1 ++ ss)%list. rewrite Hc, Hs, Hcalls, Hslept.
      rewrite <- !app_assoc. simpl. repeat split. lia.
    + inversion Hloop; subst. exists 1%nat, ss1. simpl. auto.
  - inversion Hloop; subst. exists 0%nat, []. simpl.
    rewrite !app_nil_r. repeat split. discriminate.
Qed.

(** Every call [request] makes carries the header object built before the
    loop. *)
Lemma request_calls x w' :
  the_request empty_world = Some (x, w') ->
  Forall (fun c => init_headers (call_init c) = requestHeaders this options)
         (calls w').
Proof.
  intros Hreq. apply loop_extends in Hreq.
  destruct Hreq as (n & ss & Hc & _). rewrite Hc. simpl.
  apply List.Forall_forall. intros c Hin. apply repeat_spec in Hin. subst c.
  reflexivity.
Qed.

(** C5. A response with status 400 or 401 to the first call, whose body
    arrives in full, makes [request] throw the error formatted for that
    response, which carries that status, after exactly one call and without
    any sleep, whatever [maxRetries] is. More generally a response outside
    the success range whose body arrives in full and whose status is
    neither 429 nor 500 or more (and is a real status, not 0) is never
    retried: at whatever attempt it arrives, [request] throws its error at
    once, with no call and no sleep after it. A response whose body breaks
    off while it is read is another matter: whatever its status, the
    failure is taken for a network error and the pass is retried whenever
    an attempt remains; so when retries are configured and the first answer
    is such a response, [request] sleeps for the first backoff delay and
    makes a second call. *)
Theorem request_does_not_retry_client_errors m :
  maxRetries this = Num m ->
  0 <= m ->
  (forall s bytes,
      s = 400 \/ s = 401 ->
      remote 0%nat = Resolves (mkResponse s (Complete bytes)) ->
      exists w',
        request utf8_decode JSON_parse JSON_stringify remote this endpoint options
    empty_world = Some (ThrownInLoop (the_error s bytes), w') /\
        err_status (the_error s bytes) = Some s /\
        calls w' = [the_call] /\
        slept w' = []) /\
  (forall (k : nat) s bytes,
      Z.of_nat k <= m ->
      (forall i, (i < k)%nat -> the_retried (Z.of_nat i) (remote i) = true) ->
      remote k = Resolves (mkResponse s (Complete bytes)) ->
      ok (mkResponse s (Complete bytes)) = false ->
      s <> 0 -> s <> 429 -> s < 500 ->
      exists w',
        request utf8_decode JSON_parse JSON_stringify remote this endpoint options
    empty_world = Some (ThrownInLoop (the_error s bytes), w') /\
        calls w' = repeat the_call (S k) /\
        slept w' = backoff_delays this k) /\
  (forall attempt s bytes,
      ok (mkResponse s (Complete bytes)) = false ->
      s <> 0 -> s <> 429 -> s < 500 ->
      the_retried attempt (Resolves (mkResponse s (Complete bytes))) = false) /\
  (forall attempt s reason,
      retried utf8_decode JSON_parse this (request_responseType options) attempt
              (Resolves (mkResponse s (Aborted reason)))
      = num_lt (Num attempt) (maxRetries this)) /\
  (forall s reason,
      0 < m ->
      remote 0%nat = Resolves (mkResponse s (Aborted reason)) ->
      exists x w' n ss,
        request utf8_decode JSON_parse JSON_stringify remote this endpoint options
    empty_world = Some (x, w') /\
        calls w' = the_call :: the_call :: repeat the_call n /\
        slept w' = backoff this 0 :: ss).
Proof.
  intros Hm Hpos. split; [| split; [| split; [| split]]].
  - intros s bytes Hs Hremote.
    destruct (request_fails_on_terminal_status m 0 s bytes) as (w' & Hreq & Hc & Hs');
      try assumption; try lia.
    + destruct Hs as [-> | ->]; reflexivity.
    + exists w'. repeat split; assumption.
  - intros k s bytes. apply request_fails_on_terminal_status. exact Hm.
  - intros attempt s bytes Hok H0 H429 H500. unfold retried. simpl.
    rewrite Hok.
    replace (s =? 429) with false by (symmetry; apply Z.eqb_neq; exact H429).
    replace (s >=? 500) with false
      by (symmetry; rewrite Z.geb_leb; apply Z.leb_gt; lia).
    replace (s =? 0) with false by (symmetry; apply Z.eqb_neq; exact H0).
    apply andb_false_r.
  - intros attempt s reason. unfold retried. simpl. apply andb_true_r.
  - intros s reason Hretries Hremote.
    destruct (request_after_prefix m 1 Hm ltac:(lia))
      as (f & le & lines & Hreq & Hguard & Hfuel).
    { intros i Hi. replace i with 0%nat by lia. rewrite Hremote.
      unfold retried. rewrite Hm. unfold num_lt. simpl.
      rewrite andb_true_r. apply Z.ltb_lt. exact Hretries. }
    unfold loop_fuel in Hfuel. rewrite Hm in Hfuel.
    destruct (loop_stays_in_loop m Hm (S (S f)) (Z.of_nat 1) le
                (mkWorld (repeat the_call 1) (backoff_delays this 1) lines))
      as (x & w' & Hloop & _); [lia | lia |].
    pose proof (loop_extends _ _ _ _ _ _ Hloop) as (n & ss & Hc & Hs & Hn).
    specialize (Hn Hguard). destruct n as [| n]; [lia |].
    exists x, w', n, ss. rewrite Hreq. split; [exact Hloop |].
    rewrite Hc, Hs. split; reflexivity.
Qed.

(** C1. The loop retries a decode failure. When retries are configured,
    the response type is [json] and the first call is answered by a
    response of the success range whose body [JSON.parse] rejects, the
    failure does not leave [request]: the loop sleeps for the first backoff
    delay and makes a second call. *)
Theorem request_retries_decode_failure m resp bytes msg :
  maxRetries this = Num m ->
  0 < m ->
  request_responseType options = json ->
  remote 0%nat = Resolves resp ->
  ok resp = true ->
  body resp = Complete bytes ->
  JSON_parse (utf8_decode bytes) = SyntaxError msg ->
  exists x w' n ss,
    request utf8_decode JSON_parse JSON_stringify remote this endpoint options
    empty_world = Some (x, w') /\
    calls w' = the_call :: the_call :: repeat the_call n /\
    slept w' = backoff this 0 :: ss.
Proof.
  intros Hm Hpos Hrt Hremote Hok Hbody Hparse.
  destruct (request_after_prefix m 1 Hm ltac:(lia))
    as (f & le & lines & Hreq & Hguard & Hfuel).
  { intros i Hi. replace i with 0%nat by lia. rewrite Hremote.
    unfold retried. rewrite Hm, Hbody, Hok, Hrt, Hparse.
    unfold num_lt. simpl. rewrite andb_true_r. apply Z.ltb_lt. exact Hpos. }
  unfold loop_fuel in Hfuel. rewrite Hm in Hfuel.
  destruct (loop_stays_in_loop m Hm (S (S f)) (Z.of_nat 1) le
              (mkWorld (repeat the_call 1) (backoff_delays this 1) lines))
    as (x & w' & Hloop & _); [lia | lia |].
  pose proof (loop_extends _ _ _ _ _ _ Hloop) as (n & ss & Hc & Hs & Hn).
  specialize (Hn Hguard). destruct n as [| n]; [lia |].
  exists x, w', n, ss. rewrite Hreq. split; [exact Hloop |].
  rewrite Hc, Hs. split; reflexivity.
Qed.

(** ** The header object *)

Lemma requestHeaders_other key :
  key <> "Content-Type" ->
  requestHeaders this options !! key =
  (default ∅ (opt_headers options) ∪ {[ "xi-api-key" := apiKey this ]}) !! key.
Proof.
  intros Hkey. unfold requestHeaders.
  destruct (truthy_opt (opt_body options) && _); [| reflexivity].
  apply lookup_insert_ne. congruence.
Qed.

Lemma spread_content_type :
  (default ∅ (opt_headers options) ∪ {[ "xi-api-key" := apiKey this ]})
    !! "Content-Type" = default ∅ (opt_headers options) !! "Content-Type".
Proof. apply lookup_union_l. apply lookup_singleton_ne. discriminate. Qed.

(** C4, as the code has it. In every call [request] makes, the
    [xi-api-key] header is the credential of the configuration when the
    header map of the caller has no [xi-api-key] entry, and it is the
    caller's entry when there is one: the caller's headers are spread over
    the default. *)
Theorem request_auth_header x w' :
  request utf8_decode JSON_parse JSON_stringify remote this endpoint options
    empty_world = Some (x, w') ->
  (default ∅ (opt_headers options) !! "xi-api-key" = None ->
   Forall (fun c => init_headers (call_init c) !! "xi-api-key" = Some (apiKey this))
          (calls w')) /\
  (forall v, default ∅ (opt_headers options) !! "xi-api-key" = Some v ->
   Forall (fun c => init_headers (call_init c) !! "xi-api-key" = Some v)
          (calls w')).
Proof.
  intros Hreq. apply request_calls in Hreq. split.
  - intros Hnone. eapply Forall_impl; [exact Hreq |]. intros c ->.
    rewrite requestHeaders_other by discriminate.
    rewrite lookup_union_r by exact Hnone. apply lookup_singleton_eq.
  - intros v Hsome. eapply Forall_impl; [exact Hreq |]. intros c ->.
    rewrite requestHeaders_other by discriminate.
    apply lookup_union_Some_l, Hsome.
Qed.

(** C6, as the code has it. In every call [request] makes: a non-empty
    [Content-Type] supplied by the caller is sent as supplied; when the
    body is truthy (the condition under which a body is sent) and the
    caller supplied no [Content-Type] or an empty one, the header sent is
    [application/json]; and when the body is absent or falsy nothing is
    added, the header is what the caller supplied, if anything. *)
Theorem request_content_type x w' :
  request utf8_decode JSON_parse JSON_stringify remote this endpoint options
    empty_world = Some (x, w') ->
  Forall
    (fun c =>
       let sent := init_headers (call_init c) in
       let supplied := default ∅ (opt_headers options) !! "Content-Type" in
       (forall v, supplied = Some v -> v <> "" -> sent !! "Content-Type" = Some v) /\
       (truthy_opt (opt_body options) = true ->
        truthy_header supplied = false ->
        sent !! "Content-Type" = Some "application/json") /\
       (truthy_opt (opt_body options) = false ->
        sent !! "Content-Type" = supplied))
    (calls w').
Proof.
  intros Hreq. apply request_calls in Hreq.
  eapply Forall_impl; [exact Hreq |]. intros c ->. cbv zeta.
  unfold requestHeaders. rewrite spread_content_type.
  destruct (truthy_opt (opt_body options)) eqn:Hbody; simpl.
  - destruct (default ∅ (opt_headers options) !! "Content-Type") as [v |] eqn:Hct;
      simpl.
    + destruct v as [| a v]; simpl.
      * repeat split; try discriminate; try congruence.
        intros _ _. apply lookup_insert_eq.
      * rewrite spread_content_type, Hct. repeat split; try discriminate.
        intros v' Hv' _. exact Hv'.
    + repeat split; try discriminate.
      intros _ _. apply lookup_insert_eq.
  - rewrite spread_content_type. repeat split; try discriminate.
    intros v Hv _. exact Hv.
Qed.

End Properties.

(** ** The singleton *)

(** An access that finds an instance returns it and changes nothing, whatever
    the environment is by then. *)
Lemma getClient_existing env st instance :
  clientInstance st = Some instance ->
  getClient env st = (Value instance, st).
Proof. intros H. unfold getClient. rewrite H. reflexivity. Qed.

Lemma getClient_each_existing envs st instance :
  clientInstance st = Some instance ->
  getClient_each envs st = (repeat (Value instance) (length envs), st).
Proof.
  intros H. induction envs as [| env envs IH]; [reflexivity |].
  cbn [getClient_each]. rewrite (getClient_existing env st instance H), IH.
  reflexivity.
Qed.

Lemma getClient_constructs env key st :
  clientInstance st = None ->
  env !! "ELEVENLABS_API_KEY" = Some key ->
  truthy_string key = true ->
  getClient env st =
    (Value (mkInstance (allocated st) (client_of_env env key)),
     mkModule (S (allocated st))
              (Some (mkInstance (allocated st) (client_of_env env key)))).
Proof.
  intros Hnone Hkey Htruthy. unfold getClient. rewrite Hnone, Hkey, Htruthy.
  reflexivity.
Qed.

Section SingletonProperties.

Variable utf8_decode : list Byte.byte -> string.
Variable JSON_parse : string -> ParseResult.
Variable JSON_stringify : JSON -> string.
Variable remote : nat -> FetchResult.

(** C7. When no instance exists yet, [getClient] throws the configuration
    error exactly when the credential of the environment is absent or
    empty. The check is made by [getClient] itself, where the instance
    would be constructed: on failure no instance is stored, and a tool that
    reaches the client through [getClient] ends with that error without
    having made any network call. *)
Theorem getClient_requires_credential env st :
  clientInstance st = None ->
  (fst (getClient env st) = Throw ConfigurationError <->
   env !! "ELEVENLABS_API_KEY" = None \/ env !! "ELEVENLABS_API_KEY" = Some "") /\
  (forall e, fst (getClient env st) = Throw e ->
             e = ConfigurationError /\ snd (getClient env st) = st) /\
  (env !! "ELEVENLABS_API_KEY" = None \/ env !! "ELEVENLABS_API_KEY" = Some "" ->
   forall voice_id w,
     getVoice utf8_decode JSON_parse JSON_stringify remote env voice_id st w =
     Some (Throw ConfigurationError, st, w)).
Proof.
  intros Hnone.
  assert (Hfail :
    env !! "ELEVENLABS_API_KEY" = None \/ env !! "ELEVENLABS_API_KEY" = Some "" ->
    getClient env st = (Throw ConfigurationError, st)).
  { intros [H | H]; unfold getClient; rewrite Hnone, H; reflexivity. }
  split; [split | split].
  - unfold getClient. rewrite Hnone.
    destruct (env !! "ELEVENLABS_API_KEY") as [key |]; [| auto].
    destruct key as [| a key]; [auto |]. simpl. discriminate.
  - intros H. rewrite (Hfail H). reflexivity.
  - unfold getClient. rewrite Hnone.
    destruct (env !! "ELEVENLABS_API_KEY") as [key |];
      [destruct (truthy_string key) |]; simpl; intros e He;
      inversion He; auto.
  - intros H voice_id w. unfold getVoice. rewrite (Hfail H). reflexivity.
Qed.

End SingletonProperties.

Lemma client_of_env_fields env key :
  apiKey (client_of_env env key) = key /\
  maxRetries (client_of_env env key) =
    match env !! "MAX_RETRIES" with
    | Some s => if truthy_string s then parseInt s else Num 3
    | None => Num 3
    end /\
  retryDelayMs (client_of_env env key) =
    match env !! "RETRY_DELAY_MS" with
    | Some s => if truthy_string s then parseInt s else Num 1000
    | None => Num 1000
    end.
Proof.
  unfold client_of_env, env_or. simpl.
  destruct (env !! "MAX_RETRIES") as [s1 |];
    [destruct (truthy_string s1) |];
    (destruct (env !! "RETRY_DELAY_MS") as [s2 |];
     [destruct (truthy_string s2) |]); repeat split.
Qed.

(** C9. Starting without an instance and with a credential in the
    environment: the first access constructs the instance from that
    environment and stores it; every later access returns that same instance
    and leaves the module state alone, whatever the environment has become;
    so do any number of accesses made in a row, the first one included;
    and after [resetClient] the next access constructs an instance with a new
    identity from the environment of that moment. An instance constructed
    from an environment has its credential as [apiKey]; its [maxRetries] is
    [parseInt] of [MAX_RETRIES] when that is set and not empty, and 3
    otherwise; its [retryDelayMs] is [parseInt] of [RETRY_DELAY_MS] when that
    is set and not empty, and 1000 otherwise. *)
Theorem getClient_singleton env key st :
  clientInstance st = None ->
  env !! "ELEVENLABS_API_KEY" = Some key ->
  truthy_string key = true ->
  let instance := mkInstance (allocated st) (client_of_env env key) in
  let st1 := mkModule (S (allocated st)) (Some instance) in
  getClient env st = (Value instance, st1) /\
  apiKey (obj instance) = key /\
  maxRetries (obj instance) =
    match env !! "MAX_RETRIES" with
    | Some s => if truthy_string s then parseInt s else Num 3
    | None => Num 3
    end /\
  retryDelayMs (obj instance) =
    match env !! "RETRY_DELAY_MS" with
    | Some s => if truthy_string s then parseInt s else Num 1000
    | None => Num 1000
    end /\
  (forall env', getClient env' st1 = (Value instance, st1)) /\
  (forall envs,
      getClient_each (env :: envs) st =
      (repeat (Value instance) (S (length envs)), st1)) /\
  (forall env2 key2,
      env2 !! "ELEVENLABS_API_KEY" = Some key2 ->
      truthy_string key2 = true ->
      exists instance2 st2,
        getClient env2 (resetClient st1) = (Value instance2, st2) /\
        ref instance2 <> ref instance /\
        obj instance2 = client_of_env env2 key2 /\
        apiKey (obj instance2) = key2 /\
        maxRetries (obj instance2) =
          match env2 !! "MAX_RETRIES" with
          | Some s => if truthy_string s then parseInt s else Num 3
          | None => Num 3
          end /\
        retryDelayMs (obj instance2) =
          match env2 !! "RETRY_DELAY_MS" with
          | Some s => if truthy_string s then parseInt s else Num 1000
          | None => Num 1000
          end /\
        clientInstance st2 = Some instance2).
Proof.
  intros Hnone Hkey Htruthy instance st1.
  pose proof (getClient_constructs env key st Hnone Hkey Htruthy) as Hfirst.
  fold instance in Hfirst. fold st1 in Hfirst.
  destruct (client_of_env_fields env key) as (Hk & Hmr & Hrd).
  split; [exact Hfirst |].
  split; [exact Hk |]. split; [exact Hmr |]. split; [exact Hrd |].
  split; [| split].
  - intros env'. apply getClient_existing. reflexivity.
  - intros envs. cbn [getClient_each]. rewrite Hfirst.
    rewrite (getClient_each_existing envs st1 instance) by reflexivity.
    reflexivity.
  - intros env2 key2 Hkey2 Htruthy2.
    destruct (client_of_env_fields env2 key2) as (Hk2 & Hmr2 & Hrd2).
    eexists. eexists. split.
    + apply getClient_constructs; [reflexivity | exact Hkey2 | exact Htruthy2].
    + simpl. split; [lia |]. split; [reflexivity |].
      split; [exact Hk2 |]. split; [exact Hmr2 |]. split; [exact Hrd2 |].
      reflexivity.
Qed.

(** * The properties on sample inputs *)


Lemma request_exhausts_retries_on_500_sample :
  exists b e w',
    remote_always_500 (Z.to_nat 3) = Resolves (mkResponse 500 b) /\
    sample_request remote_always_500 sample_client "/voices" no_options empty_world
    = Some (ThrownInLoop e, w') /\
    calls w' =
      repeat (mkCall (request_url "/voices")
                     (request_init sample_JSON_stringify sample_client no_options))
             (S (Z.to_nat 3)) /\
    Z.of_nat (length (calls w')) = 3 + 1 /\
    slept w' = backoff_delays sample_client (Z.to_nat 3) /\
    match b with
    | Complete bytes =>
        e = formatted_error sample_utf8_decode sample_JSON_parse 500 bytes /\
        err_status e = Some 500
    | Aborted reason =>
        e = network_error sample_client reason /\ err_status e = None
    end.
Proof.
  apply (request_exhausts_retries_on_500
           sample_utf8_decode sample_JSON_parse sample_JSON_stringify
           remote_always_500 sample_client "/voices" no_options 3).
  - reflexivity.
  - lia.
  - intros i _. exists (Complete (bytes_of "")). destruct i; reflexivity.
Defined.

(** Why C3 needs the body of the last answer: when every 500 breaks off
    while its body is read, the four calls are made all the same, but the
    error thrown at the end is the network error, which has no status. *)
Lemma run_500_cut_result :
  run_500_cut =
  Some (ThrownInLoop (new_Error "Network error after 4 attempts: terminated"),
        world_of run_500_cut) /\
  length (calls (world_of run_500_cut)) = 4%nat /\
  slept (world_of run_500_cut) = [Num 1000; Num 2000; Num 4000].
Proof. repeat split. Qed.

Lemma exhausted_500_without_status : ~ exhausted_500_carries_status.
Proof.
  intros Hclaim.
  destruct (Hclaim sample_utf8_decode sample_JSON_parse sample_JSON_stringify
                   remote_500_cut sample_client "/voices" no_options 3
                   (exit_of run_500_cut) (world_of run_500_cut)
                   eq_refl ltac:(lia))
    as (_ & e & He & Hstatus).
  - intros i. exists (Aborted "terminated"). destruct i; reflexivity.
  - reflexivity.
  - vm_compute in He. inversion He; subst e. discriminate Hstatus.
Qed.

(** Why C5 needs the body of the answer: a 400 whose body breaks off while
    it is read is retried after the first backoff delay, and the second
    answer is returned. *)
Lemma run_400_cut_result :
  run_400_cut = Some (Returned (PJson (JObject [])), world_of run_400_cut) /\
  length (calls (world_of run_400_cut)) = 2%nat /\
  slept (world_of run_400_cut) = [Num 1000].
Proof. repeat split. Qed.

Lemma unreadable_client_error_is_retried : ~ client_error_fails_at_once.
Proof.
  intros Hclaim.
  destruct (Hclaim sample_utf8_decode sample_JSON_parse sample_JSON_stringify
                   remote_400_cut_then_json sample_client "/voices" no_options
                   3 400 (Aborted "terminated")
                   (exit_of run_400_cut) (world_of run_400_cut)
                   eq_refl ltac:(lia) (or_introl eq_refl) eq_refl eq_refl)
    as (Hcalls & _).
  vm_compute in Hcalls. discriminate Hcalls.
Qed.

Lemma request_does_not_retry_client_errors_sample :
  exists w',
    sample_request remote_401 sample_client "/voices" no_options empty_world
    = Some (ThrownInLoop
              (formatted_error sample_utf8_decode sample_JSON_parse 401
                               (bytes_of quota_text)),
            w') /\
    err_status (formatted_error sample_utf8_decode sample_JSON_parse 401
                                (bytes_of quota_text)) = Some 401 /\
    calls w' = [mkCall (request_url "/voices")
                       (request_init sample_JSON_stringify sample_client no_options)] /\
    slept w' = [].
Proof.
  destruct (request_does_not_retry_client_errors
              sample_utf8_decode sample_JSON_parse sample_JSON_stringify
              remote_401 sample_client "/voices" no_options 3)
    as [Hfirst _].
  - reflexivity.
  - lia.
  - apply (Hfirst 401 (bytes_of quota_text)).
    + right. reflexivity.
    + reflexivity.
Defined.

Lemma request_arraybuffer_passthrough_sample :
  exists w',
    request blind_utf8_decode blind_JSON_parse sample_JSON_stringify
            (scripted [Rejects "ECONNRESET"] (respond 200 "RIFF"))
            sample_client "/sound-generation" speech_options empty_world
    = Some (Returned (PArrayBuffer (bytes_of "RIFF")), w') /\
    calls w' =
      repeat (mkCall (request_url "/sound-generation")
                     (request_init sample_JSON_stringify sample_client speech_options))
             2 /\
    slept w' = backoff_delays sample_client 1.
Proof.
  apply (request_arraybuffer_passthrough
           blind_utf8_decode blind_JSON_parse sample_JSON_stringify
           (scripted [Rejects "ECONNRESET"] (respond 200 "RIFF"))
           sample_client "/sound-generation" speech_options 3 1
           (mkResponse 200 (Complete (bytes_of "RIFF")))).
  - reflexivity.
  - reflexivity.
  - lia.
  - intros i Hi. assert (i = 0%nat) as -> by lia. reflexivity.
  - reflexivity.
  - reflexivity.
  - reflexivity.
Defined.

Lemma request_never_reaches_fallback_sample :
  (forall w0 e w1,
      iteration sample_utf8_decode sample_JSON_parse sample_JSON_stringify
                remote_always_500 sample_client "/voices" no_options 3 w0
      <> (Value (SContinue e), w1)) /\
  exists x w',
    sample_request remote_always_500 sample_client "/voices" no_options empty_world
    = Some (x, w') /\
    forall e, x <> ThrownAfterLoop e.
Proof.
  apply (request_never_reaches_fallback
           sample_utf8_decode sample_JSON_parse sample_JSON_stringify
           remote_always_500 sample_client "/voices" no_options 3 empty_world).
  - reflexivity.
  - lia.
Defined.

(** Why the precondition of C10 is needed: a [MAX_RETRIES] that is not a
    number gives a client whose loop body never runs. *)
Lemma request_without_attempts_sample :
  exists instance st,
    getClient env_bad_retries initial_module = (Value instance, st) /\
    maxRetries (obj instance) = NaN /\
    sample_request remote_voices (obj instance) "/voices" no_options empty_world
    = Some (ThrownAfterLoop (new_Error "Request failed after all retries"),
            empty_world).
Proof. eexists. eexists. repeat split. Qed.

(** The failing input of C1: the default client, a GET for JSON, a first
    answer 200 whose body is an HTML page. *)
Lemma request_retries_decode_failure_sample :
  exists x w' n ss,
    sample_request remote_html_then_json sample_client "/voices" no_options
                   empty_world = Some (x, w') /\
    calls w' =
      mkCall (request_url "/voices")
             (request_init sample_JSON_stringify sample_client no_options)
      :: mkCall (request_url "/voices")
                (request_init sample_JSON_stringify sample_client no_options)
      :: repeat (mkCall (request_url "/voices")
                        (request_init sample_JSON_stringify sample_client no_options))
                n /\
    slept w' = backoff sample_client 0 :: ss.
Proof.
  apply (request_retries_decode_failure
           sample_utf8_decode sample_JSON_parse sample_JSON_stringify
           remote_html_then_json sample_client "/voices" no_options 3
           (mkResponse 200 (Complete (bytes_of "<html>"))) (bytes_of "<html>")
           "Unexpected token in JSON").
  - reflexivity.
  - lia.
  - reflexivity.
  - reflexivity.
  - reflexivity.
  - reflexivity.
  - reflexivity.
Defined.

(** On the failing input of C1 the code makes two calls, sleeps 1000 ms in
    between and returns the payload of the second answer. *)
Lemma decode_failure_then_success :
  exists w',
    sample_request remote_html_then_json sample_client "/voices" no_options
                   empty_world = Some (Returned (PJson (JObject [])), w') /\
    length (calls w') = 2%nat /\
    slept w' = [Num 1000].
Proof. eexists. vm_compute. repeat split. Qed.

(** When every answer is a 200 whose body does not parse, the code uses up
    all the attempts and reports a network error without status. *)
Lemma decode_failure_reported_as_network_error :
  exists w',
    sample_request (scripted [] (respond 200 "<html>")) sample_client "/voices"
                   no_options empty_world
    = Some (ThrownInLoop
              (new_Error "Network error after 4 attempts: Unexpected token in JSON"),
            w') /\
    length (calls w') = 4%nat /\
    slept w' = [Num 1000; Num 2000; Num 4000].
Proof. eexists. vm_compute. repeat split. Qed.

Lemma decode_failure_is_retried : ~ decode_failure_never_retried.
Proof.
  intros Hclaim.
  destruct decode_failure_then_success as (w' & Hreq & Hcalls & _).
  destruct (Hclaim sample_utf8_decode sample_JSON_parse sample_JSON_stringify
                   remote_html_then_json sample_client "/voices" no_options
                   (mkResponse 200 (Complete (bytes_of "<html>")))
                   (bytes_of "<html>") "Unexpected token in JSON"
                   (Returned (PJson (JObject []))) w')
    as [Hone _]; try reflexivity.
  - exact Hreq.
  - rewrite Hcalls in Hone. discriminate Hone.
Qed.

Lemma sample_request_voices options :
  sample_request remote_voices sample_client "/voices"
                 (mkOptions (opt_method options) (opt_body options)
                            (opt_headers options) None)
                 empty_world
  = Some (Returned (PJson (JObject [("voices", JArray [])])),
          mkWorld [sample_call (mkOptions (opt_method options) (opt_body options)
                                          (opt_headers options) None)] [] []).
Proof. reflexivity. Qed.

(** The counterexample of C4: the caller passes its own [xi-api-key]; the
    header sent is the caller's, not the credential of the configuration. *)
Lemma auth_header_overridden_by_caller : ~ auth_header_always_from_config.
Proof.
  intros Hclaim.
  pose proof (Hclaim sample_utf8_decode sample_JSON_parse sample_JSON_stringify
                     remote_voices sample_client "/voices" caller_key_options
                     _ _ (sample_request_voices caller_key_options)) as Hall.
  apply Forall_inv in Hall. vm_compute in Hall. discriminate Hall.
Qed.

Lemma request_auth_header_sample :
  Forall (fun c => init_headers (call_init c) !! "xi-api-key"
                   = Some (apiKey sample_client))
         [sample_call no_options].
Proof.
  destruct (request_auth_header
              sample_utf8_decode sample_JSON_parse sample_JSON_stringify
              remote_voices sample_client "/voices" no_options
              (Returned (PJson (JObject [("voices", JArray [])])))
              (mkWorld [sample_call no_options] [] []))
    as [Hconfig _].
  - exact (sample_request_voices no_options).
  - apply Hconfig. reflexivity.
Defined.

(** The counterexample of C6: the caller passes an empty [Content-Type]
    together with a body; the header sent is [application/json]. *)
Lemma empty_content_type_replaced : ~ caller_content_type_never_replaced.
Proof.
  intros Hclaim.
  pose proof (Hclaim sample_utf8_decode sample_JSON_parse sample_JSON_stringify
                     remote_voices sample_client "/voices"
                     empty_content_type_options
                     {[ "Content-Type" := "" ]} "" _ _
                     eq_refl eq_refl
                     (sample_request_voices empty_content_type_options)) as Hall.
  apply Forall_inv in Hall. vm_compute in Hall. discriminate Hall.
Qed.

Lemma request_content_type_sample :
  init_headers (call_init (sample_call text_content_type_options)) !! "Content-Type"
  = Some "text/plain".
Proof.
  pose proof (request_content_type
                sample_utf8_decode sample_JSON_parse sample_JSON_stringify
                remote_voices sample_client "/voices" text_content_type_options
                _ _ (sample_request_voices text_content_type_options)) as Hall.
  apply Forall_inv in Hall. destruct Hall as [Hkept _].
  apply Hkept; [reflexivity | discriminate].
Defined.

Lemma getClient_requires_credential_sample :
  fst (getClient env_empty_key initial_module) = Throw ConfigurationError /\
  getVoice sample_utf8_decode sample_JSON_parse sample_JSON_stringify remote_voices
           env_empty_key "21m00Tcm4TlvDq8ikWAM" initial_module empty_world
  = Some (Throw ConfigurationError, initial_module, empty_world).
Proof.
  destruct (getClient_requires_credential
              sample_utf8_decode sample_JSON_parse sample_JSON_stringify
              remote_voices env_empty_key initial_module)
    as (Hiff & _ & Htool).
  - reflexivity.
  - split.
    + apply Hiff. right. reflexivity.
    + apply Htool. right. reflexivity.
Defined.

Lemma getClient_singleton_sample :
  let first := mkInstance 0 (mkClient "sk_config" (Num 3) (Num 1000)) in
  let st1 := mkModule 1 (Some first) in
  let second := mkInstance 1 (mkClient "sk_other" (Num 5) (Num 250)) in
  getClient env_default initial_module = (Value first, st1) /\
  getClient env_tuned st1 = (Value first, st1) /\
  getClient_each [env_default; env_tuned; env_empty_key] initial_module
  = ([Value first; Value first; Value first], st1) /\
  exists instance2 st2,
    getClient env_tuned (resetClient st1) = (Value instance2, st2) /\
    instance2 = second /\
    ref instance2 <> 0%nat /\
    apiKey (obj instance2) = "sk_other" /\
    maxRetries (obj instance2) = Num 5 /\
    retryDelayMs (obj instance2) = Num 250 /\
    clientInstance st2 = Some instance2.
Proof.
  intros first st1 second.
  destruct (getClient_singleton env_default "sk_config" initial_module)
    as (Hfirst & _ & _ & _ & Hlater & Heach & Hreset).
  - reflexivity.
  - reflexivity.
  - reflexivity.
  - split; [exact Hfirst |]. split; [exact (Hlater env_tuned) |].
    split; [exact (Heach [env_tuned; env_empty_key]) |].
    destruct (Hreset env_tuned "sk_other" eq_refl eq_refl)
      as (instance2 & st2 & Hget & Href & Hobj & Hk & Hmr & Hrd & Hst).
    exists instance2, st2. split; [exact Hget |].
    split; [| repeat split; assumption].
    destruct instance2 as [r2 o2]. simpl in Hobj. subst o2.
    inversion Hget. reflexivity.
Defined.

(** * Further properties of [request] *)

Section RequestTrace.

Variable utf8_decode : list Byte.byte -> string.
Variable JSON_parse : string -> ParseResult.
Variable JSON_stringify : JSON -> string.
Variable remote : nat -> FetchResult.

Variable this : ElevenLabsClient.
Variable endpoint : string.
Variable options : RequestOptions.

Local Abbreviation the_iteration :=
  (iteration utf8_decode JSON_parse JSON_stringify remote this endpoint options).
Local Abbreviation the_loop :=
  (attempt_loop utf8_decode JSON_parse JSON_stringify remote this endpoint options).
Local Abbreviation the_request :=
  (request utf8_decode JSON_parse JSON_stringify remote this endpoint options).
Local Abbreviation the_call :=
  (mkCall (request_url endpoint) (request_init JSON_stringify this options)).
Local Abbreviation the_error := (formatted_error utf8_decode JSON_parse).
Local Abbreviation the_transient :=
  (transient_message utf8_decode JSON_parse (request_responseType options)).

Ltac pass_cases attempt w :=
  unfold_iteration; unfold transient_message, decoded_payload, formatted_error,
    network_error;
  destruct (remote (length (calls w))) as [reason | r]; simpl;
  [ destruct (num_lt (Num attempt) (maxRetries this)) eqn:Hlt; simpl
  | destruct r as [s b]; destruct b as [bytes | reason]; simpl;
    destruct (ok (mkResponse s _)) eqn:Hok; simpl;
    destruct (num_lt (Num attempt) (maxRetries this)) eqn:Hlt; simpl;
    try (destruct (request_responseType options) eqn:Hrt; simpl);
    try (destruct (JSON_parse (utf8_decode bytes)) eqn:Hparse; simpl);
    try (destruct (s =? 429) eqn:H429; simpl);
    try (destruct (s >=? 500) eqn:H500; simpl);
    try (destruct (s =? 0) eqn:H0; simpl);
    try rewrite Hlt; simpl ].

(** What a pass that returns tells about the answer it got. *)
Lemma iteration_return_inv attempt w v w1 :
  the_iteration attempt w = (Value (SReturn v), w1) ->
  exists r,
    remote (length (calls w)) = Resolves r /\
    ok r = true /\
    decoded_payload utf8_decode JSON_parse (request_responseType options) r = Some v.
Proof.
  pass_cases attempt w; intros H; inversion H; subst;
    eexists; (split; [reflexivity |]); simpl; rewrite ?Hparse; auto.
Qed.

(** What a pass that throws tells about the answer it got. *)
Lemma iteration_throw_inv attempt w e w1 :
  the_iteration attempt w = (Throw e, w1) ->
  (exists s bytes,
      remote (length (calls w)) = Resolves (mkResponse s (Complete bytes)) /\
      ok (mkResponse s (Complete bytes)) = false /\
      s <> 0 /\
      e = the_error s bytes /\
      (((s =? 429) || (s >=? 500)) = false \/
       num_lt (Num attempt) (maxRetries this) = false)) \/
  (exists msg,
      the_transient (remote (length (calls w))) = Some msg /\
      num_lt (Num attempt) (maxRetries this) = false /\
      e = network_error this msg).
Proof.
  pass_cases attempt w; intros H; inversion H; subst;
    try (right; eexists; repeat split; reflexivity);
    left; exists s, bytes; apply Z.eqb_neq in H0;
      repeat split; auto;
      left; rewrite H429, H500; reflexivity.
Qed.

(** A run of the loop is a number of passes that end in [continue], each
    followed by its backoff sleep, and one last pass that returns or
    throws. *)
Lemma loop_last_pass m :
  maxRetries this = Num m ->
  forall fuel attempt lastError w x w',
    attempt <= m ->
    the_loop fuel attempt lastError w = Some (x, w') ->
    exists (j : nat) wj o,
      attempt + Z.of_nat j <= m /\
      calls wj = (calls w ++ repeat the_call j)%list /\
      slept wj =
        (slept w ++ List.map (fun i => backoff this (attempt + Z.of_nat i)) (seq 0 j))%list /\
      the_iteration (attempt + Z.of_nat j) wj = (o, w') /\
      ((exists v, o = Value (SReturn v) /\ x = Returned v) \/
       (exists e, o = Throw e /\ x = ThrownInLoop e)).
Proof.
  intros Hm. induction fuel as [| fuel IH];
    intros attempt lastError w x w' Hle Hloop; [discriminate |].
  rewrite attempt_loop_S in Hloop.
  replace (num_le (Num attempt) (maxRetries this)) with true in Hloop
    by (rewrite Hm; symmetry; apply Z.leb_le; exact Hle).
  destruct (the_iteration attempt w) as [o w1] eqn:Hiter.
  assert (Hzero : forall o0,
    the_iteration attempt w = (o0, w') ->
    exists (j : nat) wj o,
      attempt + Z.of_nat j <= m /\
      calls wj = (calls w ++ repeat the_call j)%list /\
      slept wj =
        (slept w ++ List.map (fun i => backoff this (attempt + Z.of_nat i)) (seq 0 j))%list /\
      the_iteration (attempt + Z.of_nat j) wj = (o, w') /\ o = o0).
  { intros o0 H0. exists 0%nat, w, o0. simpl. rewrite !app_nil_r, Z.add_0_r.
    repeat split; auto. }
  destruct o as [[v | e] | e].
  - inversion Hloop; subst.
    destruct (Hzero _ Hiter) as (j & wj & o & H1 & H2 & H3 & H4 & ->).
    exists j, wj, (Value (SReturn v)). repeat split; eauto.
  - pose proof (iteration_calls utf8_decode JSON_parse JSON_stringify remote
                  this endpoint options attempt w) as Hcalls.
    rewrite Hiter in Hcalls. simpl in Hcalls.
    apply iteration_continue in Hiter. destruct Hiter as [Hlt Hslept].
    rewrite Hm in Hlt. apply Z.ltb_lt in Hlt.
    apply IH in Hloop; [| lia].
    destruct Hloop as (j & wj & o & H1 & H2 & H3 & H4 & H5).
    exists (S j), wj, o. rewrite H2, H3, Hcalls, Hslept.
    replace (attempt + Z.of_nat (S j)) with (attempt + 1 + Z.of_nat j) by lia.
    repeat split; auto.
    + rewrite <- app_assoc. reflexivity.
    + rewrite <- app_assoc. simpl. rewrite <- seq_shift, List.map_map.
      rewrite Z.add_0_r. f_equal. f_equal.
      apply List.map_ext. intros i. f_equal. lia.
  - inversion Hloop; subst.
    destruct (Hzero _ Hiter) as (j & wj & o & H1 & H2 & H3 & H4 & ->).
    exists j, wj, (Throw e). repeat split; eauto.
Qed.

Lemma request_last_pass m x w' :
  maxRetries this = Num m ->
  0 <= m ->
  the_request empty_world = Some (x, w') ->
  exists (j : nat) wj o,
    Z.of_nat j <= m /\
    calls wj = repeat the_call j /\
    slept wj = backoff_delays this j /\
    the_iteration (Z.of_nat j) wj = (o, w') /\
    ((exists v, o = Value (SReturn v) /\ x = Returned v) \/
     (exists e, o = Throw e /\ x = ThrownInLoop e)).
Proof.
  intros Hm Hpos Hreq. unfold request in Hreq.
  apply (loop_last_pass m Hm) in Hreq; [| exact Hpos].
  destruct Hreq as (j & wj & o & H1 & H2 & H3 & H4 & H5).
  exists j, wj, o. repeat split; auto.
Qed.

Lemma last_pass_leaves o x :
  ((exists v, o = Value (SReturn v) /\ x = Returned v) \/
   (exists e, o = Throw e /\ x = ThrownInLoop e)) ->
  forall e, o <> Value (SContinue e).
Proof. intros [(v & -> & _) | (e & -> & _)] e'; discriminate. Qed.

(** X1. Whatever the remote side does, a [request] with [maxRetries >= 0]
    and an integer [retryDelayMs] makes [n] network calls, [n] at least one
    and at most [maxRetries + 1], all of them the same call, and [n - 1]
    sleeps, whose delays are [2^0 * retryDelayMs], [2^1 * retryDelayMs],
    ... in that order. All the sleeps are made before the pass through the
    loop that makes the last call: that pass starts when [n - 1] calls and
    all [n - 1] sleeps have been made, and adds one call and no sleep. *)
Theorem request_call_budget m d x w' :
  maxRetries this = Num m ->
  0 <= m ->
  retryDelayMs this = Num d ->
  request utf8_decode JSON_parse JSON_stringify remote this endpoint options
          empty_world = Some (x, w') ->
  exists n : nat,
    (1 <= n)%nat /\ Z.of_nat n <= m + 1 /\
    calls w' = repeat (mkCall (request_url endpoint)
                              (request_init JSON_stringify this options)) n /\
    slept w' = List.map (fun i => Num (2 ^ Z.of_nat i * d)) (seq 0 (n - 1)) /\
    exists w_last o,
      iteration utf8_decode JSON_parse JSON_stringify remote this endpoint options
                (Z.of_nat (n - 1)) w_last = (o, w') /\
      length (calls w_last) = (n - 1)%nat /\
      slept w_last = slept w'.
Proof.
  intros Hm Hpos Hd Hreq.
  destruct (request_last_pass m x w' Hm Hpos Hreq)
    as (j & wj & o & Hj & Hcalls & Hslept & Hiter & Hend).
  exists (S j). split; [lia | split; [lia |]].
  pose proof (iteration_calls utf8_decode JSON_parse JSON_stringify remote
                this endpoint options (Z.of_nat j) wj) as Hc.
  rewrite Hiter in Hc. simpl in Hc.
  pose proof (iteration_leave _ _ _ _ _ _ _ _ _ _ _ Hiter
                (last_pass_leaves o x Hend)) as Hsame.
  replace (S j - 1)%nat with j by lia.
  split; [| split].
  - rewrite Hc, Hcalls, <- repeat_cons. reflexivity.
  - rewrite Hsame, Hslept. unfold backoff_delays. apply List.map_ext.
    intros i. unfold backoff, Math_pow2, num_mul. rewrite Hd. reflexivity.
  - exists wj, o. split; [exact Hiter |]. split.
    + rewrite Hcalls. apply repeat_length.
    + symmetry. exact Hsame.
Qed.

(** X2. A value that [request] returns is always the decoded body of the
    response to its last call, and that response has a status of the success
    range: nothing is returned from an earlier answer or made up. *)
Theorem request_returns_last_response m v w' :
  maxRetries this = Num m ->
  0 <= m ->
  request utf8_decode JSON_parse JSON_stringify remote this endpoint options
          empty_world = Some (Returned v, w') ->
  exists r,
    remote (length (calls w') - 1) = Resolves r /\
    ok r = true /\
    decoded_payload utf8_decode JSON_parse (request_responseType options) r = Some v.
Proof.
  intros Hm Hpos Hreq.
  destruct (request_last_pass m _ w' Hm Hpos Hreq)
    as (j & wj & o & Hj & Hcalls & Hslept & Hiter & Hend).
  destruct Hend as [(v' & -> & Hv) | (e & _ & He)]; [| discriminate He].
  inversion Hv; subst v'.
  pose proof (iteration_calls utf8_decode JSON_parse JSON_stringify remote
                this endpoint options (Z.of_nat j) wj) as Hc.
  rewrite Hiter in Hc. simpl in Hc.
  apply iteration_return_inv in Hiter. destruct Hiter as (r & Hr & Hok & Hdec).
  exists r. rewrite Hc, Hcalls, length_app, repeat_length. simpl.
  rewrite Hcalls, repeat_length in Hr.
  replace (j + 1 - 1)%nat with j by lia. auto.
Qed.

(** The ways [request] throws. *)
Lemma request_throw_inv x e w' :
  the_request empty_world = Some (x, w') ->
  observe x = Throw e ->
  (exists m s bytes,
      maxRetries this = Num m /\ 0 <= m /\
      remote (length (calls w') - 1) = Resolves (mkResponse s (Complete bytes)) /\
      ok (mkResponse s (Complete bytes)) = false /\
      s <> 0 /\
      e = the_error s bytes /\
      (((s =? 429) || (s >=? 500)) = false \/
       Z.of_nat (length (calls w')) = m + 1)) \/
  (exists m msg,
      maxRetries this = Num m /\ 0 <= m /\
      the_transient (remote (length (calls w') - 1)) = Some msg /\
      Z.of_nat (length (calls w')) = m + 1 /\
      e = network_error this msg) \/
  ((maxRetries this = NaN \/ exists m, maxRetries this = Num m /\ m < 0) /\
   w' = empty_world /\
   e = new_Error "Request failed after all retries").
Proof.
  intros Hreq Hobs.
  destruct (num_le (Num 0) (maxRetries this)) eqn:Hguard.
  - destruct (maxRetries this) as [| m] eqn:Hm; [discriminate Hguard |].
    apply Z.leb_le in Hguard.
    destruct (request_last_pass m _ w' Hm Hguard Hreq)
      as (j & wj & o & Hj & Hcalls & Hslept & Hiter & Hend).
    destruct Hend as [(v & _ & ->) | (e' & -> & ->)]; [discriminate Hobs |].
    simpl in Hobs. inversion Hobs; subst e'.
    pose proof (iteration_calls utf8_decode JSON_parse JSON_stringify remote
                  this endpoint options (Z.of_nat j) wj) as Hc.
    rewrite Hiter in Hc. simpl in Hc.
    assert (Hlen : length (calls w') = S j).
    { rewrite Hc, Hcalls, length_app, repeat_length. simpl. lia. }
    assert (Hlast : (length (calls w') - 1)%nat = length (calls wj)).
    { rewrite Hlen, Hcalls, repeat_length. lia. }
    assert (Hused : num_lt (Num (Z.of_nat j)) (Num m) = false ->
                    Z.of_nat (length (calls w')) = m + 1).
    { rewrite Hlen. unfold num_lt. intros H. apply Z.ltb_ge in H. lia. }
    rewrite Hlast.
    apply iteration_throw_inv in Hiter. rewrite Hm in Hiter.
    destruct Hiter as [(s & bytes & Hr & Hok & Hs & -> & Hwhy) | (msg & Ht & Hlt & ->)].
    + left. exists m, s, bytes. repeat split; auto.
      destruct Hwhy as [Hwhy | Hwhy]; [left; exact Hwhy | right; auto].
    + right. left. exists m, msg. repeat split; auto.
  - rewrite request_fallback_without_attempts in Hreq by exact Hguard.
    inversion Hreq; subst. simpl in Hobs. inversion Hobs; subst e.
    right. right. split; [| split; reflexivity].
    destruct (maxRetries this) as [| m]; [left; reflexivity |].
    right. exists m. split; [reflexivity |].
    unfold num_le in Hguard. apply Z.leb_gt in Hguard. exact Hguard.
Qed.

(** X3. An error that [request] throws is of one of three kinds. Either it
    carries a status: then [maxRetries] is at least 0, the error is the one
    formatted for the response to the last call, that response is outside
    the success range, arrived in full and has that status, and either the
    status is not a retryable one or all [maxRetries + 1] calls have been
    made. Or it is the network error of line 115, without status: then
    [maxRetries] is at least 0, all [maxRetries + 1] calls have been made,
    and its message wraps the failure of the last call. Or it is the error
    of line 119, [Request failed after all retries], without status: then
    [maxRetries] is [NaN] or negative and no call has been made. *)
Theorem request_throws_last_failure x e w' :
  request utf8_decode JSON_parse JSON_stringify remote this endpoint options
          empty_world = Some (x, w') ->
  observe x = Throw e ->
  (exists m s bytes,
      maxRetries this = Num m /\ 0 <= m /\
      x = ThrownInLoop e /\
      remote (length (calls w') - 1) = Resolves (mkResponse s (Complete bytes)) /\
      ok (mkResponse s (Complete bytes)) = false /\
      e = formatted_error utf8_decode JSON_parse s bytes /\
      err_status e = Some s /\
      (((s =? 429) || (s >=? 500)) = false \/
       Z.of_nat (length (calls w')) = m + 1)) \/
  (exists m msg,
      maxRetries this = Num m /\ 0 <= m /\
      x = ThrownInLoop e /\
      transient_message utf8_decode JSON_parse (request_responseType options)
                        (remote (length (calls w') - 1)) = Some msg /\
      Z.of_nat (length (calls w')) = m + 1 /\
      e = network_error this msg /\
      message e = "Network error after " +:+ pretty (m + 1) +:+ " attempts: " +:+ msg /\
      err_status e = None) \/
  ((maxRetries this = NaN \/ exists m, maxRetries this = Num m /\ m < 0) /\
   x = ThrownAfterLoop e /\
   calls w' = [] /\
   message e = "Request failed after all retries" /\
   err_status e = None).
Proof.
  intros Hreq Hobs.
  assert (Hsite : forall m, maxRetries this = Num m -> 0 <= m -> x = ThrownInLoop e).
  { intros m Hm Hpos.
    destruct (request_last_pass m _ w' Hm Hpos Hreq)
      as (j & wj & o & _ & _ & _ & _ & Hend).
    destruct Hend as [(v & _ & ->) | (e' & _ & ->)]; [discriminate Hobs |].
    simpl in Hobs. inversion Hobs. reflexivity. }
  destruct (request_throw_inv x e w' Hreq Hobs)
    as [(m & s & bytes & Hm & Hpos & Hr & Hok & Hs & -> & Hwhy)
       | [(m & msg & Hm & Hpos & Ht & Hn & ->) | (Hmax & -> & Hfall)]].
  - left. exists m, s, bytes. repeat split; eauto.
  - right. left. exists m, msg. repeat split; eauto.
    unfold network_error. rewrite Hm. reflexivity.
  - right. right. split; [exact Hmax |].
    assert (Hguard : num_le (Num 0) (maxRetries this) = false).
    { destruct Hmax as [-> | (m & -> & Hneg)]; [reflexivity |].
      apply Z.leb_gt. exact Hneg. }
    rewrite request_fallback_without_attempts in Hreq by exact Hguard.
    inversion Hreq; subst x. simpl in Hobs. inversion Hobs; subst e.
    repeat split.
Qed.

Lemma rejected_retried m (i : nat) reason :
  maxRetries this = Num m -> Z.of_nat i < m ->
  retried utf8_decode JSON_parse this (request_responseType options)
          (Z.of_nat i) (Rejects reason) = true.
Proof.
  intros Hm Hi. unfold retried, num_lt. rewrite Hm, andb_true_r.
  apply Z.ltb_lt. exact Hi.
Qed.

Lemma iteration_rejected_last attempt w reason :
  remote (length (calls w)) = Rejects reason ->
  num_lt (Num attempt) (maxRetries this) = false ->
  the_iteration attempt w =
    (Throw (network_error this reason),
     mkWorld (calls w ++ [the_call]) (slept w) (console w)).
Proof.
  intros Hremote Hlt. unfold_iteration. rewrite Hremote. simpl.
  rewrite Hlt. reflexivity.
Qed.

(** X4. Transport faults are retried like retryable statuses: when the first
    [k] calls fail without a response, [k] at most [maxRetries], and the
    call of index [k] gets a response of the success range whose body
    decodes to [v], [request] makes exactly [k + 1] calls, sleeps for the
    first [k] backoff delays and returns [v]. *)
Theorem request_recovers_from_transport_faults m (k : nat) resp v :
  maxRetries this = Num m ->
  Z.of_nat k <= m ->
  (forall i, (i < k)%nat -> exists reason, remote i = Rejects reason) ->
  remote k = Resolves resp ->
  ok resp = true ->
  decoded_payload utf8_decode JSON_parse (request_responseType options) resp = Some v ->
  exists w',
    request utf8_decode JSON_parse JSON_stringify remote this endpoint options
            empty_world = Some (Returned v, w') /\
    calls w' = repeat the_call (S k) /\
    slept w' = backoff_delays this k.
Proof.
  intros Hm Hk Hprefix Hremote Hok Hv.
  destruct (request_after_prefix utf8_decode JSON_parse JSON_stringify remote
              this endpoint options m k Hm Hk)
    as (f & le & lines & Hreq & Hguard & _).
  { intros i Hi. destruct (Hprefix i Hi) as [reason ->].
    apply (rejected_retried m); [exact Hm | lia]. }
  rewrite Hreq, attempt_loop_S, Hguard.
  erewrite iteration_success; try eassumption.
  - eexists. split; [reflexivity |]. simpl.
    rewrite <- repeat_cons. split; reflexivity.
  - simpl. rewrite repeat_length. exact Hremote.
Qed.

(** X5. When no call gets a response, [request] gives up after exactly
    [maxRetries + 1] calls, having slept for the first [maxRetries] backoff
    delays, and throws an error without status whose message counts the
    attempts and ends with the reason of the last failure. *)
Theorem request_network_exhausted m :
  maxRetries this = Num m ->
  0 <= m ->
  (forall i, (i <= Z.to_nat m)%nat -> exists reason, remote i = Rejects reason) ->
  exists reason w',
    remote (Z.to_nat m) = Rejects reason /\
    request utf8_decode JSON_parse JSON_stringify remote this endpoint options
            empty_world = Some (ThrownInLoop (network_error this reason), w') /\
    message (network_error this reason) =
      "Network error after " +:+ pretty (m + 1) +:+ " attempts: " +:+ reason /\
    err_status (network_error this reason) = None /\
    calls w' = repeat the_call (S (Z.to_nat m)) /\
    slept w' = backoff_delays this (Z.to_nat m).
Proof.
  intros Hm Hpos Hall.
  destruct (request_after_prefix utf8_decode JSON_parse JSON_stringify remote
              this endpoint options m (Z.to_nat m) Hm ltac:(lia))
    as (f & le & lines & Hreq & Hguard & _).
  { intros i Hi. destruct (Hall i ltac:(lia)) as [reason ->].
    apply (rejected_retried m); [exact Hm | lia]. }
  destruct (Hall (Z.to_nat m) ltac:(lia)) as [reason Hlast].
  exists reason. eexists. split; [exact Hlast |].
  rewrite Hreq, attempt_loop_S, Hguard.
  erewrite iteration_rejected_last.
  - split; [reflexivity |]. simpl. rewrite <- repeat_cons.
    unfold network_error. rewrite Hm. repeat split.
  - simpl. rewrite repeat_length. exact Hlast.
  - rewrite Hm. unfold num_lt. rewrite Z2Nat.id by lia. apply Z.ltb_irrefl.
Qed.

End RequestTrace.

(** ** The convenience wrappers *)

Section Wrappers.

Variable utf8_decode : list Byte.byte -> string.
Variable JSON_parse : string -> ParseResult.
Variable JSON_stringify : JSON -> string.
Variable remote : nat -> FetchResult.

Variable this : ElevenLabsClient.
Variable endpoint : string.

Lemma request_calls_equal options x w' :
  request utf8_decode JSON_parse JSON_stringify remote this endpoint options
          empty_world = Some (x, w') ->
  Forall (fun c => c = mkCall (request_url endpoint)
                              (request_init JSON_stringify this options))
         (calls w').
Proof.
  intros Hreq. apply loop_extends in Hreq.
  destruct Hreq as (n & ss & Hc & _). rewrite Hc. simpl.
  apply List.Forall_forall. intros c Hin. apply repeat_spec in Hin. exact Hin.
Qed.

Lemma requestHeaders_bare options :
  opt_headers options = None ->
  truthy_opt (opt_body options) = false ->
  requestHeaders this options = {[ "xi-api-key" := apiKey this ]}.
Proof.
  intros Hh Hb. unfold requestHeaders. rewrite Hh, Hb. simpl.
  apply (left_id_L ∅ (∪)).
Qed.

(** X6. Every network call of [get] is a GET of the base URL followed by the
    endpoint, without a body, and its only header is the [xi-api-key] of the
    client: no [Content-Type] is ever sent. *)
Theorem get_sends_bare_request responseType x w' :
  get utf8_decode JSON_parse JSON_stringify remote this endpoint responseType
      empty_world = Some (x, w') ->
  Forall (fun c =>
            call_url c = ELEVENLABS_API_BASE +:+ endpoint /\
            init_method (call_init c) = GET /\
            init_body (call_init c) = None /\
            init_headers (call_init c) = {[ "xi-api-key" := apiKey this ]})
         (calls w').
Proof.
  intros Hget. unfold get in Hget. apply request_calls_equal in Hget.
  eapply Forall_impl; [exact Hget |]. intros c ->. simpl.
  repeat split.
Qed.

(** X7. Every network call of [post] is a POST. When the body is truthy it
    is sent as [JSON.stringify(body)] with the header [Content-Type:
    application/json]; when the body is absent or falsy ([null], [false],
    [0], the empty string) no body and no [Content-Type] are sent, only the
    [xi-api-key] header. *)
Theorem post_sends_json_body body responseType x w' :
  post utf8_decode JSON_parse JSON_stringify remote this endpoint body responseType
       empty_world = Some (x, w') ->
  Forall (fun c =>
            init_method (call_init c) = POST /\
            (forall b, body = Some b -> truthy b = true ->
                       init_body (call_init c) = Some (JSON_stringify b) /\
                       init_headers (call_init c) =
                         {[ "Content-Type" := "application/json";
                            "xi-api-key" := apiKey this ]}) /\
            (truthy_opt body = false ->
             init_body (call_init c) = None /\
             init_headers (call_init c) = {[ "xi-api-key" := apiKey this ]}))
         (calls w').
Proof.
  intros Hpost. unfold post in Hpost. apply request_calls_equal in Hpost.
  eapply Forall_impl; [exact Hpost |]. intros c ->. simpl.
  split; [reflexivity | split].
  - intros b -> Hb. unfold request_init, requestHeaders. simpl. rewrite Hb.
    split; [reflexivity |]. simpl.
    rewrite lookup_union_r by apply lookup_empty.
    rewrite lookup_singleton_ne by discriminate. simpl.
    rewrite (left_id_L ∅ (∪)). reflexivity.
  - intros Hb. unfold request_init. simpl. split.
    + destruct body as [b |]; [| reflexivity]. simpl in Hb. rewrite Hb. reflexivity.
    + apply requestHeaders_bare; [reflexivity | exact Hb].
Qed.

(** X8. Whatever [generateAudio] returns is an array buffer holding exactly
    the bytes of the body of the response to its last call, and that
    response has a status of the success range; it never returns parsed
    JSON. This holds for every configuration of the client. *)
Theorem generateAudio_returns_bytes requestBody v w' :
  generateAudio utf8_decode JSON_parse JSON_stringify remote this endpoint
                requestBody empty_world = Some (Returned v, w') ->
  exists r bytes,
    remote (length (calls w') - 1) = Resolves r /\
    ok r = true /\
    body r = Complete bytes /\
    v = PArrayBuffer bytes.
Proof.
  intros Hgen. unfold generateAudio in Hgen.
  destruct (num_le (Num 0) (maxRetries this)) eqn:Hguard.
  - destruct (maxRetries this) as [| m] eqn:Hm; [discriminate |].
    apply Z.leb_le in Hguard.
    destruct (request_last_pass utf8_decode JSON_parse JSON_stringify remote
                this endpoint _ m _ w' Hm Hguard Hgen)
      as (j & wj & o & Hj & Hcalls & Hslept & Hiter & Hend).
    destruct Hend as [(v' & -> & Hv) | (e & _ & He)]; [| discriminate He].
    inversion Hv; subst v'.
    pose proof (iteration_calls utf8_decode JSON_parse JSON_stringify remote
                  this endpoint
                  (mkOptions (Some POST) requestBody None (Some arraybuffer))
                  (Z.of_nat j) wj) as Hc.
    rewrite Hiter in Hc. simpl in Hc.
    apply iteration_return_inv in Hiter. destruct Hiter as (r & Hr & Hok & Hdec).
    rewrite Hcalls, repeat_length in Hr.
    unfold decoded_payload in Hdec. simpl in Hdec.
    destruct (body r) as [bytes | reason] eqn:Hbody; [| discriminate Hdec].
    inversion Hdec; subst v.
    exists r, bytes. rewrite Hc, Hcalls, length_app, repeat_length. simpl.
    replace (j + 1 - 1)%nat with j by lia. auto.
  - rewrite request_fallback_without_attempts in Hgen by exact Hguard.
    discriminate Hgen.
Qed.

End Wrappers.

(** ** Error messages, single attempts *)

Section RequestErrors.

Variable utf8_decode : list Byte.byte -> string.
Variable JSON_parse : string -> ParseResult.
Variable JSON_stringify : JSON -> string.
Variable remote : nat -> FetchResult.

Variable this : ElevenLabsClient.
Variable endpoint : string.
Variable options : RequestOptions.

(** X9. An error with a status that [request] throws, at whatever attempt,
    has the message built from the response to the last call, which has
    that status and arrived in full. The message starts with the
    description of the status (the entry of [ERROR_MESSAGES], or
    [HTTP Error <status>]). What follows is decided by the body. When the
    body is not JSON, or is the JSON text [null], it is a colon and the raw
    body, unless the body is empty. When the body is a JSON object whose
    [detail] is an object that has a [message], it is a colon and that
    message as a text, unless the message is falsy (empty, [null], [false],
    0). In every other case (an object without such a [detail], an array, a
    text, a number, a boolean) nothing follows. *)
Theorem request_error_message x e s w' :
  request utf8_decode JSON_parse JSON_stringify remote this endpoint options
          empty_world = Some (x, w') ->
  observe x = Throw e ->
  err_status e = Some s ->
  exists bytes,
    remote (length (calls w') - 1) = Resolves (mkResponse s (Complete bytes)) /\
    message e =
      match
        match JSON_parse (utf8_decode bytes) with
        | SyntaxError _ => Some (JString (utf8_decode bytes))
        | Parsed JNull => Some (JString (utf8_decode bytes))
        | Parsed (JObject fields) =>
            match get_field "detail" fields with
            | Some (JObject detail) => get_field "message" detail
            | _ => None
            end
        | Parsed _ => None
        end
      with
      | Some shown =>
          if truthy shown then base_message s +:+ ": " +:+ ToString shown
          else base_message s
      | None => base_message s
      end.
Proof.
  intros Hreq Hobs Hstatus.
  destruct (request_throw_inv utf8_decode JSON_parse JSON_stringify remote
              this endpoint options x e w' Hreq Hobs)
    as [(m & s' & bytes & _ & _ & Hr & _ & _ & -> & _)
       | [(m & msg & _ & _ & _ & _ & ->) | (_ & _ & ->)]];
    try discriminate Hstatus.
  simpl in Hstatus. inversion Hstatus; subst s'.
  exists bytes. split; [exact Hr |].
  unfold formatted_error, getErrorMessage, errorDetail_of. simpl.
  fold (base_message s).
  destruct (JSON_parse (utf8_decode bytes)) as [j | err]; [| reflexivity].
  destruct j as [| b | n | t | items | fields]; reflexivity.
Qed.

(** X10. With [maxRetries = 0] nothing is retried: whatever the remote side
    does, [request] makes exactly one network call, never sleeps, and ends
    inside the loop body. *)
Theorem request_single_attempt x w' :
  maxRetries this = Num 0 ->
  request utf8_decode JSON_parse JSON_stringify remote this endpoint options
          empty_world = Some (x, w') ->
  calls w' = [mkCall (request_url endpoint) (request_init JSON_stringify this options)] /\
  slept w' = [] /\
  forall e, x <> ThrownAfterLoop e.
Proof.
  intros Hm Hreq.
  destruct (request_last_pass utf8_decode JSON_parse JSON_stringify remote
              this endpoint options 0 x w' Hm ltac:(lia) Hreq)
    as (j & wj & o & Hj & Hcalls & Hslept & Hiter & Hend).
  assert (j = 0%nat) as -> by lia.
  pose proof (iteration_calls utf8_decode JSON_parse JSON_stringify remote
                this endpoint options (Z.of_nat 0) wj) as Hc.
  rewrite Hiter in Hc. simpl in Hc.
  apply iteration_leave in Hiter; [| apply (last_pass_leaves o x Hend)].
  rewrite Hc, Hcalls, Hiter, Hslept. repeat split.
  destruct Hend as [(v & _ & ->) | (e & _ & ->)]; discriminate.
Qed.

End RequestErrors.

(** ** Histories of the singleton *)

Lemma run_op_invariant op st :
  module_invariant st -> module_invariant (run_op op st).
Proof.
  intros Hinv instance. destruct op as [env |]; simpl; [| discriminate].
  unfold getClient.
  destruct (clientInstance st) as [i |] eqn:Hi; simpl.
  - rewrite Hi. intros H. inversion H; subst. apply Hinv, Hi.
  - destruct (env !! "ELEVENLABS_API_KEY") as [key |]; simpl;
      [| rewrite Hi; discriminate].
    destruct (truthy_string key) eqn:Hkey; simpl; [| rewrite Hi; discriminate].
    intros H. inversion H; subst. simpl. split; [exact Hkey | lia].
Qed.

Lemma run_ops_invariant ops :
  forall st, module_invariant st -> module_invariant (run_ops ops st).
Proof.
  induction ops as [| op ops IH]; intros st Hinv; [exact Hinv |].
  simpl. apply IH, run_op_invariant, Hinv.
Qed.

Lemma initial_module_invariant : module_invariant initial_module.
Proof. intros instance H. discriminate H. Qed.

Lemma getClient_value_stored env st instance st' :
  getClient env st = (Value instance, st') ->
  clientInstance st' = Some instance /\ st' = snd (getClient env st).
Proof.
  intros H. split; [| rewrite H; reflexivity].
  unfold getClient in H.
  destruct (clientInstance st) as [i |] eqn:Hi.
  - inversion H; subst. exact Hi.
  - destruct (env !! "ELEVENLABS_API_KEY") as [key |]; [| discriminate H].
    destruct (truthy_string key); inversion H; reflexivity.
Qed.

(** X11. A failed access is not remembered: when [getClient] throws for want
    of a credential, the module state is left as it was, and the next access
    made with a credential in the environment constructs the instance from
    that environment. *)
Theorem getClient_retry_after_configuration_fix env1 env2 key st :
  clientInstance st = None ->
  (env1 !! "ELEVENLABS_API_KEY" = None \/ env1 !! "ELEVENLABS_API_KEY" = Some "") ->
  env2 !! "ELEVENLABS_API_KEY" = Some key ->
  truthy_string key = true ->
  getClient env1 st = (Throw ConfigurationError, st) /\
  getClient env2 (snd (getClient env1 st)) =
    (Value (mkInstance (allocated st) (client_of_env env2 key)),
     mkModule (S (allocated st))
              (Some (mkInstance (allocated st) (client_of_env env2 key)))).
Proof.
  intros Hnone Hmissing Hkey Htruthy.
  assert (Hfail : getClient env1 st = (Throw ConfigurationError, st)).
  { unfold getClient. rewrite Hnone.
    destruct Hmissing as [-> | ->]; reflexivity. }
  split; [exact Hfail |]. rewrite Hfail. simpl.
  apply getClient_constructs; assumption.
Qed.

Section ToolsProperties.

Variable utf8_decode : list Byte.byte -> string.
Variable JSON_parse : string -> ParseResult.
Variable JSON_stringify : JSON -> string.
Variable remote : nat -> FetchResult.

Lemma getVoice_inv env voice_id st w o st' w' :
  getVoice utf8_decode JSON_parse JSON_stringify remote env voice_id st w
  = Some (o, st', w') ->
  (exists e, getClient env st = (Throw e, st') /\ o = Throw e /\ w' = w) \/
  (exists client x,
      getClient env st = (Value client, st') /\
      get utf8_decode JSON_parse JSON_stringify remote (obj client)
          (API_ENDPOINTS_VOICE voice_id) None w = Some (x, w') /\
      o = observe x).
Proof.
  unfold getVoice. destruct (getClient env st) as [[client | e] st1].
  - destruct (get _ _ _ _ _ _ _ _) as [[x w1] |] eqn:Hget; [| discriminate].
    intros H. inversion H; subst. right. eauto.
  - intros H. inversion H; subst. left. eauto.
Qed.

(** X12. After any history of accesses and resets of the singleton, with
    whatever environments, every network call that [getVoice] makes carries
    as its only header an [xi-api-key] that is not empty: the tool never
    sends an unauthenticated request. *)
Theorem getVoice_always_authenticated ops env voice_id o st' w' :
  getVoice utf8_decode JSON_parse JSON_stringify remote env voice_id
           (run_ops ops initial_module) empty_world = Some (o, st', w') ->
  Forall (fun c =>
            exists key,
              init_headers (call_init c) = {[ "xi-api-key" := key ]} /\
              key <> "")
         (calls w').
Proof.
  intros Htool. apply getVoice_inv in Htool.
  destruct Htool as [(e & _ & _ & ->) | (client & x & Hclient & Hget & _)];
    [constructor |].
  assert (Hinv : module_invariant (run_ops (ops ++ [OpGetClient env]) initial_module)).
  { apply run_ops_invariant, initial_module_invariant. }
  apply getClient_value_stored in Hclient. destruct Hclient as [Hstored Hst'].
  unfold run_ops in Hinv. rewrite fold_left_app in Hinv. simpl in Hinv.
  fold (run_ops ops initial_module) in Hinv. rewrite <- Hst' in Hinv.
  destruct (Hinv client Hstored) as [Hkey _].
  unfold get in Hget. apply request_calls_equal in Hget.
  eapply Forall_impl; [exact Hget |]. intros c ->. simpl.
  exists (apiKey (obj client)). split.
  - apply requestHeaders_bare; reflexivity.
  - intros Hempty. rewrite Hempty in Hkey. discriminate Hkey.
Qed.

(** X13. With the default configuration (a credential, and [MAX_RETRIES] and
    [RETRY_DELAY_MS] unset or empty) a first tool call makes at least one and
    at most four network calls, and the sleeps between them are 1000, 2000
    and 4000 ms, in that order, as many as there are calls after the
    first. *)
Theorem getVoice_default_budget env key voice_id st o st' w' :
  clientInstance st = None ->
  env !! "ELEVENLABS_API_KEY" = Some key ->
  truthy_string key = true ->
  (env !! "MAX_RETRIES" = None \/ env !! "MAX_RETRIES" = Some "") ->
  (env !! "RETRY_DELAY_MS" = None \/ env !! "RETRY_DELAY_MS" = Some "") ->
  getVoice utf8_decode JSON_parse JSON_stringify remote env voice_id st empty_world
  = Some (o, st', w') ->
  exists n : nat,
    (1 <= n <= 4)%nat /\
    length (calls w') = n /\
    slept w' = take (n - 1) [Num 1000; Num 2000; Num 4000].
Proof.
  intros Hnone Hkey Htruthy Hretries Hdelay Htool.
  apply getVoice_inv in Htool.
  rewrite (getClient_constructs env key st Hnone Hkey Htruthy) in Htool.
  destruct Htool as [(e & H & _) | (client & x & Hclient & Hget & _)];
    [discriminate H |].
  inversion Hclient; subst client st'. simpl in Hget.
  assert (Hcfg : client_of_env env key = mkClient key (Num 3) (Num 1000)).
  { unfold client_of_env, env_or.
    destruct Hretries as [-> | ->], Hdelay as [-> | ->]; reflexivity. }
  rewrite Hcfg in Hget. unfold get in Hget.
  destruct (request_last_pass utf8_decode JSON_parse JSON_stringify remote
              (mkClient key (Num 3) (Num 1000)) (API_ENDPOINTS_VOICE voice_id)
              (mkOptions (Some GET) None None None) 3 x w'
              eq_refl ltac:(lia) Hget)
    as (j & wj & o' & Hj & Hcalls & Hslept & Hiter & Hend).
  pose proof (iteration_calls utf8_decode JSON_parse JSON_stringify remote
                (mkClient key (Num 3) (Num 1000)) (API_ENDPOINTS_VOICE voice_id)
                (mkOptions (Some GET) None None None) (Z.of_nat j) wj) as Hc.
  rewrite Hiter in Hc. simpl in Hc.
  apply iteration_leave in Hiter; [| apply (last_pass_leaves o' x Hend)].
  exists (S j). split; [lia |]. split.
  - rewrite Hc, Hcalls, length_app, repeat_length. simpl. lia.
  - rewrite Hiter, Hslept. replace (S j - 1)%nat with j by lia.
    assert (Hcases : j = 0%nat \/ j = 1%nat \/ j = 2%nat \/ j = 3%nat) by lia.
    destruct Hcases as [-> | [-> | [-> | ->]]]; reflexivity.
Qed.

End ToolsProperties.

(** * The further properties on sample inputs *)

Lemma request_call_budget_sample :
  exists n : nat,
    (1 <= n)%nat /\ Z.of_nat n <= 3 + 1 /\
    calls (world_of run_retry)
    = repeat (mkCall (request_url "/text-to-speech/v1")
                     (request_init sample_JSON_stringify sample_client speech_options))
             n /\
    slept (world_of run_retry)
    = List.map (fun i => Num (2 ^ Z.of_nat i * 1000)) (seq 0 (n - 1)) /\
    exists w_last o,
      iteration sample_utf8_decode sample_JSON_parse sample_JSON_stringify
                remote_429_then_audio sample_client "/text-to-speech/v1"
                speech_options (Z.of_nat (n - 1)) w_last = (o, world_of run_retry) /\
      length (calls w_last) = (n - 1)%nat /\
      slept w_last = slept (world_of run_retry).
Proof.
  apply (request_call_budget
           sample_utf8_decode sample_JSON_parse sample_JSON_stringify
           remote_429_then_audio sample_client "/text-to-speech/v1" speech_options
           3 1000 (exit_of run_retry)).
  - reflexivity.
  - lia.
  - reflexivity.
  - reflexivity.
Defined.

Lemma run_retry_budget :
  length (calls (world_of run_retry)) = 2%nat /\
  slept (world_of run_retry) = [Num 1000].
Proof. split; reflexivity. Qed.

Lemma request_returns_last_response_sample :
  exists r,
    remote_429_then_audio (length (calls (world_of run_retry)) - 1) = Resolves r /\
    ok r = true /\
    decoded_payload sample_utf8_decode sample_JSON_parse
                    (request_responseType speech_options) r
    = Some (PArrayBuffer (bytes_of "ID3")).
Proof.
  apply (request_returns_last_response
           sample_utf8_decode sample_JSON_parse sample_JSON_stringify
           remote_429_then_audio sample_client "/text-to-speech/v1" speech_options 3).
  - reflexivity.
  - lia.
  - reflexivity.
Defined.

Lemma request_throws_last_failure_sample :
  (exists m s bytes,
      maxRetries sample_client = Num m /\ 0 <= m /\
      exit_of run_500 = ThrownInLoop (thrown_of run_500) /\
      remote_always_500 (length (calls (world_of run_500)) - 1)
      = Resolves (mkResponse s (Complete bytes)) /\
      ok (mkResponse s (Complete bytes)) = false /\
      thrown_of run_500 = formatted_error sample_utf8_decode sample_JSON_parse s bytes /\
      err_status (thrown_of run_500) = Some s /\
      (((s =? 429) || (s >=? 500)) = false \/
       Z.of_nat (length (calls (world_of run_500))) = m + 1)) \/
  (exists m msg,
      maxRetries sample_client = Num m /\ 0 <= m /\
      exit_of run_500 = ThrownInLoop (thrown_of run_500) /\
      transient_message sample_utf8_decode sample_JSON_parse
                        (request_responseType no_options)
                        (remote_always_500 (length (calls (world_of run_500)) - 1))
      = Some msg /\
      Z.of_nat (length (calls (world_of run_500))) = m + 1 /\
      thrown_of run_500 = network_error sample_client msg /\
      message (thrown_of run_500)
      = "Network error after " +:+ pretty (m + 1) +:+ " attempts: " +:+ msg /\
      err_status (thrown_of run_500) = None) \/
  ((maxRetries sample_client = NaN \/
    exists m, maxRetries sample_client = Num m /\ m < 0) /\
   exit_of run_500 = ThrownAfterLoop (thrown_of run_500) /\
   calls (world_of run_500) = [] /\
   message (thrown_of run_500) = "Request failed after all retries" /\
   err_status (thrown_of run_500) = None).
Proof.
  apply (request_throws_last_failure
           sample_utf8_decode sample_JSON_parse sample_JSON_stringify
           remote_always_500 sample_client "/voices" no_options
           (exit_of run_500) (thrown_of run_500) (world_of run_500)).
  - reflexivity.
  - reflexivity.
Defined.

(** The three kinds on sample runs: a status error after four 500s, the
    network error after four refused connections, and the error of line 119
    for a client whose [MAX_RETRIES] is not a number. *)
Lemma request_throws_kinds_sample :
  (message (thrown_of run_500), err_status (thrown_of run_500),
   length (calls (world_of run_500)))
  = ("Server Error - ElevenLabs service temporarily unavailable", Some 500, 4%nat) /\
  (message (thrown_of run_down), err_status (thrown_of run_down),
   length (calls (world_of run_down)))
  = ("Network error after 4 attempts: ECONNREFUSED", None, 4%nat) /\
  sample_request remote_voices (constructor (mkConfig "sk_config" (Some NaN) None))
                 "/voices" no_options empty_world
  = Some (ThrownAfterLoop (new_Error "Request failed after all retries"),
          empty_world).
Proof. repeat split. Qed.

Lemma request_recovers_from_transport_faults_sample :
  exists w',
    sample_request remote_reset_then_voices sample_client "/voices" no_options
                   empty_world
    = Some (Returned (PJson (JObject [("voices", JArray [])])), w') /\
    calls w' = repeat (sample_call no_options) 3 /\
    slept w' = backoff_delays sample_client 2.
Proof.
  apply (request_recovers_from_transport_faults
           sample_utf8_decode sample_JSON_parse sample_JSON_stringify
           remote_reset_then_voices sample_client "/voices" no_options 3 2
           (mkResponse 200 (Complete (bytes_of voices_text)))).
  - reflexivity.
  - lia.
  - intros i Hi. exists "ECONNRESET".
    destruct i as [| [| i]]; [reflexivity | reflexivity | lia].
  - reflexivity.
  - reflexivity.
  - reflexivity.
Defined.

Lemma request_network_exhausted_sample :
  exists reason w',
    remote_down (Z.to_nat 3) = Rejects reason /\
    sample_request remote_down sample_client "/voices" no_options empty_world
    = Some (ThrownInLoop (network_error sample_client reason), w') /\
    message (network_error sample_client reason)
    = "Network error after " +:+ pretty (3 + 1) +:+ " attempts: " +:+ reason /\
    err_status (network_error sample_client reason) = None /\
    calls w' = repeat (sample_call no_options) (S (Z.to_nat 3)) /\
    slept w' = backoff_delays sample_client (Z.to_nat 3).
Proof.
  apply (request_network_exhausted
           sample_utf8_decode sample_JSON_parse sample_JSON_stringify
           remote_down sample_client "/voices" no_options 3).
  - reflexivity.
  - lia.
  - intros i _. exists "ECONNREFUSED". destruct i; reflexivity.
Defined.

Lemma get_sends_bare_request_sample :
  Forall (fun c =>
            call_url c = ELEVENLABS_API_BASE +:+ "/voices" /\
            init_method (call_init c) = GET /\
            init_body (call_init c) = None /\
            init_headers (call_init c) = {[ "xi-api-key" := apiKey sample_client ]})
         (calls (world_of (get sample_utf8_decode sample_JSON_parse
                               sample_JSON_stringify remote_reset_then_voices
                               sample_client "/voices" None empty_world))).
Proof.
  apply (get_sends_bare_request
           sample_utf8_decode sample_JSON_parse sample_JSON_stringify
           remote_reset_then_voices sample_client "/voices" None
           (exit_of (get sample_utf8_decode sample_JSON_parse
                         sample_JSON_stringify remote_reset_then_voices
                         sample_client "/voices" None empty_world))).
  reflexivity.
Defined.

Lemma post_sends_json_body_sample :
  Forall (fun c =>
            init_method (call_init c) = POST /\
            (forall b, Some (JNumber 0) = Some b -> truthy b = true ->
                       init_body (call_init c) = Some (sample_JSON_stringify b) /\
                       init_headers (call_init c) =
                         {[ "Content-Type" := "application/json";
                            "xi-api-key" := apiKey sample_client ]}) /\
            (truthy_opt (Some (JNumber 0)) = false ->
             init_body (call_init c) = None /\
             init_headers (call_init c) = {[ "xi-api-key" := apiKey sample_client ]}))
         (calls (world_of (post sample_utf8_decode sample_JSON_parse
                                sample_JSON_stringify remote_voices
                                sample_client "/voices" (Some (JNumber 0)) None
                                empty_world))).
Proof.
  apply (post_sends_json_body
           sample_utf8_decode sample_JSON_parse sample_JSON_stringify
           remote_voices sample_client "/voices" (Some (JNumber 0)) None
           (exit_of (post sample_utf8_decode sample_JSON_parse
                          sample_JSON_stringify remote_voices
                          sample_client "/voices" (Some (JNumber 0)) None
                          empty_world))).
  reflexivity.
Defined.

Lemma generateAudio_returns_bytes_sample :
  exists r bytes,
    remote_429_then_audio (length (calls (world_of run_retry)) - 1) = Resolves r /\
    ok r = true /\
    body r = Complete bytes /\
    PArrayBuffer (bytes_of "ID3") = PArrayBuffer bytes.
Proof.
  apply (generateAudio_returns_bytes
           sample_utf8_decode sample_JSON_parse sample_JSON_stringify
           remote_429_then_audio sample_client "/text-to-speech/v1"
           (Some speech_body)).
  reflexivity.
Defined.

Lemma request_error_message_sample :
  exists bytes,
    remote_401 (length (calls (world_of run_401)) - 1)
    = Resolves (mkResponse 401 (Complete bytes)) /\
    message (thrown_of run_401)
    = "Unauthorized - Invalid or missing API key: Quota exceeded".
Proof.
  destruct (request_error_message
              sample_utf8_decode sample_JSON_parse sample_JSON_stringify
              remote_401 sample_client "/voices" no_options
              (exit_of run_401) (thrown_of run_401) 401 (world_of run_401)
              eq_refl eq_refl eq_refl)
    as (bytes & Hlast & Hmessage).
  exists bytes. split; [exact Hlast |].
  vm_compute in Hlast. inversion Hlast; subst bytes. exact Hmessage.
Defined.

(** A 404 whose body is the JSON text [null]: reading [detail] of [null]
    throws inside the inner [try], so the raw body is shown. *)
Lemma run_404_null_message :
  message (thrown_of run_404_null) = "HTTP Error 404: null" /\
  err_status (thrown_of run_404_null) = Some 404 /\
  length (calls (world_of run_404_null)) = 1%nat.
Proof. repeat split. Qed.

Lemma request_single_attempt_sample :
  calls (world_of run_single)
  = [mkCall (request_url "/voices")
            (request_init sample_JSON_stringify single_attempt_client no_options)] /\
  slept (world_of run_single) = [] /\
  forall e, exit_of run_single <> ThrownAfterLoop e.
Proof.
  apply (request_single_attempt
           sample_utf8_decode sample_JSON_parse sample_JSON_stringify
           remote_always_500 single_attempt_client "/voices" no_options).
  - reflexivity.
  - reflexivity.
Defined.

Lemma getClient_retry_after_configuration_fix_sample :
  getClient env_empty_key initial_module = (Throw ConfigurationError, initial_module) /\
  getClient env_default (snd (getClient env_empty_key initial_module))
  = (Value (mkInstance 0 (client_of_env env_default "sk_config")),
     mkModule 1 (Some (mkInstance 0 (client_of_env env_default "sk_config")))).
Proof.
  apply (getClient_retry_after_configuration_fix
           env_empty_key env_default "sk_config" initial_module).
  - reflexivity.
  - right. reflexivity.
  - reflexivity.
  - reflexivity.
Defined.

Lemma getVoice_always_authenticated_sample :
  Forall (fun c =>
            exists key,
              init_headers (call_init c) = {[ "xi-api-key" := key ]} /\
              key <> "")
         (calls (tool_world_of
                   (getVoice sample_utf8_decode sample_JSON_parse
                             sample_JSON_stringify remote_reset_then_voices
                             env_empty_key "21m00Tcm4TlvDq8ikWAM"
                             (run_ops sample_history initial_module) empty_world))).
Proof.
  eapply (getVoice_always_authenticated
            sample_utf8_decode sample_JSON_parse sample_JSON_stringify
            remote_reset_then_voices sample_history env_empty_key
            "21m00Tcm4TlvDq8ikWAM").
  reflexivity.
Defined.

Lemma getVoice_default_budget_sample :
  exists n : nat,
    (1 <= n <= 4)%nat /\
    length (calls (tool_world_of
                     (getVoice sample_utf8_decode sample_JSON_parse
                               sample_JSON_stringify remote_reset_then_voices
                               env_default "21m00Tcm4TlvDq8ikWAM"
                               initial_module empty_world))) = n /\
    slept (tool_world_of
             (getVoice sample_utf8_decode sample_JSON_parse
                       sample_JSON_stringify remote_reset_then_voices
                       env_default "21m00Tcm4TlvDq8ikWAM"
                       initial_module empty_world))
    = take (n - 1) [Num 1000; Num 2000; Num 4000].
Proof.
  eapply (getVoice_default_budget
            sample_utf8_decode sample_JSON_parse sample_JSON_stringify
            remote_reset_then_voices env_default "sk_config"
            "21m00Tcm4TlvDq8ikWAM" initial_module).
  - reflexivity.
  - reflexivity.
  - reflexivity.
  - left. reflexivity.
  - left. reflexivity.
  - reflexivity.
Defined.

(** * Audio tags *)

Lemma string_app_cons x (a b : string) : String x a +:+ b = String x (a +:+ b).
Proof. reflexivity. Qed.

Lemma string_app_nil_l (b : string) : EmptyString +:+ b = b.
Proof. reflexivity. Qed.

Ltac string_app := rewrite ?string_app_cons, ?string_app_nil_l.

Lemma string_app_assoc (a b c : string) : (a +:+ b) +:+ c = a +:+ (b +:+ c).
Proof.
  induction a as [| x a IH]; string_app; [reflexivity | rewrite IH; reflexivity].
Qed.

Lemma string_app_nil_r (a : string) : a +:+ EmptyString = a.
Proof.
  induction a as [| x a IH]; string_app; [reflexivity | rewrite IH; reflexivity].
Qed.

Lemma has_char_app c (a b : string) :
  has_char c (a +:+ b) = has_char c a || has_char c b.
Proof.
  induction a as [| x a IH]; string_app; simpl; [reflexivity |].
  rewrite IH. apply orb_assoc.
Qed.

(** *** Lower case and trimming *)

Lemma lower_char_idem c : lower_char (lower_char c) = lower_char c.
Proof. destruct c as [[] [] [] [] [] [] [] []]; reflexivity. Qed.

Lemma lower_char_space c : is_whitespace (lower_char c) = is_whitespace c.
Proof. destruct c as [[] [] [] [] [] [] [] []]; reflexivity. Qed.

Lemma lower_char_comma c : Ascii.eqb (lower_char c) ","%char = Ascii.eqb c ","%char.
Proof. destruct c as [[] [] [] [] [] [] [] []]; reflexivity. Qed.

Lemma lower_char_open c : Ascii.eqb (lower_char c) "["%char = Ascii.eqb c "["%char.
Proof. destruct c as [[] [] [] [] [] [] [] []]; reflexivity. Qed.

Lemma lower_char_close c : Ascii.eqb (lower_char c) "]"%char = Ascii.eqb c "]"%char.
Proof. destruct c as [[] [] [] [] [] [] [] []]; reflexivity. Qed.

Lemma toLowerCase_idem s : toLowerCase (toLowerCase s) = toLowerCase s.
Proof.
  induction s as [| c s IH]; simpl; [reflexivity |].
  rewrite lower_char_idem, IH. reflexivity.
Qed.

Lemma toLowerCase_app a b : toLowerCase (a +:+ b) = toLowerCase a +:+ toLowerCase b.
Proof.
  induction a as [| c a IH]; string_app; simpl;
    [reflexivity | rewrite IH; reflexivity].
Qed.

Lemma toLowerCase_empty s : toLowerCase s = EmptyString <-> s = EmptyString.
Proof. destruct s; simpl; split; congruence. Qed.

Lemma trim_start_lower s : trim_start (toLowerCase s) = toLowerCase (trim_start s).
Proof.
  induction s as [| c s IH]; simpl; [reflexivity |].
  rewrite lower_char_space. destruct (is_whitespace c); [exact IH | reflexivity].
Qed.

Lemma trim_end_lower s : trim_end (toLowerCase s) = toLowerCase (trim_end s).
Proof.
  induction s as [| c s IH]; simpl; [reflexivity |].
  rewrite IH, lower_char_space.
  destruct (trim_end s); simpl; [destruct (is_whitespace c) |]; reflexivity.
Qed.

Lemma trim_lower s : trim (toLowerCase s) = toLowerCase (trim s).
Proof. unfold trim. rewrite trim_start_lower, trim_end_lower. reflexivity. Qed.

Lemma trim_end_idem s : trim_end (trim_end s) = trim_end s.
Proof.
  induction s as [| c s IH]; simpl; [reflexivity |].
  destruct (trim_end s) as [| d kept] eqn:Hend.
  - destruct (is_whitespace c) eqn:Hc; simpl; [reflexivity |].
    rewrite Hc. reflexivity.
  - cbn [trim_end]. cbn [trim_end] in IH. rewrite IH. reflexivity.
Qed.

Lemma trim_start_clean s : starts_clean (trim_start s).
Proof.
  induction s as [| c s IH]; simpl; [exact I |].
  destruct (is_whitespace c) eqn:Hc; [exact IH | exact Hc].
Qed.

Lemma trim_start_of_clean s : starts_clean s -> trim_start s = s.
Proof. destruct s as [| c s]; simpl; [reflexivity | intros ->; reflexivity]. Qed.

Lemma trim_end_clean s : starts_clean s -> starts_clean (trim_end s).
Proof.
  destruct s as [| c s]; simpl; [exact (fun H => H) |].
  intros Hc. destruct (trim_end s); simpl; [rewrite Hc; simpl |]; exact Hc.
Qed.

Lemma trim_idem s : trim (trim s) = trim s.
Proof.
  unfold trim.
  rewrite (trim_start_of_clean (trim_end (trim_start s)))
    by apply trim_end_clean, trim_start_clean.
  apply trim_end_idem.
Qed.

Lemma has_char_trim_start c s : has_char c s = false -> has_char c (trim_start s) = false.
Proof.
  induction s as [| d s IH]; simpl; [reflexivity |].
  intros H. apply orb_false_elim in H. destruct H as [Hd Hs].
  destruct (is_whitespace d); [apply IH, Hs |]. simpl. rewrite Hd, Hs. reflexivity.
Qed.

Lemma has_char_trim_end c s : has_char c s = false -> has_char c (trim_end s) = false.
Proof.
  induction s as [| d s IH]; simpl; [reflexivity |].
  intros H. apply orb_false_elim in H. destruct H as [Hd Hs].
  specialize (IH Hs).
  destruct (trim_end s) as [| x kept]; simpl.
  - destruct (is_whitespace d); simpl; [reflexivity | rewrite Hd; reflexivity].
  - rewrite Hd. exact IH.
Qed.

Lemma has_char_trim c s : has_char c s = false -> has_char c (trim s) = false.
Proof. intros H. apply has_char_trim_end, has_char_trim_start, H. Qed.

Lemma has_char_lower c s :
  (forall d, Ascii.eqb (lower_char d) c = Ascii.eqb d c) ->
  has_char c (toLowerCase s) = has_char c s.
Proof.
  intros Hc. induction s as [| d s IH]; simpl; [reflexivity |].
  rewrite Hc, IH. reflexivity.
Qed.

(** *** Splitting at commas *)

Lemma split_comma_cons s : exists part parts, split_comma s = part :: parts.
Proof.
  induction s as [| c s IH]; simpl; [eauto |].
  destruct (Ascii.eqb c ","%char); [eauto |].
  destruct IH as (part & parts & ->). eauto.
Qed.

Lemma split_comma_no_comma s :
  Forall (fun part => has_char ","%char part = false) (split_comma s).
Proof.
  induction s as [| c s IH]; simpl; [repeat constructor |].
  destruct (Ascii.eqb c ","%char) eqn:Hc; [constructor; [reflexivity | exact IH] |].
  destruct (split_comma s) as [| part parts]; [repeat constructor; simpl; rewrite Hc; reflexivity |].
  inversion IH; subst. constructor; [| assumption]. simpl. rewrite Hc. assumption.
Qed.

Lemma split_comma_keeps_absent c s :
  has_char c s = false ->
  Forall (fun part => has_char c part = false) (split_comma s).
Proof.
  induction s as [| d s IH]; simpl; [repeat constructor |].
  intros H. apply orb_false_elim in H. destruct H as [Hd Hs]. specialize (IH Hs).
  destruct (Ascii.eqb d ","%char); [constructor; [reflexivity | exact IH] |].
  destruct (split_comma s) as [| part parts];
    [repeat constructor; simpl; rewrite Hd; reflexivity |].
  inversion IH; subst. constructor; [| assumption]. simpl. rewrite Hd. assumption.
Qed.

Lemma split_comma_lower s :
  split_comma (toLowerCase s) = List.map toLowerCase (split_comma s).
Proof.
  induction s as [| c s IH]; simpl; [reflexivity |].
  rewrite lower_char_comma, IH.
  destruct (Ascii.eqb c ","%char); [reflexivity |].
  destruct (split_comma s); reflexivity.
Qed.

(** *** The scan for bracketed tags *)

#[local] Arguments array_includes : simpl never.
#[local] Arguments undocumented : simpl never.
#[local] Arguments tags_of_match : simpl never.

Lemma fold_check_tag l :
  forall ws ts,
    fold_left check_tag l (ws, ts) =
    ((ws ++ List.map unknown_tag_warning (List.filter undocumented l))%list,
     (ts ++ l)%list).
Proof.
  induction l as [| t l IH]; intros ws ts; cbn [fold_left List.filter List.map].
  - rewrite !app_nil_r. reflexivity.
  - change (check_tag (ws, ts) t)
      with ((if array_includes AUDIO_TAGS t then ws
             else (ws ++ [unknown_tag_warning t])%list),
            (ts ++ [t])%list).
    rewrite IH. unfold undocumented at 2.
    destruct (array_includes AUDIO_TAGS t); cbn [negb List.map];
      rewrite <- !app_assoc; reflexivity.
Qed.

Lemma fold_check_match ms :
  forall ws ts,
    fold_left check_match ms (ws, ts) =
    ((ws ++ List.map unknown_tag_warning
                     (List.filter undocumented (flat_map tags_of_match ms)))%list,
     (ts ++ flat_map tags_of_match ms)%list).
Proof.
  induction ms as [| c ms IH]; intros ws ts;
    cbn [fold_left flat_map List.filter List.map].
  - rewrite !app_nil_r. reflexivity.
  - change (check_match (ws, ts) c)
      with (fold_left check_tag (tags_of_match c) (ws, ts)).
    rewrite fold_check_tag, IH.
    rewrite List.filter_app, List.map_app, <- !app_assoc. reflexivity.
Qed.

Lemma validateAudioTags_eq text :
  validateAudioTags text =
  mkValidation true
    (List.map unknown_tag_warning
              (List.filter undocumented
                           (flat_map tags_of_match (tag_matches None text))))
    (flat_map tags_of_match (tag_matches None text)).
Proof.
  unfold validateAudioTags. rewrite fold_check_match. reflexivity.
Qed.

(** X14. [validateAudioTags] never rejects a text: [valid] is always true.
    Its warnings are, in order, one warning for each found tag that is not in
    [AUDIO_TAGS] (a tag found twice is warned about twice), so there are
    never more warnings than tags. *)
Theorem validateAudioTags_warns_undocumented text :
  valid (validateAudioTags text) = true /\
  warnings (validateAudioTags text) =
    List.map unknown_tag_warning
             (List.filter undocumented (tags (validateAudioTags text))) /\
  (length (warnings (validateAudioTags text))
   <= length (tags (validateAudioTags text)))%nat.
Proof.
  rewrite validateAudioTags_eq. simpl. repeat split.
  rewrite length_map. apply List.filter_length_le.
Qed.

Lemma tag_matches_closed text :
  forall opened,
    (forall content, opened = Some content -> has_char "]"%char content = false) ->
    Forall (fun content => has_char "]"%char content = false)
           (tag_matches opened text).
Proof.
  induction text as [| c text IH]; intros opened Hopened; simpl; [constructor |].
  destruct opened as [content |].
  - destruct (Ascii.eqb c "]"%char) eqn:Hc.
    + destruct content as [| d content].
      * apply IH. discriminate.
      * constructor; [apply Hopened; reflexivity | apply IH; discriminate].
    + apply IH. intros content' H. inversion H; subst.
      rewrite has_char_app, (Hopened content eq_refl). simpl. rewrite Hc. reflexivity.
  - destruct (Ascii.eqb c "["%char); apply IH; intros content H;
      [inversion H; reflexivity | discriminate H].
Qed.

Lemma tags_of_match_normal content :
  has_char "]"%char content = false ->
  Forall (fun t => has_char "]"%char t = false /\ has_char ","%char t = false /\
                   toLowerCase t = t /\ trim t = t)
         (tags_of_match content).
Proof.
  intros Hclose. unfold tags_of_match. apply Forall_map.
  pose proof (split_comma_no_comma content) as Hcomma.
  pose proof (split_comma_keeps_absent "]"%char content Hclose) as Hparts.
  rewrite List.Forall_forall in *. intros part Hin. repeat split.
  - rewrite has_char_lower by apply lower_char_close.
    apply has_char_trim, Hparts, Hin.
  - rewrite has_char_lower by apply lower_char_comma.
    apply has_char_trim, Hcomma, Hin.
  - apply toLowerCase_idem.
  - rewrite trim_lower, trim_idem. reflexivity.
Qed.

(** X15. Every tag that [validateAudioTags] reports is in normal form: it is
    in lower case, has no white space at either end, and contains neither a
    comma nor a closing bracket. *)
Theorem validateAudioTags_tags_normal text :
  Forall (fun t => has_char "]"%char t = false /\ has_char ","%char t = false /\
                   toLowerCase t = t /\ trim t = t)
         (tags (validateAudioTags text)).
Proof.
  rewrite validateAudioTags_eq. simpl. apply List.Forall_flat_map.
  eapply Forall_impl; [apply (tag_matches_closed text None); discriminate |].
  intros content. apply tags_of_match_normal.
Qed.

Lemma tag_matches_no_open text :
  has_char "["%char text = false -> tag_matches None text = [].
Proof.
  induction text as [| c text IH]; simpl; [reflexivity |].
  intros H. apply orb_false_elim in H. destruct H as [-> Htext]. apply IH, Htext.
Qed.

Lemma tag_matches_no_close text :
  has_char "]"%char text = false -> forall opened, tag_matches opened text = [].
Proof.
  induction text as [| c text IH]; simpl; [reflexivity |].
  intros H opened. apply orb_false_elim in H. destruct H as [Hc Htext].
  rewrite Hc. destruct opened; [apply IH, Htext |].
  destruct (Ascii.eqb c "["%char); apply IH, Htext.
Qed.

(** X16. A text without an opening bracket, or without a closing bracket,
    has no tags and raises no warnings. *)
Theorem validateAudioTags_without_brackets text :
  has_char "["%char text = false \/ has_char "]"%char text = false ->
  validateAudioTags text = mkValidation true [] [].
Proof.
  intros H. rewrite validateAudioTags_eq.
  replace (tag_matches None text) with (@nil string); [reflexivity |].
  symmetry. destruct H as [H | H];
    [apply tag_matches_no_open, H | apply tag_matches_no_close, H].
Qed.

Lemma validateAudioTags_without_brackets_sample :
  validateAudioTags "Breathe in [slowly, then out" = mkValidation true [] [].
Proof.
  apply (validateAudioTags_without_brackets "Breathe in [slowly, then out").
  right. reflexivity.
Defined.

Lemma tag_matches_lower text :
  forall opened,
    tag_matches (option_map toLowerCase opened) (toLowerCase text) =
    List.map toLowerCase (tag_matches opened text).
Proof.
  induction text as [| c text IH]; intros opened; simpl; [reflexivity |].
  destruct opened as [content |]; simpl.
  - rewrite lower_char_close. destruct (Ascii.eqb c "]"%char).
    + destruct content as [| d content]; simpl.
      * apply (IH None).
      * f_equal. apply (IH None).
    + rewrite <- (IH (Some (content +:+ String c EmptyString))). simpl.
      rewrite toLowerCase_app. reflexivity.
  - rewrite lower_char_open. destruct (Ascii.eqb c "["%char).
    + apply (IH (Some EmptyString)).
    + apply (IH None).
Qed.

Lemma tags_of_match_lower content :
  tags_of_match (toLowerCase content) = tags_of_match content.
Proof.
  unfold tags_of_match. rewrite split_comma_lower, List.map_map.
  apply List.map_ext. intros part. rewrite trim_lower. apply toLowerCase_idem.
Qed.

Lemma flat_map_tags_lower (l : list string) :
  flat_map tags_of_match (List.map toLowerCase l) = flat_map tags_of_match l.
Proof.
  induction l as [| c l IH]; cbn [List.map flat_map]; [reflexivity |].
  rewrite tags_of_match_lower, IH. reflexivity.
Qed.

(** X17. Tags are recognised whatever their case: putting the whole text in
    lower case before validating it changes neither the tags found nor the
    warnings. *)
Theorem validateAudioTags_ignores_case text :
  validateAudioTags (toLowerCase text) = validateAudioTags text.
Proof.
  rewrite !validateAudioTags_eq.
  pose proof (tag_matches_lower text None) as Hscan. simpl in Hscan.
  rewrite Hscan.
  rewrite flat_map_tags_lower. reflexivity.
Qed.

(** *** Formatting and validating *)

Lemma tag_matches_skip a b :
  has_char "["%char a = false ->
  tag_matches None (a +:+ b) = tag_matches None b.
Proof.
  induction a as [| c a IH]; string_app; [reflexivity |].
  cbn [has_char tag_matches]. intros H. apply orb_false_elim in H.
  destruct H as [-> Ha]. apply IH, Ha.
Qed.

Lemma tag_matches_inside e :
  forall content b,
    has_char "]"%char e = false ->
    content +:+ e <> EmptyString ->
    tag_matches (Some content) (e +:+ String "]"%char b) =
    (content +:+ e) :: tag_matches None b.
Proof.
  induction e as [| c e IH]; intros content b Hclose Hne; string_app.
  - rewrite string_app_nil_r in *. cbn [tag_matches]. simpl.
    destruct content; [contradiction | reflexivity].
  - cbn [has_char] in Hclose. apply orb_false_elim in Hclose.
    destruct Hclose as [Hc He]. cbn [tag_matches]. rewrite Hc.
    rewrite IH; [| exact He |].
    + rewrite string_app_assoc. reflexivity.
    + rewrite string_app_assoc. string_app.
      destruct content; discriminate.
Qed.

Lemma tag_matches_section section rest :
  has_char "["%char (section_text section) = false ->
  (forall e, emotion section = Some e -> has_char "]"%char e = false) ->
  tag_matches None (format_section section +:+ rest) =
  (section_match section ++ tag_matches None rest)%list.
Proof.
  intros Htext Hemotion. unfold format_section, section_match.
  destruct (emotion section) as [e |] eqn:He;
    [| apply tag_matches_skip, Htext].
  destruct (truthy_string e) eqn:Htruthy; [| apply tag_matches_skip, Htext].
  change ("] " +:+ section_text section)
    with (String "]"%char (" " +:+ section_text section)).
  rewrite !string_app_assoc. string_app. cbn [tag_matches]. simpl Ascii.eqb.
  cbv iota. rewrite tag_matches_inside.
  - string_app. cbn [app]. f_equal.
    cbn [tag_matches]. simpl Ascii.eqb. cbv iota.
    apply tag_matches_skip, Htext.
  - apply Hemotion. reflexivity.
  - string_app. destruct e; [discriminate Htruthy | discriminate].
Qed.

Lemma join_cons sep p q rest :
  join sep (p :: q :: rest) = p +:+ sep +:+ join sep (q :: rest).
Proof. reflexivity. Qed.

Lemma tag_matches_formatted sections :
  Forall (fun section =>
            has_char "["%char (section_text section) = false /\
            forall e, emotion section = Some e -> has_char "]"%char e = false)
         sections ->
  forall rest,
    tag_matches None (formatMeditationText sections +:+ rest) =
    (flat_map section_match sections ++ tag_matches None rest)%list.
Proof.
  unfold formatMeditationText. fold format_section.
  induction sections as [| s sections IH]; intros Hall rest; [reflexivity |].
  inversion Hall as [| ? ? [Htext Hemotion] Hrest]; subst.
  destruct sections as [| s' sections].
  - cbn [List.map join flat_map]. rewrite app_nil_r.
    apply tag_matches_section; assumption.
  - cbn [List.map]. rewrite join_cons. cbn [flat_map].
    rewrite !string_app_assoc, tag_matches_section by assumption.
    rewrite tag_matches_skip by reflexivity.
    rewrite <- app_assoc. f_equal. apply (IH Hrest).
Qed.

Lemma flat_map_section_tags sections :
  flat_map tags_of_match (flat_map section_match sections) =
  flat_map section_tags sections.
Proof.
  induction sections as [| s sections IH]; [reflexivity |].
  cbn [flat_map]. rewrite List.flat_map_app, IH. f_equal.
  unfold section_match, section_tags.
  destruct (emotion s) as [e |]; [| reflexivity].
  destruct (truthy_string e); [| reflexivity].
  cbn [flat_map]. rewrite app_nil_r. reflexivity.
Qed.

(** X18. What [formatMeditationText] writes, [validateAudioTags] reads back:
    when no section text contains an opening bracket and no emotion contains
    a closing bracket, the tags found in the formatted text are exactly the
    tags of the emotions of the sections, in order (each emotion split at
    its commas, trimmed and put in lower case); sections without an emotion,
    or with an empty one, contribute none. *)
Theorem formatMeditationText_tags_found sections :
  Forall (fun section =>
            has_char "["%char (section_text section) = false /\
            forall e, emotion section = Some e -> has_char "]"%char e = false)
         sections ->
  tags (validateAudioTags (formatMeditationText sections)) =
  flat_map section_tags sections.
Proof.
  intros Hall. rewrite validateAudioTags_eq. simpl.
  pose proof (tag_matches_formatted sections Hall EmptyString) as Hscan.
  rewrite string_app_nil_r in Hscan. simpl in Hscan. rewrite app_nil_r in Hscan.
  rewrite Hscan. apply flat_map_section_tags.
Qed.

Lemma formatMeditationText_tags_found_sample :
  tags (validateAudioTags (formatMeditationText sample_sections)) =
  ["softly"; "warmly"; "whispers"].
Proof.
  rewrite (formatMeditationText_tags_found sample_sections); [reflexivity |].
  repeat (constructor;
          [split; [reflexivity | intros e He; inversion He; reflexivity] |]).
  constructor.
Defined.

(** * File names *)

Lemma length_toLowerCase s : String.length (toLowerCase s) = String.length s.
Proof. induction s as [| c s IH]; simpl; [reflexivity | rewrite IH; reflexivity]. Qed.

Lemma length_replace_chars keep by_char s :
  String.length (replace_chars keep by_char s) = String.length s.
Proof. induction s as [| c s IH]; simpl; [reflexivity | rewrite IH; reflexivity]. Qed.

Lemma length_substring_0 n s :
  String.length (substring 0 n s) = Nat.min n (String.length s).
Proof.
  revert s. induction n as [| n IH]; intros s; destruct s as [| c s]; simpl;
    try reflexivity.
  rewrite IH. reflexivity.
Qed.

Lemma substring_replace_chars keep by_char n s :
  substring 0 n (replace_chars keep by_char s) =
  replace_chars keep by_char (substring 0 n s).
Proof.
  revert s. induction n as [| n IH]; intros s; destruct s as [| c s]; simpl;
    try reflexivity.
  rewrite IH. reflexivity.
Qed.

Lemma name_char_of_any c :
  is_name_char (lower_char (if is_alnum c then c else "_"%char)) = true.
Proof. destruct c as [[] [] [] [] [] [] [] []]; reflexivity. Qed.

Lemma all_chars_has_char test c s :
  all_chars test s = true -> test c = false -> has_char c s = false.
Proof.
  intros Hall Hc. induction s as [| d s IH]; simpl in *; [reflexivity |].
  apply andb_prop in Hall. destruct Hall as [Hd Hs]. rewrite (IH Hs), orb_false_r.
  destruct (Ascii.eqb_spec d c) as [-> |]; [congruence | reflexivity].
Qed.

Lemma shortDesc_name_chars text : all_chars is_name_char (shortDesc text) = true.
Proof.
  unfold shortDesc. induction (substring 0 30 text) as [| c s IH]; simpl;
    [reflexivity |].
  rewrite name_char_of_any, IH. reflexivity.
Qed.

(** X19. The part of the default file name of a sound effect that comes from
    the description is safe to use in a path: it has as many characters as
    the description, at most 30, and each of them is a lower-case letter, a
    digit or an underscore; in particular it contains no slash, no backslash
    and no dot. *)
Theorem shortDesc_is_safe text :
  String.length (shortDesc text) = Nat.min 30 (String.length text) /\
  all_chars is_name_char (shortDesc text) = true /\
  has_char "/"%char (shortDesc text) = false /\
  has_char "092"%char (shortDesc text) = false /\
  has_char "."%char (shortDesc text) = false.
Proof.
  pose proof (shortDesc_name_chars text) as Hall. split; [| split; [exact Hall |]].
  - unfold shortDesc.
    rewrite length_toLowerCase, length_replace_chars. apply length_substring_0.
  - repeat split; apply (all_chars_has_char is_name_char); auto.
Qed.

Lemma timestamp_of_prefix iso :
  timestamp iso = timestamp (substring 0 19 iso).
Proof.
  unfold timestamp. rewrite !substring_replace_chars. f_equal.
  generalize 19%nat. intros n. revert iso.
  induction n as [| n IH]; intros s; destruct s as [| c s]; simpl;
    try reflexivity.
  rewrite <- IH. reflexivity.
Qed.

(** * The list of voices *)

Lemma filter_if_passes value test vs :
  filter_if value test vs = List.filter (passes value test) vs.
Proof.
  assert (Hall : List.filter (fun _ : Voice => true) vs = vs).
  { induction vs as [| v vs IH]; simpl; [reflexivity | rewrite IH; reflexivity]. }
  unfold filter_if, passes. destruct value as [x |]; [| symmetry; exact Hall].
  destruct (truthy_string x); [reflexivity | symmetry; exact Hall].
Qed.

Lemma filter_twice {A : Type} (p q : A -> bool) l :
  List.filter q (List.filter p l) = List.filter (fun x => p x && q x) l.
Proof.
  induction l as [| x l IH]; simpl; [reflexivity |].
  destruct (p x); simpl; [destruct (q x); rewrite IH; reflexivity | exact IH].
Qed.

Lemma filter_sublist {A : Type} (p : A -> bool) l : sublist (List.filter p l) l.
Proof.
  induction l as [| x l IH]; simpl; [constructor |].
  destruct (p x); [apply sublist_skip | apply sublist_cons]; exact IH.
Qed.

(** X20. [listVoices] returns exactly the voices of the response that pass
    every filter that is set (a filter given as the empty text counts as not
    set), in the order of the response. [total] counts the voices of the
    response and [filtered] those returned, so [filtered] never exceeds
    [total]. *)
Theorem listVoices_filters input response_voices :
  voices (listVoices_result input response_voices) =
    List.filter (passes_all input) response_voices /\
  sublist (voices (listVoices_result input response_voices)) response_voices /\
  total (listVoices_result input response_voices) = length response_voices /\
  filtered (listVoices_result input response_voices) =
    length (voices (listVoices_result input response_voices)) /\
  (filtered (listVoices_result input response_voices)
   <= total (listVoices_result input response_voices))%nat.
Proof.
  assert (Heq : voices (listVoices_result input response_voices) =
                List.filter (passes_all input) response_voices).
  { unfold listVoices_result. simpl. rewrite !filter_if_passes, !filter_twice.
    apply List.filter_ext. intros v. unfold passes_all.
    rewrite !andb_assoc. reflexivity. }
  assert (Hcount : filtered (listVoices_result input response_voices) =
                   length (voices (listVoices_result input response_voices)))
    by reflexivity.
  split; [exact Heq |]. split; [rewrite Heq; apply filter_sublist |].
  split; [reflexivity |]. split; [exact Hcount |].
  rewrite Hcount, Heq. apply List.filter_length_le.
Qed.

(** * The tools that save audio *)

Lemma MUSIC_PRESETS_some name preset :
  MUSIC_PRESETS name = Some preset ->
  truthy_string name = true /\ preset_instrumental preset = true.
Proof.
  unfold MUSIC_PRESETS. intros H.
  repeat match type of H with
         | (if String.eqb name ?k then _ else _) = _ =>
             let Hk := fresh "Hk" in
             destruct (String.eqb name k) eqn:Hk;
             [apply String.eqb_eq in Hk; subst name; inversion H; subst preset;
              split; reflexivity |]
         end.
  discriminate H.
Qed.

Lemma MUSIC_PRESETS_inherited name :
  array_includes Object_prototype_names name = true ->
  truthy_string name = true /\ MUSIC_PRESETS name = None.
Proof.
  intros Hinc. unfold array_includes in Hinc. apply existsb_exists in Hinc.
  destruct Hinc as (k & Hin & Hk). apply String.eqb_eq in Hk. subst k.
  simpl in Hin.
  repeat (destruct Hin as [<- | Hin]; [split; reflexivity |]).
  destruct Hin.
Qed.

Section AudioToolProperties.

Variable utf8_decode : list Byte.byte -> string.
Variable JSON_parse : string -> ParseResult.
Variable JSON_stringify : JSON -> string.
Variable remote : nat -> FetchResult.
Variable path_join : string -> string -> string.
Variable path_dirname : string -> string.
Variable fs_fault : nat -> option JsError.

Local Abbreviation the_tool :=
  (audio_tool utf8_decode JSON_parse JSON_stringify remote path_dirname fs_fault).
Local Abbreviation the_generateAudio :=
  (generateAudio utf8_decode JSON_parse JSON_stringify remote).

Lemma generateAudio_last_response this endpoint requestBody v w' :
  the_generateAudio this endpoint requestBody empty_world = Some (Returned v, w') ->
  exists r bytes,
    remote (length (calls w') - 1) = Resolves r /\
    ok r = true /\
    body r = Complete bytes /\
    v = PArrayBuffer bytes.
Proof.
  intros Hgen. unfold generateAudio in Hgen.
  destruct (num_le (Num 0) (maxRetries this)) eqn:Hguard.
  - destruct (maxRetries this) as [| m] eqn:Hm; [discriminate |].
    apply Z.leb_le in Hguard.
    destruct (request_last_pass utf8_decode JSON_parse JSON_stringify remote
                this endpoint _ m _ w' Hm Hguard Hgen)
      as (j & wj & o & Hj & Hcalls & Hslept & Hiter & Hend).
    destruct Hend as [(v' & -> & Hv) | (e & _ & He)]; [| discriminate He].
    inversion Hv; subst v'.
    pose proof (iteration_calls utf8_decode JSON_parse JSON_stringify remote
                  this endpoint
                  (mkOptions (Some POST) requestBody None (Some arraybuffer))
                  (Z.of_nat j) wj) as Hc.
    rewrite Hiter in Hc. simpl in Hc.
    apply iteration_return_inv in Hiter. destruct Hiter as (r & Hr & Hok & Hdec).
    rewrite Hcalls, repeat_length in Hr.
    unfold decoded_payload in Hdec. simpl in Hdec.
    destruct (body r) as [bytes | reason] eqn:Hbody; [| discriminate Hdec].
    inversion Hdec; subst v.
    exists r, bytes. rewrite Hc, Hcalls, length_app, repeat_length. simpl.
    replace (j + 1 - 1)%nat with j by lia. auto.
  - rewrite request_fallback_without_attempts in Hgen by exact Hguard.
    discriminate Hgen.
Qed.

(** A tool always ends. *)
Lemma audio_tool_total {R : Type} env endpoint requestBody outputPath (result : R) st mc :
  exists o st' mc',
    the_tool env endpoint requestBody outputPath result st mc = Some (o, st', mc').
Proof.
  unfold audio_tool. destruct (getClient env st) as [[client | e] st1]; [| eauto].
  destruct (request_total utf8_decode JSON_parse JSON_stringify remote
              (obj client) endpoint
              (mkOptions (Some POST) (Some requestBody) None (Some arraybuffer))
              (network mc)) as (x & net' & Hreq).
  unfold generateAudio. rewrite Hreq.
  destruct (observe x) as [buf | e]; [| eauto].
  unfold fs_do. cbn [disk network].
  destruct (fs_fault (length (disk mc))); [eauto |]. cbn [disk network].
  destruct (fs_fault (length (disk mc ++ [Mkdir (path_dirname outputPath)])));
    eauto.
Qed.

(** The ways a tool ends. *)
Lemma audio_tool_inv {R : Type} env endpoint requestBody outputPath (result : R)
      st d o st' mc' :
  the_tool env endpoint requestBody outputPath result st (mkMachine empty_world d)
  = Some (o, st', mc') ->
  (exists e, getClient env st = (Throw e, st') /\ o = Throw e /\
             mc' = mkMachine empty_world d) \/
  (exists client x,
      getClient env st = (Value client, st') /\
      the_generateAudio (obj client) endpoint (Some requestBody) empty_world
      = Some (x, network mc') /\
      ((exists e, observe x = Throw e /\ o = Throw e /\ disk mc' = d) \/
       (exists buf,
           observe x = Value buf /\
           ((exists e, fs_fault (length d) = Some e /\ o = Throw e /\
                       disk mc' = (d ++ [Mkdir (path_dirname outputPath)])%list) \/
            (fs_fault (length d) = None /\
             disk mc' = (d ++ [Mkdir (path_dirname outputPath);
                               WriteFile outputPath (Buffer_from buf)])%list /\
             ((exists e, fs_fault (S (length d)) = Some e /\ o = Throw e) \/
              (fs_fault (S (length d)) = None /\ o = Value result))))))).
Proof.
  unfold audio_tool. simpl.
  destruct (getClient env st) as [[client | e] st1].
  2: { intros H. inversion H; subst. left. eauto. }
  destruct (the_generateAudio (obj client) endpoint (Some requestBody) empty_world)
    as [[x net'] |] eqn:Hgen; [| discriminate].
  intros H. right. exists client, x.
  destruct (observe x) as [buf | e] eqn:Hobs.
  2: { inversion H; subst. simpl. split; [reflexivity |].
       split; [exact Hgen |]. left. eauto. }
  unfold fs_do in H. cbn [disk network] in H.
  assert (Hlen : length (d ++ [Mkdir (path_dirname outputPath)]) = S (length d))
    by (rewrite length_app; simpl; lia).
  destruct (fs_fault (length d)) as [e |] eqn:Hmk.
  { inversion H; subst. simpl. split; [reflexivity |]. split; [exact Hgen |].
    right. exists buf. split; [reflexivity |]. left. eauto. }
  cbn [disk network] in H. rewrite Hlen in H.
  assert (Hd : ((d ++ [Mkdir (path_dirname outputPath)])
                ++ [WriteFile outputPath (Buffer_from buf)])%list
               = (d ++ [Mkdir (path_dirname outputPath);
                        WriteFile outputPath (Buffer_from buf)])%list)
    by (rewrite <- app_assoc; reflexivity).
  destruct (fs_fault (S (length d))) as [e |] eqn:Hwr;
    inversion H; subst; simpl; (split; [reflexivity |]); (split; [exact Hgen |]);
    right; exists buf; (split; [reflexivity |]); right;
    (split; [reflexivity |]); (split; [exact Hd |]); [left | right]; eauto.
Qed.

(** How a tool ends. *)
Lemma audio_tool_ends {R : Type} (file_path : R -> string)
      env endpoint requestBody outputPath (result : R) st d o st' mc' :
  file_path result = outputPath ->
  the_tool env endpoint requestBody outputPath result st (mkMachine empty_world d)
  = Some (o, st', mc') ->
  tool_ends utf8_decode JSON_parse JSON_stringify remote path_dirname fs_fault
            file_path env st d endpoint outputPath o st' mc'.
Proof.
  intros Hpath Htool. apply audio_tool_inv in Htool. unfold tool_ends.
  destruct Htool as [(e & -> & -> & ->) | (client & x & -> & Hgen & Hend)].
  { repeat split. }
  split; [reflexivity |]. exists requestBody, x. split; [exact Hgen |].
  destruct x as [v | e | e]; simpl in Hend.
  - destruct Hend as [(e & Hobs & _) | (buf & Hobs & Hfs)]; [discriminate Hobs |].
    inversion Hobs; subst buf.
    apply generateAudio_last_response in Hgen.
    destruct Hgen as (r & bytes & Hr & Hok & Hbody & ->). simpl in Hfs.
    exists r, bytes. repeat (split; [assumption |]).
    destruct Hfs as [(e & -> & -> & Hd) | (-> & Hd & [(e & -> & ->) | (-> & ->)])].
    + split; [reflexivity | exact Hd].
    + split; [exact Hd | reflexivity].
    + split; [exact Hd |]. exists result. split; [reflexivity | exact Hpath].
  - destruct Hend as [(e0 & Hobs & -> & Hd) | (buf & Hobs & _)];
      [| discriminate Hobs].
    inversion Hobs; subst e0. split; [reflexivity | exact Hd].
  - destruct Hend as [(e0 & Hobs & -> & Hd) | (buf & Hobs & _)];
      [| discriminate Hobs].
    inversion Hobs; subst e0. split; [reflexivity | exact Hd].
Qed.

(** Every network call of a tool is the POST of its request body to its
    endpoint. *)
Lemma audio_tool_calls {R : Type} env endpoint fields outputPath (result : R)
      st d o st' mc' :
  the_tool env endpoint (JObject fields) outputPath result st
           (mkMachine empty_world d) = Some (o, st', mc') ->
  Forall (fun c =>
            call_url c = ELEVENLABS_API_BASE +:+ endpoint /\
            init_method (call_init c) = POST /\
            init_body (call_init c) = Some (JSON_stringify (JObject fields)))
         (calls (network mc')).
Proof.
  intros Htool. apply audio_tool_inv in Htool.
  destruct Htool as [(e & _ & _ & ->) | (client & x & _ & Hgen & _)];
    [constructor |].
  unfold generateAudio in Hgen. apply request_calls_equal in Hgen.
  eapply Forall_impl; [exact Hgen |]. intros c ->. simpl.
  repeat split.
Qed.

(** A result a tool returns is the one it was to return. *)
Lemma audio_tool_value {R : Type} env endpoint requestBody outputPath
      (result r : R) st d st' mc' :
  the_tool env endpoint requestBody outputPath result st (mkMachine empty_world d)
  = Some (Value r, st', mc') ->
  r = result.
Proof.
  intros Htool. apply audio_tool_inv in Htool.
  destruct Htool as [(e & _ & H & _) | (client & x & _ & _ & Hend)];
    [discriminate H |].
  destruct Hend as [(e & _ & H & _) | (buf & _ & Hfs)]; [discriminate H |].
  destruct Hfs as [(e & _ & H & _) | (_ & _ & [(e & _ & H) | (_ & H)])];
    try discriminate H.
  inversion H. reflexivity.
Qed.

(** X21. Each of [generateMusic], [streamMusic] and [generateDialogue],
    started with no network call made, ends, and ends in one of these ways
    ([tool_ends]). Without a credential it throws the error of [getClient]
    and does nothing else. Otherwise it runs one [generateAudio] on its
    endpoint ([/music], [/music/stream] or [/text-to-dialogue], followed by
    [?output_format=] and the format). When that throws, the tool throws the
    same error and asks nothing of the file system. When that returns, the
    tool asks for the directory of its output path to be made (the path
    given, or else the default one in [OUTPUT_DIR]) and then for exactly the
    bytes of the body of the response to the last network call, a response
    of the success range, to be written to that path; it throws the fault
    of the first of the two operations that fails, asking nothing after it,
    and when neither fails it returns a result whose [file_path] is that
    path. *)
Theorem audio_tools_save_received_audio env now st d :
  (forall input, exists o st' mc',
      generateMusic utf8_decode JSON_parse JSON_stringify remote path_join
                    path_dirname fs_fault env now input st
                    (mkMachine empty_world d) = Some (o, st', mc') /\
      tool_ends utf8_decode JSON_parse JSON_stringify remote path_dirname fs_fault
                music_file_path env st d
                ("/music?output_format="
                 +:+ text_or (mi_output_format input) DEFAULT_OUTPUT_FORMAT)
                (output_path_of path_join env now (mi_output_path input) "music_"
                   (audio_extension
                      (text_or (mi_output_format input) DEFAULT_OUTPUT_FORMAT)))
                o st' mc') /\
  (forall input, exists o st' mc',
      streamMusic utf8_decode JSON_parse JSON_stringify remote path_join
                  path_dirname fs_fault env now input st
                  (mkMachine empty_world d) = Some (o, st', mc') /\
      tool_ends utf8_decode JSON_parse JSON_stringify remote path_dirname fs_fault
                music_file_path env st d
                ("/music/stream?output_format="
                 +:+ text_or (mi_output_format input) DEFAULT_OUTPUT_FORMAT)
                (output_path_of path_join env now (mi_output_path input)
                   "music_stream_"
                   (audio_extension
                      (text_or (mi_output_format input) DEFAULT_OUTPUT_FORMAT)))
                o st' mc') /\
  (forall input, exists o st' mc',
      generateDialogue utf8_decode JSON_parse JSON_stringify remote path_join
                       path_dirname fs_fault env now input st
                       (mkMachine empty_world d) = Some (o, st', mc') /\
      tool_ends utf8_decode JSON_parse JSON_stringify remote path_dirname fs_fault
                dialogue_file_path env st d
                ("/text-to-dialogue?output_format="
                 +:+ text_or (di_output_format input) DEFAULT_OUTPUT_FORMAT)
                (output_path_of path_join env now (di_output_path input) "dialogue_"
                   (audio_extension
                      (text_or (di_output_format input) DEFAULT_OUTPUT_FORMAT)))
                o st' mc').
Proof.
  split; [| split]; intros input.
  - unfold generateMusic. destruct (music_settings input) as [[p ds] i].
    match goal with
    | |- context [audio_tool _ _ _ _ _ _ ?e ?ep ?b ?op ?res st ?mc] =>
        destruct (audio_tool_total e ep b op res st mc) as (o & st' & mc' & Hrun)
    end.
    exists o, st', mc'. split; [exact Hrun |].
    apply (audio_tool_ends music_file_path) in Hrun; [exact Hrun | reflexivity].
  - unfold streamMusic. destruct (music_settings input) as [[p ds] i].
    match goal with
    | |- context [audio_tool _ _ _ _ _ _ ?e ?ep ?b ?op ?res st ?mc] =>
        destruct (audio_tool_total e ep b op res st mc) as (o & st' & mc' & Hrun)
    end.
    exists o, st', mc'. split; [exact Hrun |].
    apply (audio_tool_ends music_file_path) in Hrun; [exact Hrun | reflexivity].
  - unfold generateDialogue.
    match goal with
    | |- context [audio_tool _ _ _ _ _ _ ?e ?ep ?b ?op ?res st ?mc] =>
        destruct (audio_tool_total e ep b op res st mc) as (o & st' & mc' & Hrun)
    end.
    exists o, st', mc'. split; [exact Hrun |].
    apply (audio_tool_ends dialogue_file_path) in Hrun; [exact Hrun | reflexivity].
Qed.

(** X22. A preset overrides the input. When [preset] names one of the
    entries of [MUSIC_PRESETS], every network call of [generateMusic] sends
    the prompt and the duration of the preset with [instrumental: true]
    (and the composition plan, if one is given), and the result reports the
    same values: the prompt, the duration and the instrumental flag of the
    input are not used. *)
Theorem generateMusic_preset_overrides env now input name preset st d o st' mc' :
  mi_preset input = Some name ->
  MUSIC_PRESETS name = Some preset ->
  generateMusic utf8_decode JSON_parse JSON_stringify remote path_join path_dirname
                fs_fault env now input st (mkMachine empty_world d)
  = Some (o, st', mc') ->
  Forall (fun c =>
            init_body (call_init c) =
            Some (JSON_stringify
                    (JObject ([("prompt", JString (preset_prompt preset));
                               ("duration_seconds",
                                JNumber (preset_duration_seconds preset));
                               ("instrumental", JBool true)]
                              ++ plan_field (mi_composition_plan input)))))
         (calls (network mc')) /\
  forall result,
    o = Value result ->
    music_prompt result = Some (preset_prompt preset) /\
    music_duration_seconds result = Some (preset_duration_seconds preset) /\
    music_instrumental result = Some true.
Proof.
  intros Hname Hpreset Hrun.
  destruct (MUSIC_PRESETS_some name preset Hpreset) as [Htruthy Hinstr].
  unfold generateMusic, music_settings, music_preset_of in Hrun.
  rewrite Hname, Htruthy, Hpreset, Hinstr in Hrun. split.
  - apply audio_tool_calls in Hrun.
    eapply Forall_impl; [exact Hrun |]. intros c (_ & _ & Hbody). exact Hbody.
  - intros result ->. apply audio_tool_value in Hrun. subst result.
    simpl. auto.
Qed.

(** X23. The music tools never send [instrumental: false]. Every network
    call of [generateMusic] and of [streamMusic] sends a JSON object in
    which [instrumental] is [true] when the flag in force (that of the
    preset, or else that of the input, or else [true]) is true, and is
    absent otherwise: vocals are asked for by leaving the field out. *)
Theorem music_tools_never_send_instrumental_false env now input st d o st' mc' :
  generateMusic utf8_decode JSON_parse JSON_stringify remote path_join path_dirname
                fs_fault env now input st (mkMachine empty_world d)
  = Some (o, st', mc') \/
  streamMusic utf8_decode JSON_parse JSON_stringify remote path_join path_dirname
              fs_fault env now input st (mkMachine empty_world d)
  = Some (o, st', mc') ->
  Forall (fun c =>
            exists fields,
              init_body (call_init c) = Some (JSON_stringify (JObject fields)) /\
              get_field "instrumental" fields =
                (if default false (snd (music_settings input))
                 then Some (JBool true) else None) /\
              get_field "instrumental" fields <> Some (JBool false))
         (calls (network mc')).
Proof.
  assert (Hfield : forall p ds i rest,
    (forall v, get_field "instrumental" rest = v -> v = None) ->
    get_field "instrumental" (music_body_fields p ds i ++ rest)%list =
    (if default false i then Some (JBool true) else None)).
  { intros p ds i rest Hrest. unfold music_body_fields, property.
    destruct p as [p |], ds as [n |], i as [[|] |]; simpl;
      try reflexivity; apply Hrest; reflexivity. }
  assert (Hplan : forall plan v,
             get_field "instrumental" (plan_field plan) = v -> v = None).
  { intros plan v <-. unfold plan_field.
    destruct plan as [j |]; [destruct (truthy j) |]; reflexivity. }
  intros [Hrun | Hrun].
  - unfold generateMusic in Hrun.
    destruct (music_settings input) as [[p ds] i]. simpl.
    apply audio_tool_calls in Hrun.
    eapply Forall_impl; [exact Hrun |]. intros c (_ & _ & Hbody).
    eexists. split; [exact Hbody |].
    rewrite (Hfield p ds i _ (Hplan _)).
    split; [reflexivity |]. destruct (default false i); discriminate.
  - unfold streamMusic in Hrun.
    destruct (music_settings input) as [[p ds] i]. simpl.
    apply audio_tool_calls in Hrun.
    eapply Forall_impl; [exact Hrun |]. intros c (_ & _ & Hbody).
    eexists. split; [exact Hbody |].
    rewrite <- (app_nil_r (music_body_fields p ds i)).
    rewrite (Hfield p ds i [] (fun v H => eq_sym H)).
    split; [reflexivity |]. destruct (default false i); discriminate.
Qed.

(** X24. A preset name that [MUSIC_PRESETS] inherits from [Object.prototype]
    ([toString], [constructor], ...) is taken for a preset although it is
    none: the prompt, the duration and the flag read from it are
    [undefined], so every network call of [generateMusic] sends an object
    without [prompt], [duration_seconds] and [instrumental] (only the
    composition plan, if one is given), and the result reports none of the
    three. The prompt of the input is not used. *)
Theorem generateMusic_inherited_preset_name env now input name st d o st' mc' :
  mi_preset input = Some name ->
  array_includes Object_prototype_names name = true ->
  generateMusic utf8_decode JSON_parse JSON_stringify remote path_join path_dirname
                fs_fault env now input st (mkMachine empty_world d)
  = Some (o, st', mc') ->
  Forall (fun c =>
            init_body (call_init c) =
            Some (JSON_stringify (JObject (plan_field (mi_composition_plan input)))))
         (calls (network mc')) /\
  forall result,
    o = Value result ->
    music_prompt result = None /\
    music_duration_seconds result = None /\
    music_instrumental result = None.
Proof.
  intros Hname Hinh Hrun.
  destruct (MUSIC_PRESETS_inherited name Hinh) as (Htruthy & Hnone).
  unfold generateMusic, music_settings, music_preset_of in Hrun.
  rewrite Hname, Htruthy, Hnone, Hinh in Hrun. split.
  - apply audio_tool_calls in Hrun.
    eapply Forall_impl; [exact Hrun |]. intros c (_ & _ & Hbody). exact Hbody.
  - intros result ->. apply audio_tool_value in Hrun. subst result.
    simpl. auto.
Qed.

Lemma output_path_of_same_second env now1 now2 given prefix extension :
  substring 0 19 now1 = substring 0 19 now2 ->
  output_path_of path_join env now1 given prefix extension =
  output_path_of path_join env now2 given prefix extension.
Proof.
  intros Hsec. unfold output_path_of.
  rewrite (timestamp_of_prefix now1), (timestamp_of_prefix now2), Hsec.
  reflexivity.
Qed.

(** X25. The default file name has the resolution of a second. Two calls of
    [generateMusic] that are given no output path, use formats with the same
    extension and read clocks that agree up to the second ([toISOString]
    texts with the same first 19 characters) save to the same path, whatever
    else their inputs are: the later file replaces the earlier one. *)
Theorem generateMusic_same_second_same_file env now1 now2 input1 input2
        st1 st2 d1 d2 r1 r2 st1' st2' mc1' mc2' :
  substring 0 19 now1 = substring 0 19 now2 ->
  text_or (mi_output_path input1) "" = "" ->
  text_or (mi_output_path input2) "" = "" ->
  audio_extension (text_or (mi_output_format input1) DEFAULT_OUTPUT_FORMAT) =
  audio_extension (text_or (mi_output_format input2) DEFAULT_OUTPUT_FORMAT) ->
  generateMusic utf8_decode JSON_parse JSON_stringify remote path_join path_dirname
                fs_fault env now1 input1 st1 (mkMachine empty_world d1)
  = Some (Value r1, st1', mc1') ->
  generateMusic utf8_decode JSON_parse JSON_stringify remote path_join path_dirname
                fs_fault env now2 input2 st2 (mkMachine empty_world d2)
  = Some (Value r2, st2', mc2') ->
  music_file_path r1 = music_file_path r2.
Proof.
  intros Hsec Hp1 Hp2 Hext Hrun1 Hrun2.
  assert (Hgiven : forall input,
             text_or (mi_output_path input) "" = "" ->
             forall now ext,
               output_path_of path_join env now (mi_output_path input) "music_" ext =
               output_path_of path_join env now None "music_" ext).
  { intros input Hp now ext. unfold output_path_of, text_or in *.
    destruct (mi_output_path input) as [p |]; [| reflexivity].
    destruct p as [| c p]; [reflexivity | discriminate Hp]. }
  unfold generateMusic in Hrun1, Hrun2.
  destruct (music_settings input1) as [[p1 ds1] i1].
  destruct (music_settings input2) as [[p2 ds2] i2].
  apply audio_tool_value in Hrun1. apply audio_tool_value in Hrun2.
  subst r1 r2. simpl.
  rewrite (Hgiven input1 Hp1), (Hgiven input2 Hp2), Hext.
  apply output_path_of_same_second, Hsec.
Qed.

End AudioToolProperties.

(** ** The tools on sample inputs *)

(** A request for thrash metal with the preset [sleep_therapy], answered by
    a 429 and then by audio: the file holds the audio of the second
    answer. *)
Lemma audio_tools_save_received_audio_sample :
  exists o st' mc',
    sample_generateMusic remote_429_then_audio fs_sound env_default sample_now
                         sample_music_input initial_module
                         (mkMachine empty_world []) = Some (o, st', mc') /\
    tool_ends sample_utf8_decode sample_JSON_parse sample_JSON_stringify
              remote_429_then_audio sample_path_dirname fs_sound
              music_file_path env_default initial_module []
              "/music?output_format=mp3_44100_128"
              "music_2026-03-14T09-26-53.mp3" o st' mc'.
Proof.
  destruct (audio_tools_save_received_audio
              sample_utf8_decode sample_JSON_parse sample_JSON_stringify
              remote_429_then_audio sample_path_join sample_path_dirname fs_sound
              env_default sample_now initial_module []) as [H _].
  exact (H sample_music_input).
Defined.

Lemma sample_generateMusic_disk :
  disk (tool_machine_of
          (sample_generateMusic remote_429_then_audio fs_sound env_default
                                sample_now sample_music_input initial_module
                                (mkMachine empty_world []))) =
  [Mkdir "."; WriteFile "music_2026-03-14T09-26-53.mp3" (bytes_of "ID3")].
Proof. reflexivity. Qed.

(** When the request fails nothing is asked of the file system, and
    without a credential no call is made either. *)
Lemma sample_generateMusic_request_fails :
  let run := sample_generateMusic remote_401 fs_sound env_default sample_now
                                  sample_music_input initial_module
                                  (mkMachine empty_world []) in
  let blocked := sample_generateMusic remote_429_then_audio fs_sound env_empty_key
                                      sample_now sample_music_input initial_module
                                      (mkMachine empty_world []) in
  message (match tool_outcome_of run with Throw e => e | Value _ => new_Error "" end)
  = "Unauthorized - Invalid or missing API key: Quota exceeded" /\
  length (calls (network (tool_machine_of run))) = 1%nat /\
  disk (tool_machine_of run) = [] /\
  blocked = Some (Throw ConfigurationError, initial_module, mkMachine empty_world []).
Proof. repeat split. Qed.

(** With a full disk the write is asked for and fails: the tool throws. *)
Lemma sample_generateMusic_disk_full :
  tool_outcome_of
    (sample_generateMusic remote_429_then_audio fs_full env_default
                          sample_now vocals_input initial_module
                          (mkMachine empty_world [])) =
  Throw (new_Error "ENOSPC: no space left on device") /\
  disk (tool_machine_of
          (sample_generateMusic remote_429_then_audio fs_full env_default
                                sample_now vocals_input initial_module
                                (mkMachine empty_world []))) =
  [Mkdir "out"; WriteFile "out/song.mp3" (bytes_of "ID3")].
Proof. split; reflexivity. Qed.

Lemma generateMusic_preset_overrides_sample :
  let run := sample_generateMusic remote_429_then_audio fs_sound env_default
                                  sample_now sample_music_input initial_module
                                  (mkMachine empty_world []) in
  length (calls (network (tool_machine_of run))) = 2%nat /\
  Forall (fun c =>
            init_body (call_init c) =
            Some (sample_JSON_stringify
                    (JObject [("prompt",
                               JString "Ultra-slow ambient sleep music, barely audible drones, delta wave inducing frequencies, ethereal textures, minimal movement, 40 BPM or slower");
                              ("duration_seconds", JNumber 300);
                              ("instrumental", JBool true)])))
         (calls (network (tool_machine_of run))) /\
  music_duration_seconds (tool_result_of no_music run) = Some 300.
Proof.
  intros run. split; [reflexivity |].
  destruct (generateMusic_preset_overrides
              sample_utf8_decode sample_JSON_parse sample_JSON_stringify
              remote_429_then_audio sample_path_join sample_path_dirname fs_sound
              env_default sample_now sample_music_input "sleep_therapy"
              (mkMusicPreset
                 "Ultra-slow ambient sleep music, barely audible drones, delta wave inducing frequencies, ethereal textures, minimal movement, 40 BPM or slower"
                 true 300)
              initial_module [] (tool_outcome_of run) (tool_state_of run)
              (tool_machine_of run) eq_refl eq_refl eq_refl) as [Hcalls Hresult].
  split; [exact Hcalls |].
  destruct (Hresult (tool_result_of no_music run) eq_refl) as (_ & Hd & _).
  exact Hd.
Defined.

Lemma music_tools_never_send_instrumental_false_sample :
  Forall (fun c =>
            exists fields,
              init_body (call_init c) = Some (sample_JSON_stringify (JObject fields)) /\
              get_field "instrumental" fields = None /\
              get_field "instrumental" fields <> Some (JBool false))
         (calls (network (tool_machine_of
                   (sample_generateMusic remote_429_then_audio fs_sound env_default
                                         sample_now vocals_input initial_module
                                         (mkMachine empty_world []))))).
Proof.
  apply (music_tools_never_send_instrumental_false
           sample_utf8_decode sample_JSON_parse sample_JSON_stringify
           remote_429_then_audio sample_path_join sample_path_dirname fs_sound
           env_default sample_now vocals_input initial_module []
           (tool_outcome_of
              (sample_generateMusic remote_429_then_audio fs_sound env_default
                                    sample_now vocals_input initial_module
                                    (mkMachine empty_world [])))
           (tool_state_of
              (sample_generateMusic remote_429_then_audio fs_sound env_default
                                    sample_now vocals_input initial_module
                                    (mkMachine empty_world [])))).
  left. reflexivity.
Defined.

Lemma generateMusic_inherited_preset_name_sample :
  let run := sample_generateMusic remote_429_then_audio fs_sound env_default
                                  sample_now inherited_input initial_module
                                  (mkMachine empty_world []) in
  Forall (fun c => init_body (call_init c) = Some "{}")
         (calls (network (tool_machine_of run))) /\
  music_prompt (tool_result_of no_music run) = None.
Proof.
  intros run.
  destruct (generateMusic_inherited_preset_name
              sample_utf8_decode sample_JSON_parse sample_JSON_stringify
              remote_429_then_audio sample_path_join sample_path_dirname fs_sound
              env_default sample_now inherited_input "toString"
              initial_module [] (tool_outcome_of run) (tool_state_of run)
              (tool_machine_of run) eq_refl eq_refl eq_refl) as [Hcalls Hresult].
  split; [exact Hcalls |].
  destruct (Hresult (tool_result_of no_music run) eq_refl) as (Hp & _).
  exact Hp.
Defined.

Lemma generateMusic_same_second_same_file_sample :
  let run1 := sample_generateMusic remote_429_then_audio fs_sound env_default
                                   sample_now sample_music_input initial_module
                                   (mkMachine empty_world []) in
  let run2 := sample_generateMusic remote_429_then_audio fs_sound env_default
                                   sample_later rain_input (tool_state_of run1)
                                   (mkMachine empty_world (disk (tool_machine_of run1))) in
  music_file_path (tool_result_of no_music run1) =
  music_file_path (tool_result_of no_music run2).
Proof.
  intros run1 run2.
  apply (generateMusic_same_second_same_file
           sample_utf8_decode sample_JSON_parse sample_JSON_stringify
           remote_429_then_audio sample_path_join sample_path_dirname fs_sound
           env_default sample_now sample_later sample_music_input rain_input
           initial_module (tool_state_of run1) [] (disk (tool_machine_of run1))
           (tool_result_of no_music run1) (tool_result_of no_music run2)
           (tool_state_of run1) (tool_state_of run2)
           (tool_machine_of run1) (tool_machine_of run2));
    reflexivity.
Defined.
